(** * Linke: the invite-code engine (generation, store, ledger, redemption, registration)

    A shallow embedding of the Go services

      - [internal/model]   : [InviteCode], [InviteCodeUsage], [User]
      - [internal/service] : [InviteCodeService], [InviteCodeUsageService],
                             [UserService], [AuthService] (registration,
                             login, password change)
      - [internal/handler] : [InviteCodeHandler] and its request bindings

    The store (GORM over SQL) is a record of three tables; every service
    function is a state transformer over a [World] that also carries what
    the environment decides: which store calls fail, what the random
    sources and the clock return, and the log written so far. *)

From Stdlib Require Import ZArith List String Ascii Bool Lia DecimalString.
Import ListNotations.
Open Scope string_scope.
Open Scope list_scope.
Open Scope Z_scope.


(** ** Machine integers

    Go's [int] is 64 bits wide on the platforms the server targets;
    [x++] wraps around. [uint] identifiers are kept as non-negative [Z]. *)

Definition wrap_int (z : Z) : Z := (z + 2 ^ 63) mod 2 ^ 64 - 2 ^ 63.

Definition int_range (z : Z) : Prop := - 2 ^ 63 <= z < 2 ^ 63.

(** ** Errors

    The Go code builds errors with [fmt.Errorf]; an error is told apart
    only by its message, and [%w] wraps a cause. [ErrBind] is the
    validator's error: one line per failed field,
    [Key: '<key>' Error:Field validation for '<field>' failed on the '<tag>' tag]. *)

Inductive error : Type :=
| Errorf (msg : string)
| Wrapf (msg : string) (cause : error)
| ErrRecordNotFound
| ErrDuplicatedKey
| ErrStore
| ErrRand
| ErrJSON
| ErrBind (failed : list (string * string * string)).

Fixpoint Error (e : error) : string :=
  match e with
  | Errorf m => m
  | Wrapf m c => (m ++ ": " ++ Error c)%string
  | ErrRecordNotFound => "record not found"
  | ErrDuplicatedKey => "duplicated key not allowed"
  | ErrStore => "store error"
  | ErrRand => "random source error"
  | ErrJSON => "invalid request body"
  | ErrBind fs =>
      String.concat (String (ascii_of_nat 10) "")
        (map (fun ft => ("Key: '" ++ fst (fst ft)
                         ++ "' Error:Field validation for '" ++ snd (fst ft)
                         ++ "' failed on the '" ++ snd ft ++ "' tag")%string) fs)
  end.

Inductive result (A : Type) : Type :=
| Ok (a : A)
| Err (e : error).
Arguments Ok {A} a.
Arguments Err {A} e.

(** ** internal/model *)

Definition InviteCodeStatusActive : string := "active".
Definition InviteCodeStatusUsed : string := "used".
Definition InviteCodeStatusDisabled : string := "disabled".

Definition ProviderLocal : string := "local".
Definition UserStatusActive : string := "active".
Definition UserRoleUser : string := "user".
Definition UserRoleAdmin : string := "admin".

Module InviteCode.
(** [DeletedAt] is [gorm.DeletedAt]: [Some t] when [Valid]. The
    gorm-managed [CreatedAt]/[UpdatedAt] stamps and the in-memory
    relations ([gorm:"-"]) are left out: no operation reads them.
    [Save] rewrites [updated_at]; a record of this type stands for the
    other columns of a row. *)
Record t : Type := mk {
  ID : Z;
  Code : string;
  CreatedByID : Z;
  Status : string;
  MaxUses : Z;
  UsedCount : Z;
  Description : string;
  Metadata : string;
  DeletedAt : option Z
}.

Definition with_ID (v : Z) (ic : t) : t :=
  mk v (Code ic) (CreatedByID ic) (Status ic) (MaxUses ic) (UsedCount ic)
     (Description ic) (Metadata ic) (DeletedAt ic).
Definition with_Status (v : string) (ic : t) : t :=
  mk (ID ic) (Code ic) (CreatedByID ic) v (MaxUses ic) (UsedCount ic)
     (Description ic) (Metadata ic) (DeletedAt ic).
Definition with_MaxUses (v : Z) (ic : t) : t :=
  mk (ID ic) (Code ic) (CreatedByID ic) (Status ic) v (UsedCount ic)
     (Description ic) (Metadata ic) (DeletedAt ic).
Definition with_UsedCount (v : Z) (ic : t) : t :=
  mk (ID ic) (Code ic) (CreatedByID ic) (Status ic) (MaxUses ic) v
     (Description ic) (Metadata ic) (DeletedAt ic).
Definition with_DeletedAt (v : option Z) (ic : t) : t :=
  mk (ID ic) (Code ic) (CreatedByID ic) (Status ic) (MaxUses ic) (UsedCount ic)
     (Description ic) (Metadata ic) v.

(** [func (ic *InviteCode) IsActive() bool] *)
Definition IsActive (ic : t) : bool :=
  if negb (Status ic =? InviteCodeStatusActive)%string then false
  else if UsedCount ic >=? MaxUses ic then false
  else true.

(** [func (ic *InviteCode) IsExhausted() bool] *)
Definition IsExhausted (ic : t) : bool := UsedCount ic >=? MaxUses ic.

(** [func (ic *InviteCode) IsDeleted() bool] *)
Definition IsDeleted (ic : t) : bool :=
  match DeletedAt ic with Some _ => true | None => false end.

(** [func (ic *InviteCode) CanBeUsed() bool] *)
Definition CanBeUsed (ic : t) : bool := IsActive ic && negb (IsDeleted ic).
End InviteCode.

Module InviteCodeUsage.
Record t : Type := mk {
  ID : Z;
  InviteCodeID : Z;
  UsedByID : Z;
  UsedAt : Z;
  IPAddress : string;
  UserAgent : string;
  DeletedAt : option Z
}.

Definition with_ID (v : Z) (u : t) : t :=
  mk v (InviteCodeID u) (UsedByID u) (UsedAt u) (IPAddress u) (UserAgent u)
     (DeletedAt u).
End InviteCodeUsage.

Module User.
(** The gorm-managed [CreatedAt]/[UpdatedAt] stamps are left out, as for
    [InviteCode]. *)
Record t : Type := mk {
  ID : Z;
  Email : string;
  Username : string;
  Name : string;
  Avatar : string;
  Password : string;
  Provider : string;
  Status : string;
  Role : string;
  GoogleID : option string;
  GitHubID : option string;
  TelegramID : option string;
  ProviderData : string;
  InviteCodeID : option Z;
  InviteCodeUsed : option string;
  DeletedAt : option Z
}.

Definition with_ID (v : Z) (u : t) : t :=
  mk v (Email u) (Username u) (Name u) (Avatar u) (Password u) (Provider u)
     (Status u) (Role u) (GoogleID u) (GitHubID u) (TelegramID u)
     (ProviderData u) (InviteCodeID u) (InviteCodeUsed u) (DeletedAt u).
Definition with_Role (v : string) (u : t) : t :=
  mk (ID u) (Email u) (Username u) (Name u) (Avatar u) (Password u) (Provider u)
     (Status u) v (GoogleID u) (GitHubID u) (TelegramID u)
     (ProviderData u) (InviteCodeID u) (InviteCodeUsed u) (DeletedAt u).
Definition with_invite (id : option Z) (code : option string) (u : t) : t :=
  mk (ID u) (Email u) (Username u) (Name u) (Avatar u) (Password u) (Provider u)
     (Status u) (Role u) (GoogleID u) (GitHubID u) (TelegramID u)
     (ProviderData u) id code (DeletedAt u).

(** [func (u *User) IsDeleted() bool] *)
Definition IsDeleted (u : t) : bool :=
  match DeletedAt u with Some _ => true | None => false end.

(** [func (u *User) IsActive() bool] *)
Definition IsActive (u : t) : bool :=
  (Status u =? UserStatusActive)%string && negb (IsDeleted u).

(** [func (u *User) IsAdmin() bool] *)
Definition IsAdmin (u : t) : bool :=
  (Role u =? UserRoleAdmin)%string && IsActive u.
End User.

(** ** The store

    Three tables, each with its auto-increment sequence (the last
    identifier handed out). *)

Record DB : Type := mkDB {
  invite_codes : list InviteCode.t;
  invite_code_usages : list InviteCodeUsage.t;
  users : list User.t;
  invite_codes_seq : Z;
  invite_code_usages_seq : Z;
  users_seq : Z
}.

Definition empty_db : DB := mkDB [] [] [] 0 0 0.

Definition with_invite_codes (v : list InviteCode.t) (d : DB) : DB :=
  mkDB v (invite_code_usages d) (users d)
       (invite_codes_seq d) (invite_code_usages_seq d) (users_seq d).

(** ** The world a request runs in

    - [faults]: for each store call in order, whether it fails (a missing
      entry means it does not);
    - [entropy]: what successive [crypto/rand.Read] calls deliver;
    - [prng]: what successive [math/rand] draws deliver;
    - [clock]: what successive [time.Now] calls read;
    - [log]: the entries written through [logger], oldest first. *)

Inductive level : Type := LInfo | LWarn | LError.

Record World : Type := mkWorld {
  db : DB;
  faults : list bool;
  entropy : list (list Byte.byte);
  prng : list Z;
  clock : list Z;
  log : list (level * string)
}.

Definition M (A : Type) : Type := World -> A * World.

Definition ret {A : Type} (a : A) : M A := fun w => (a, w).

Definition bind {A B : Type} (c : M A) (k : A -> M B) : M B :=
  fun w => let (a, w1) := c w in k a w1.

Declare Scope m_scope.
Delimit Scope m_scope with m.
Notation "x <- c ;; k" := (bind c (fun x => k))
  (at level 61, c at next level, right associativity) : m_scope.
Notation "c ;; k" := (bind c (fun _ => k))
  (at level 61, right associativity) : m_scope.
Open Scope m_scope.

Definition get_db : M DB := fun w => (db w, w).

Definition put_db (d : DB) : M unit :=
  fun w => (tt, mkWorld d (faults w) (entropy w) (prng w) (clock w) (log w)).

(** One round trip to the store: [true] when the call fails. *)
Definition store_call : M bool :=
  fun w =>
    match faults w with
    | [] => (false, w)
    | f :: fs => (f, mkWorld (db w) fs (entropy w) (prng w) (clock w) (log w))
    end.

(** [crypto/rand.Read(b)] with [len(b) = n]: the buffer is filled, or an
    error is returned (a short read is an error). *)
Definition rand_Read (n : nat) : M (option (list Byte.byte)) :=
  fun w =>
    match entropy w with
    | [] => (None, w)
    | b :: bs =>
        (if Nat.eqb (List.length b) n then Some b else None,
         mkWorld (db w) (faults w) bs (prng w) (clock w) (log w))
    end.

(** [math/rand.Intn(n)]: a value in [0, n). *)
Definition rand_Intn (n : Z) : M Z :=
  fun w =>
    match prng w with
    | [] => (0, w)
    | v :: vs => (v mod n, mkWorld (db w) (faults w) (entropy w) vs (clock w) (log w))
    end.

(** [time.Now()], as Unix seconds. *)
Definition time_Now : M Z :=
  fun w =>
    match clock w with
    | [] => (0, w)
    | t :: ts => (t, mkWorld (db w) (faults w) (entropy w) (prng w) ts (log w))
    end.

Definition logger (l : level) (msg : string) : M unit :=
  fun w => (tt, mkWorld (db w) (faults w) (entropy w) (prng w) (clock w)
                        (log w ++ [(l, msg)])).

(** ** GORM queries

    Every query on a model with a [DeletedAt] column carries
    [deleted_at IS NULL]; [First] orders by primary key. *)

Fixpoint min_by {A : Type} (key : A -> Z) (l : list A) : option A :=
  match l with
  | [] => None
  | x :: r =>
      match min_by key r with
      | None => Some x
      | Some y => if key x <=? key y then Some x else Some y
      end
  end.

Definition live_invite_codes (d : DB) : list InviteCode.t :=
  filter (fun r => negb (InviteCode.IsDeleted r)) (invite_codes d).

Definition live_users (d : DB) : list User.t :=
  filter (fun u => negb (User.IsDeleted u)) (users d).

(** [db.Where(p).First(&inviteCode)] *)
Definition First_InviteCode (p : InviteCode.t -> bool) : M (result InviteCode.t) :=
  f <- store_call ;;
  if f : bool then ret (Err ErrStore)
  else
    d <- get_db ;;
    match min_by InviteCode.ID (filter p (live_invite_codes d)) with
    | Some r => ret (Ok r)
    | None => ret (Err ErrRecordNotFound)
    end.

(** [db.Where(p).First(&user)] *)
Definition First_User (p : User.t -> bool) : M (result User.t) :=
  f <- store_call ;;
  if f : bool then ret (Err ErrStore)
  else
    d <- get_db ;;
    match min_by User.ID (filter p (live_users d)) with
    | Some r => ret (Ok r)
    | None => ret (Err ErrRecordNotFound)
    end.

(** [db.Model(&model.User{}).Where(p).Count(&count)] *)
Definition Count_User (p : User.t -> bool) : M (result Z) :=
  f <- store_call ;;
  if f : bool then ret (Err ErrStore)
  else
    d <- get_db ;;
    ret (Ok (Z.of_nat (List.length (filter p (live_users d))))).

(** Column defaults of the [gorm] tags, applied by [Create] to zero
    fields: [status default 'active'], [max_uses default 10]. *)
Definition InviteCode_defaults (ic : InviteCode.t) : InviteCode.t :=
  let ic := if (InviteCode.Status ic =? "")%string
            then InviteCode.with_Status "active" ic else ic in
  if InviteCode.MaxUses ic =? 0 then InviteCode.with_MaxUses 10 ic else ic.

(** [db.Create(inviteCode)] for a record with a zero [ID]: the unique
    index on [code] spans every row of the table, deleted or not. *)
Definition Create_InviteCode (ic : InviteCode.t) : M (result InviteCode.t) :=
  f <- store_call ;;
  if f : bool then ret (Err ErrStore)
  else
    d <- get_db ;;
    let ic := InviteCode_defaults ic in
    if existsb (fun r => (InviteCode.Code r =? InviteCode.Code ic)%string)
               (invite_codes d)
    then ret (Err ErrDuplicatedKey)
    else
      let id := invite_codes_seq d + 1 in
      let row := InviteCode.with_ID id ic in
      put_db (mkDB (invite_codes d ++ [row]) (invite_code_usages d) (users d)
                   id (invite_code_usages_seq d) (users_seq d)) ;;
      ret (Ok row).

(** [Save] writes every column of the row with that primary key, and
    inserts the record when there is none. *)
Definition save_row (ic : InviteCode.t) (rows : list InviteCode.t)
  : list InviteCode.t :=
  if existsb (fun r => InviteCode.ID r =? InviteCode.ID ic) rows
  then map (fun r => if InviteCode.ID r =? InviteCode.ID ic then ic else r) rows
  else rows ++ [ic].

(** [db.Save(&inviteCode)] outside a transaction. *)
Definition Save_InviteCode (ic : InviteCode.t) : M (result unit) :=
  f <- store_call ;;
  if f : bool then ret (Err ErrStore)
  else
    d <- get_db ;;
    put_db (with_invite_codes (save_row ic (invite_codes d)) d) ;;
    ret (Ok tt).

(** [db.Delete(&model.InviteCode{}, id)]: a soft delete, returning
    [RowsAffected]. *)
Definition Delete_InviteCode (id : Z) : M (result Z) :=
  f <- store_call ;;
  if f : bool then ret (Err ErrStore)
  else
    now <- time_Now ;;
    d <- get_db ;;
    let hit := fun r => (InviteCode.ID r =? id) && negb (InviteCode.IsDeleted r) in
    put_db (with_invite_codes
              (map (fun r => if hit r then InviteCode.with_DeletedAt (Some now) r else r)
                   (invite_codes d)) d) ;;
    ret (Ok (Z.of_nat (List.length (filter hit (invite_codes d))))).

Definition insert_usage (u : InviteCodeUsage.t) (d : DB) : DB :=
  let id := invite_code_usages_seq d + 1 in
  mkDB (invite_codes d) (invite_code_usages d ++ [InviteCodeUsage.with_ID id u])
       (users d) (invite_codes_seq d) id (users_seq d).

(** [db.Create(usage)] outside a transaction. *)
Definition Create_InviteCodeUsage (u : InviteCodeUsage.t)
  : M (result InviteCodeUsage.t) :=
  f <- store_call ;;
  if f : bool then ret (Err ErrStore)
  else
    d <- get_db ;;
    put_db (insert_usage u d) ;;
    ret (Ok (InviteCodeUsage.with_ID (invite_code_usages_seq d + 1) u)).

Definition same_key (a b : option string) : bool :=
  match a, b with
  | Some x, Some y => (x =? y)%string
  | _, _ => false
  end.

(** [db.Create(user)]: [email], [google_id], [github_id] and
    [telegram_id] carry unique indexes (NULLs never collide);
    [role default 'user']. *)
Definition Create_User (u : User.t) : M (result User.t) :=
  f <- store_call ;;
  if f : bool then ret (Err ErrStore)
  else
    d <- get_db ;;
    let u := if (User.Role u =? "")%string then User.with_Role "user" u else u in
    if existsb (fun r => (User.Email r =? User.Email u)%string
                         || same_key (User.GoogleID r) (User.GoogleID u)
                         || same_key (User.GitHubID r) (User.GitHubID u)
                         || same_key (User.TelegramID r) (User.TelegramID u))
               (users d)
    then ret (Err ErrDuplicatedKey)
    else
      let id := users_seq d + 1 in
      let row := User.with_ID id u in
      put_db (mkDB (invite_codes d) (invite_code_usages d) (users d ++ [row])
                   (invite_codes_seq d) (invite_code_usages_seq d) id) ;;
      ret (Ok row).

(** ** Transactions

    A transaction collects its writes; they reach the store together at
    [Commit] and are dropped by [Rollback]. *)

Inductive write : Type :=
| WSaveInviteCode (ic : InviteCode.t)
| WCreateUsage (u : InviteCodeUsage.t).

Definition Tx : Type := list write.

Definition apply_write (d : DB) (x : write) : DB :=
  match x with
  | WSaveInviteCode ic => with_invite_codes (save_row ic (invite_codes d)) d
  | WCreateUsage u => insert_usage u d
  end.

Definition tx_Begin : M Tx := ret [].

Definition tx_Save (tx : Tx) (ic : InviteCode.t) : M (result Tx) :=
  f <- store_call ;;
  if f : bool then ret (Err ErrStore) else ret (Ok (tx ++ [WSaveInviteCode ic])).

Definition tx_Create (tx : Tx) (u : InviteCodeUsage.t) : M (result Tx) :=
  f <- store_call ;;
  if f : bool then ret (Err ErrStore) else ret (Ok (tx ++ [WCreateUsage u])).

Definition tx_Rollback (tx : Tx) : M unit := ret tt.

Definition tx_Commit (tx : Tx) : M (result unit) :=
  f <- store_call ;;
  if f : bool then ret (Err ErrStore)
  else
    d <- get_db ;;
    put_db (fold_left apply_write tx d) ;;
    ret (Ok tt).

(** ** encoding/hex *)

Definition hextable : string := "0123456789abcdef".

Definition hexchar (n : N) : ascii :=
  match String.get (N.to_nat n) hextable with
  | Some c => c
  | None => "0"%char
  end.

(** [hex.EncodeToString(src)]: [hextable[v>>4]] then [hextable[v&0x0f]]
    for every byte. *)
Fixpoint EncodeToString (src : list Byte.byte) : string :=
  match src with
  | [] => ""
  | v :: rest =>
      String (hexchar (N.shiftr (Byte.to_N v) 4))
        (String (hexchar (N.land (Byte.to_N v) 15)) (EncodeToString rest))
  end.

(** ** service.InviteCodeService *)

Module CreateInviteCodeRequest.
Record t : Type := mk {
  MaxUses : Z;
  Description : string
}.
End CreateInviteCodeRequest.

(** [GenerateInviteCode] calls itself on a collision. Every call first
    takes one entry of [entropy], so [fuel = S (length entropy)] is never
    used up ([GenerateInviteCode_fuel_enough]). *)
Fixpoint GenerateInviteCode_fuel (fuel : nat) : M (result string) :=
  match fuel with
  | O => ret (Err ErrRand)
  | S fuel' =>
      r <- rand_Read 16 ;;
      match r with
      | None => ret (Err (Wrapf "failed to generate random bytes" ErrRand))
      | Some bytes =>
          let code := EncodeToString bytes in
          e <- First_InviteCode (fun r => (InviteCode.Code r =? code)%string) ;;
          match e with
          | Ok _ => GenerateInviteCode_fuel fuel'
          | Err _ => ret (Ok code)
          end
      end
  end.

Definition GenerateInviteCode : M (result string) :=
  fun w => GenerateInviteCode_fuel (S (List.length (entropy w))) w.

Definition CreateInviteCode (createdByID : Z) (req : CreateInviteCodeRequest.t)
  : M (result InviteCode.t) :=
  g <- GenerateInviteCode ;;
  match g with
  | Err e => ret (Err (Wrapf "failed to generate invite code" e))
  | Ok code =>
      let inviteCode :=
        InviteCode.mk 0 code createdByID InviteCodeStatusActive
                      (CreateInviteCodeRequest.MaxUses req) 0
                      (CreateInviteCodeRequest.Description req) "" None in
      c <- Create_InviteCode inviteCode ;;
      match c with
      | Err e =>
          logger LError "Failed to create invite code" ;;
          ret (Err (Wrapf "failed to create invite code" e))
      | Ok row =>
          logger LInfo "Invite code created successfully" ;;
          ret (Ok row)
      end
  end.

Definition GetInviteCodeByCode (code : string) : M (result InviteCode.t) :=
  r <- First_InviteCode (fun r => (InviteCode.Code r =? code)%string) ;;
  match r with
  | Ok ic => ret (Ok ic)
  | Err ErrRecordNotFound => ret (Err (Errorf "invite code not found"))
  | Err e => ret (Err (Wrapf "failed to get invite code" e))
  end.

Definition GetInviteCodeByID (id : Z) : M (result InviteCode.t) :=
  r <- First_InviteCode (fun r => InviteCode.ID r =? id) ;;
  match r with
  | Ok ic => ret (Ok ic)
  | Err ErrRecordNotFound => ret (Err (Errorf "invite code not found"))
  | Err e => ret (Err (Wrapf "failed to get invite code" e))
  end.

Definition ValidateInviteCode (code : string) : M (result InviteCode.t) :=
  r <- GetInviteCodeByCode code ;;
  match r with
  | Err e => ret (Err e)
  | Ok inviteCode =>
      if negb (InviteCode.CanBeUsed inviteCode) then
        if InviteCode.IsExhausted inviteCode
        then ret (Err (Errorf "invite code has reached maximum uses"))
        else ret (Err (Errorf "invite code is not active"))
      else ret (Ok inviteCode)
  end.

(** The body of [UseInviteCode] after the code has been validated: the
    counter bump, the status flip and the two writes of the transaction. *)
Definition UseInviteCode_tx (tx : Tx) (inviteCode : InviteCode.t) (userID : Z)
    (ipAddress userAgent : string) : M (result InviteCode.t) :=
  let inviteCode :=
    InviteCode.with_UsedCount (wrap_int (InviteCode.UsedCount inviteCode + 1))
                              inviteCode in
  let inviteCode :=
    if InviteCode.UsedCount inviteCode >=? InviteCode.MaxUses inviteCode
    then InviteCode.with_Status InviteCodeStatusUsed inviteCode
    else inviteCode in
  s <- tx_Save tx inviteCode ;;
  match s with
  | Err e =>
      tx_Rollback tx ;;
      logger LError "Failed to update invite code usage" ;;
      ret (Err (Wrapf "failed to update invite code" e))
  | Ok tx =>
      now <- time_Now ;;
      let usage :=
        InviteCodeUsage.mk 0 (InviteCode.ID inviteCode) userID now
                           ipAddress userAgent None in
      c <- tx_Create tx usage ;;
      match c with
      | Err e =>
          tx_Rollback tx ;;
          logger LError "Failed to create invite code usage record" ;;
          ret (Err (Wrapf "failed to create usage record" e))
      | Ok tx =>
          k <- tx_Commit tx ;;
          match k with
          | Err e =>
              logger LError "Failed to commit invite code usage transaction" ;;
              ret (Err (Wrapf "failed to commit transaction" e))
          | Ok _ =>
              logger LInfo "Invite code used successfully" ;;
              ret (Ok inviteCode)
          end
      end
  end.

Definition UseInviteCode (code : string) (userID : Z)
    (ipAddress userAgent : string) : M (result InviteCode.t) :=
  tx <- tx_Begin ;;
  v <- ValidateInviteCode code ;;
  match v with
  | Err e => tx_Rollback tx ;; ret (Err e)
  | Ok inviteCode => UseInviteCode_tx tx inviteCode userID ipAddress userAgent
  end.

Definition UpdateInviteCodeStatus (id : Z) (status : string)
  : M (result InviteCode.t) :=
  r <- First_InviteCode (fun r => InviteCode.ID r =? id) ;;
  match r with
  | Err ErrRecordNotFound => ret (Err (Errorf "invite code not found"))
  | Err e => ret (Err (Wrapf "failed to get invite code" e))
  | Ok inviteCode =>
      let inviteCode := InviteCode.with_Status status inviteCode in
      s <- Save_InviteCode inviteCode ;;
      match s with
      | Err e =>
          logger LError "Failed to update invite code status" ;;
          ret (Err (Wrapf "failed to update invite code status" e))
      | Ok _ =>
          logger LInfo "Invite code status updated" ;;
          ret (Ok inviteCode)
      end
  end.

Definition DeleteInviteCode (id : Z) : M (result unit) :=
  r <- Delete_InviteCode id ;;
  match r with
  | Err e =>
      logger LError "Failed to delete invite code" ;;
      ret (Err (Wrapf "failed to delete invite code" e))
  | Ok rowsAffected =>
      if rowsAffected =? 0 then ret (Err (Errorf "invite code not found"))
      else
        logger LInfo "Invite code deleted successfully" ;;
        ret (Ok tt)
  end.

(** ** service.InviteCodeUsageService *)

Definition CreateUsageRecord (inviteCodeID userID : Z)
    (ipAddress userAgent : string) : M (result InviteCodeUsage.t) :=
  now <- time_Now ;;
  let usage := InviteCodeUsage.mk 0 inviteCodeID userID now ipAddress userAgent None in
  c <- Create_InviteCodeUsage usage ;;
  match c with
  | Err e =>
      logger LError "Failed to create invite code usage record" ;;
      ret (Err (Wrapf "failed to create usage record" e))
  | Ok row =>
      logger LInfo "Invite code usage record created" ;;
      ret (Ok row)
  end.

(** ** unicode/utf8

    [utf8.RuneCountInString]: the length the validator's [max] tag
    measures on a string. A byte that does not start a well-formed
    sequence counts as one rune of width one. *)

Definition utf8_first (c : Z) : Z * (Z * Z) :=
  if c <? 128 then (1, (128, 191))
  else if c <? 194 then (0, (128, 191))
  else if c <? 224 then (2, (128, 191))
  else if c =? 224 then (3, (160, 191))
  else if c <? 237 then (3, (128, 191))
  else if c =? 237 then (3, (128, 159))
  else if c <? 240 then (3, (128, 191))
  else if c =? 240 then (4, (144, 191))
  else if c <? 244 then (4, (128, 191))
  else if c =? 244 then (4, (128, 143))
  else (0, (128, 191)).

Definition utf8_cont (c : Z) : bool := (128 <=? c) && (c <=? 191).

(** Width of the rune that starts with byte [c], given the bytes after it. *)
Definition utf8_width (c : Z) (rest : list Z) : nat :=
  let '(size, (lo, hi)) := utf8_first c in
  if size <=? 1 then 1%nat
  else if Z.of_nat (List.length rest) <? size - 1 then 1%nat
  else
    match rest with
    | c1 :: r1 =>
        if (c1 <? lo) || (hi <? c1) then 1%nat
        else if size =? 2 then 2%nat
        else
          match r1 with
          | c2 :: r2 =>
              if negb (utf8_cont c2) then 1%nat
              else if size =? 3 then 3%nat
              else
                match r2 with
                | c3 :: _ => if negb (utf8_cont c3) then 1%nat else 4%nat
                | [] => 1%nat
                end
          | [] => 1%nat
          end
    | [] => 1%nat
    end.

Fixpoint utf8_count (s : list Z) (skip : nat) : Z :=
  match s with
  | [] => 0
  | c :: rest =>
      match skip with
      | S k => utf8_count rest k
      | O => 1 + utf8_count rest (Nat.pred (utf8_width c rest))
      end
  end.

Definition string_bytes (s : string) : list Z :=
  map (fun c => Z.of_N (N_of_ascii c)) (list_ascii_of_string s).

Definition RuneCountInString (s : string) : Z := utf8_count (string_bytes s) 0.

(** ** handler.InviteCodeHandler *)

Inductive response : Type :=
| Unauthorized (msg : string)
| BadRequest (msg : string)
| Forbidden (msg : string)
| NotFound (msg : string)
| InternalServerError (msg : string)
| Created (data : InviteCode.t)
| Success (data : InviteCode.t).

(** [binding:"min=1,max=100"] on [MaxUses], [binding:"max=255"] on
    [Description]; the failed fields in field order, each with its key
    ([Struct.Field]), its name and the tag that failed. *)
Definition validate_CreateInviteCodeRequest (req : CreateInviteCodeRequest.t)
  : list (string * string * string) :=
  (if CreateInviteCodeRequest.MaxUses req <? 1
   then [("CreateInviteCodeRequest.MaxUses", "MaxUses", "min")]
   else if CreateInviteCodeRequest.MaxUses req >? 100
   then [("CreateInviteCodeRequest.MaxUses", "MaxUses", "max")]
   else [])
  ++
  (if RuneCountInString (CreateInviteCodeRequest.Description req) >? 255
   then [("CreateInviteCodeRequest.Description", "Description", "max")] else []).

(** [c.ShouldBindJSON(&req)]: [body] is the decoded JSON object, [None]
    when the body does not decode into the struct. *)
Definition ShouldBindJSON_create (body : option CreateInviteCodeRequest.t)
  : result CreateInviteCodeRequest.t :=
  match body with
  | None => Err ErrJSON
  | Some req =>
      match validate_CreateInviteCodeRequest req with
      | [] => Ok req
      | fs => Err (ErrBind fs)
      end
  end.

(** [binding:"required,oneof=active disabled"] on [Status], the one
    field of an anonymous struct: its key is the field name. *)
Definition validate_status (status : string) : list (string * string * string) :=
  if (status =? "")%string then [("Status", "Status", "required")]
  else if (status =? "active")%string || (status =? "disabled")%string then []
  else [("Status", "Status", "oneof")].

Definition ShouldBindJSON_status (body : option string) : result string :=
  match body with
  | None => Err ErrJSON
  | Some status =>
      match validate_status status with
      | [] => Ok status
      | fs => Err (ErrBind fs)
      end
  end.

(** [strconv.ParseUint(idStr, 10, 32)] *)
Definition digit_of (c : ascii) : option Z :=
  let n := Z.of_N (N_of_ascii c) in
  if (48 <=? n) && (n <=? 57) then Some (n - 48) else None.

Fixpoint parse_digits (s : string) (acc : Z) : option Z :=
  match s with
  | EmptyString => Some acc
  | String c r =>
      match digit_of c with
      | Some v => parse_digits r (acc * 10 + v)
      | None => None
      end
  end.

Definition ParseUint32 (s : string) : option Z :=
  match s with
  | EmptyString => None
  | _ =>
      match parse_digits s 0 with
      | Some v => if v <? 2 ^ 32 then Some v else None
      | None => None
      end
  end.

Definition CreateInviteCode_handler (auth : option User.t)
    (body : option CreateInviteCodeRequest.t) : M response :=
  match auth with
  | None => ret (Unauthorized "Authentication required")
  | Some user =>
      match ShouldBindJSON_create body with
      | Err e => ret (BadRequest (Error e))
      | Ok req =>
          r <- CreateInviteCode (User.ID user) req ;;
          match r with
          | Err e =>
              logger LError "Failed to create invite code" ;;
              ret (BadRequest (Error e))
          | Ok inviteCode => ret (Created inviteCode)
          end
      end
  end.

Definition UpdateInviteCodeStatus_handler (auth : option User.t)
    (idStr : string) (body : option string) : M response :=
  match auth with
  | None => ret (Unauthorized "Authentication required")
  | Some user =>
      match ParseUint32 idStr with
      | None => ret (BadRequest "Invalid invite code ID")
      | Some id =>
          match ShouldBindJSON_status body with
          | Err e => ret (BadRequest (Error e))
          | Ok status =>
              g <- GetInviteCodeByID id ;;
              match g with
              | Err _ => ret (NotFound "Invite code not found")
              | Ok inviteCode =>
                  if negb (InviteCode.CreatedByID inviteCode =? User.ID user)
                     && negb (User.IsAdmin user)
                  then ret (Forbidden "You can only update your own invite codes")
                  else
                    u <- UpdateInviteCodeStatus id status ;;
                    match u with
                    | Err _ =>
                        logger LError "Failed to update invite code status" ;;
                        ret (InternalServerError "Failed to update invite code status")
                    | Ok updatedCode => ret (Success updatedCode)
                    end
              end
          end
      end
  end.

(** ** service.UserService *)

Definition CreateUser (user : User.t) : M (result User.t) :=
  c <- Create_User user ;;
  match c with
  | Err e =>
      logger LError "Failed to create user" ;;
      ret (Err (Wrapf "failed to create user" e))
  | Ok row =>
      logger LInfo "User created successfully" ;;
      ret (Ok row)
  end.

Definition GetUserByEmail (email : string) : M (result User.t) :=
  r <- First_User (fun u => (User.Email u =? email)%string) ;;
  match r with
  | Ok u => ret (Ok u)
  | Err ErrRecordNotFound => ret (Err (Errorf "user not found"))
  | Err e =>
      logger LError "Failed to get user by email" ;;
      ret (Err (Wrapf "failed to get user" e))
  end.

(** ** service.JWTService and service.AuthService

    The password hash ([bcrypt]), the token signature ([jwt]) and the
    Unicode case mappings of [strings] come from libraries; they are
    taken as given. *)

Module Claims.
Record t : Type := mk {
  UserID : Z;
  Email : string;
  Username : string;
  Provider : string;
  ExpiresAt : Z;
  IssuedAt : Z;
  NotBefore : Z;
  Issuer : string
}.
End Claims.

Module TokenResponse.
Record t : Type := mk {
  AccessToken : string;
  TokenType : string;
  ExpiresIn : Z;
  ExpiresAt : Z
}.
End TokenResponse.

Module RegisterRequest.
Record t : Type := mk {
  Email : string;
  Password : string;
  InviteCode : string
}.
End RegisterRequest.

Module AuthResponse.
Record t : Type := mk {
  User : User.t;
  Token : TokenResponse.t
}.
End AuthResponse.

(** [strings.ReplaceAll(s, c, "")] for a one-byte [c]. *)
Fixpoint remove_char (c : ascii) (s : string) : string :=
  match s with
  | EmptyString => EmptyString
  | String a r => if Ascii.eqb a c then remove_char c r else String a (remove_char c r)
  end.

(** [strings.Split(s, sep)[0]] for a one-byte [sep]. *)
Fixpoint before_sep (sep : ascii) (s : string) : string :=
  match s with
  | EmptyString => EmptyString
  | String a r => if Ascii.eqb a sep then EmptyString else String a (before_sep sep r)
  end.

(** [string(b)] for a byte [b]: the UTF-8 encoding of the code point [b]. *)
Definition string_of_byte_rune (b : ascii) : string :=
  let n := N_of_ascii b in
  if (n <? 128)%N then String b EmptyString
  else String (ascii_of_N (N.lor 192 (N.shiftr n 6)))
         (String (ascii_of_N (N.lor 128 (N.land n 63))) EmptyString).

(** [strconv.Itoa] / [strconv.FormatInt(_, 10)] *)
Definition Itoa (z : Z) : string :=
  DecimalString.NilZero.string_of_int (Z.to_int z).

Section Auth.

Variable bcrypt_GenerateFromPassword : string -> option string.
Variable jwt_SignedString : Claims.t -> option string.
Variable strings_ToLower : string -> string.
Variable strings_ToUpper : string -> string.
Variable cfg_JWT_ExpireHours : Z.

(** [func (j *JWTService) GenerateToken(user *model.User)] *)
Definition GenerateToken (user : User.t) : M (result TokenResponse.t) :=
  now <- time_Now ;;
  let expirationTime := now + cfg_JWT_ExpireHours * 3600 in
  issuedAt <- time_Now ;;
  notBefore <- time_Now ;;
  let claims :=
    Claims.mk (User.ID user) (User.Email user) (User.Username user)
              (User.Provider user) expirationTime issuedAt notBefore "linke-api" in
  match jwt_SignedString claims with
  | None => ret (Err (Wrapf "failed to generate token" (Errorf "signing failed")))
  | Some tokenString =>
      ret (Ok (TokenResponse.mk tokenString "Bearer"
                                (wrap_int (cfg_JWT_ExpireHours * 3600)) expirationTime))
  end.

(** [func (a *AuthService) usernameExists] *)
Definition usernameExists (username : string) : M bool :=
  c <- Count_User (fun u => (User.Username u =? username)%string) ;;
  match c with
  | Err _ =>
      logger LError "Error checking username existence" ;;
      ret true
  | Ok count => ret (count >? 0)
  end.

(** The [for attempts := 0; attempts < 10; attempts++] loop of
    [generateUniqueUsername], by the number of attempts left. *)
Fixpoint generateUniqueUsername_loop (attempts : nat) (baseUsername : string)
  : M string :=
  match attempts with
  | O =>
      timestamp <- time_Now ;;
      ret (baseUsername ++ Itoa timestamp)%string
  | S attempts' =>
      r <- rand_Intn 9999 ;;
      let randomNum := r + 1 in
      let candidate := (baseUsername ++ Itoa randomNum)%string in
      e <- usernameExists candidate ;;
      if e : bool then generateUniqueUsername_loop attempts' baseUsername
      else ret candidate
  end.

Definition generateUniqueUsername (baseUsername : string) : M string :=
  _seed <- time_Now ;;
  let baseUsername := strings_ToLower (remove_char "."%char baseUsername) in
  let baseUsername := remove_char "+"%char baseUsername in
  let baseUsername := remove_char "_"%char baseUsername in
  let baseUsername :=
    if (String.length baseUsername <? 3)%nat
    then (baseUsername ++ "user")%string else baseUsername in
  e <- usernameExists baseUsername ;;
  if e : bool then generateUniqueUsername_loop 10 baseUsername
  else ret baseUsername.

(** [Register] from the existing-user check to the insert of the
    account (lines 67-115): the account as stored, or the error that
    ends the registration before an account exists. *)
Definition Register_signup (req : RegisterRequest.t)
    (inviteCode : option InviteCode.t) : M (result User.t) :=
  existing <- GetUserByEmail (RegisterRequest.Email req) ;;
  match existing with
  | Ok _ =>
      ret (Err (Errorf ("user with email " ++ RegisterRequest.Email req
                        ++ " already exists")%string))
  | Err _ =>
      match bcrypt_GenerateFromPassword (RegisterRequest.Password req) with
      | None =>
          logger LError "Failed to hash password" ;;
          ret (Err (Errorf "failed to process password"))
      | Some hashedPassword =>
          let baseUsername := before_sep "@"%char (RegisterRequest.Email req) in
          username <- generateUniqueUsername baseUsername ;;
          let name :=
            match baseUsername with
            | EmptyString => baseUsername
            | String b rest => (strings_ToUpper (string_of_byte_rune b) ++ rest)%string
            end in
          let user :=
            User.mk 0 (RegisterRequest.Email req) username name "" hashedPassword
                    ProviderLocal UserStatusActive "" None None None "" None None None in
          let user :=
            match inviteCode with
            | Some ic =>
                User.with_invite (Some (InviteCode.ID ic)) (Some (InviteCode.Code ic)) user
            | None => user
            end in
          c <- CreateUser user ;;
          match c with
          | Err _ =>
              logger LError "Failed to create user during registration" ;;
              ret (Err (Errorf "failed to create user account"))
          | Ok user => ret (Ok user)
          end
      end
  end.

(** [Register] from the existing-user check on (lines 67-154);
    [inviteCode] is the validated code, [None] when the request has none. *)
Definition Register_account (req : RegisterRequest.t)
    (inviteCode : option InviteCode.t) : M (result AuthResponse.t) :=
  existing <- GetUserByEmail (RegisterRequest.Email req) ;;
  match existing with
  | Ok _ =>
      ret (Err (Errorf ("user with email " ++ RegisterRequest.Email req
                        ++ " already exists")%string))
  | Err _ =>
      match bcrypt_GenerateFromPassword (RegisterRequest.Password req) with
      | None =>
          logger LError "Failed to hash password" ;;
          ret (Err (Errorf "failed to process password"))
      | Some hashedPassword =>
          let baseUsername := before_sep "@"%char (RegisterRequest.Email req) in
          username <- generateUniqueUsername baseUsername ;;
          let name :=
            match baseUsername with
            | EmptyString => baseUsername
            | String b rest => (strings_ToUpper (string_of_byte_rune b) ++ rest)%string
            end in
          let user :=
            User.mk 0 (RegisterRequest.Email req) username name "" hashedPassword
                    ProviderLocal UserStatusActive "" None None None "" None None None in
          let user :=
            match inviteCode with
            | Some ic =>
                User.with_invite (Some (InviteCode.ID ic)) (Some (InviteCode.Code ic)) user
            | None => user
            end in
          c <- CreateUser user ;;
          match c with
          | Err _ =>
              logger LError "Failed to create user during registration" ;;
              ret (Err (Errorf "failed to create user account"))
          | Ok user =>
              (match inviteCode with
               | Some ic =>
                   u <- UseInviteCode (InviteCode.Code ic) (User.ID user)
                                      "unknown" "unknown" ;;
                   match u with
                   | Err _ => logger LError "Failed to use invite code during registration"
                   | Ok _ => ret tt
                   end
               | None => ret tt
               end) ;;
              t <- GenerateToken user ;;
              match t with
              | Err _ =>
                  logger LError "Failed to generate token for new user" ;;
                  ret (Err (Errorf "failed to generate authentication token"))
              | Ok token =>
                  logger LInfo "User registered successfully" ;;
                  ret (Ok (AuthResponse.mk user token))
              end
          end
      end
  end.

(** [func (a *AuthService) Register] *)
Definition Register (req : RegisterRequest.t) : M (result AuthResponse.t) :=
  if negb (RegisterRequest.InviteCode req =? "")%string then
    v <- ValidateInviteCode (RegisterRequest.InviteCode req) ;;
    match v with
    | Err err =>
        logger LWarn "Invalid invite code used during registration" ;;
        ret (Err (Errorf ("invalid invite code: " ++ Error err)%string))
    | Ok validatedCode => Register_account req (Some validatedCode)
    end
  else Register_account req None.

End Auth.

(** ** The ledger total

    The [total] that [GetUsagesByInviteCode] counts:
    [Model(&InviteCodeUsage{}).Where("invite_code_id = ?", id).Count]. *)

Definition usage_total (d : DB) (inviteCodeID : Z) : Z :=
  Z.of_nat (List.length
    (filter (fun u => (InviteCodeUsage.InviteCodeID u =? inviteCodeID)
                      && match InviteCodeUsage.DeletedAt u with
                         | Some _ => false
                         | None => true
                         end)
            (invite_code_usages d))).

(** ** Sequences of operations

    The operations that change the invite-code tables, as a request
    reaches them: creation through its handler, redemption, the status
    update and the soft delete of the service. *)

Inductive op : Type :=
| OpCreate (auth : option User.t) (body : option CreateInviteCodeRequest.t)
| OpRedeem (code : string) (userID : Z) (ipAddress userAgent : string)
| OpUpdateStatus (id : Z) (status : string)
| OpSoftDelete (id : Z).

Definition run_op (o : op) : M unit :=
  match o with
  | OpCreate auth body => CreateInviteCode_handler auth body ;; ret tt
  | OpRedeem code userID ip ua => UseInviteCode code userID ip ua ;; ret tt
  | OpUpdateStatus id status => UpdateInviteCodeStatus id status ;; ret tt
  | OpSoftDelete id => DeleteInviteCode id ;; ret tt
  end.

Fixpoint run_ops (os : list op) : M unit :=
  match os with
  | [] => ret tt
  | o :: rest => run_op o ;; run_ops rest
  end.

(** ** Overlapping redemptions

    [UseInviteCode] talks to the store twice: the validation reads
    through [s.db], outside the transaction and without a lock; the
    writes of [tx] reach the store at [Commit]. Two requests may
    therefore interleave between these two points. An [attempt] is a
    call of [UseInviteCode] at one of them. *)

Inductive attempt : Type :=
| Pending (code : string) (userID : Z) (ipAddress userAgent : string)
| Validated (tx : Tx) (inviteCode : InviteCode.t) (userID : Z)
            (ipAddress userAgent : string)
| Done (r : result InviteCode.t).

Definition step_attempt (a : attempt) : M attempt :=
  match a with
  | Pending code userID ip ua =>
      tx <- tx_Begin ;;
      v <- ValidateInviteCode code ;;
      match v with
      | Err e => tx_Rollback tx ;; ret (Done (Err e))
      | Ok inviteCode => ret (Validated tx inviteCode userID ip ua)
      end
  | Validated tx inviteCode userID ip ua =>
      r <- UseInviteCode_tx tx inviteCode userID ip ua ;;
      ret (Done r)
  | Done r => ret (Done r)
  end.

Fixpoint set_nth {A : Type} (i : nat) (x : A) (l : list A) : list A :=
  match l, i with
  | [], _ => []
  | _ :: r, O => x :: r
  | y :: r, S j => y :: set_nth j x r
  end.

(** A schedule names, step by step, the attempt that moves next. *)
Fixpoint run_schedule (sched : list nat) (attempts : list attempt)
  : M (list attempt) :=
  match sched with
  | [] => ret attempts
  | i :: rest =>
      match nth_error attempts i with
      | None => run_schedule rest attempts
      | Some a =>
          a' <- step_attempt a ;;
          run_schedule rest (set_nth i a' attempts)
      end
  end.

Definition succeeded (a : attempt) : bool :=
  match a with Done (Ok _) => true | _ => false end.

Definition failed_with (msg : string) (a : attempt) : bool :=
  match a with
  | Done (Err (Errorf m)) => (m =? msg)%string
  | _ => false
  end.

(** The row [GetInviteCodeByCode] finds: the live row with that code
    and the least primary key. *)
Definition stored_code (d : DB) (code : string) : option InviteCode.t :=
  min_by InviteCode.ID
         (filter (fun r => (InviteCode.Code r =? code)%string) (live_invite_codes d)).

(** A world whose environment never fails and has nothing to say. *)
Definition quiet (d : DB) : World := mkWorld d [] [] [] [] [].

(** ** Sample worlds

    A store holding one invite code, used to run the properties below
    on concrete requests. *)

Definition sample_code : string := "00000000000000000000000000000000".

Definition sample_row (maxUses usedCount : Z) (status : string) : InviteCode.t :=
  InviteCode.mk 1 sample_code 7 status maxUses usedCount "team invite" "" None.

Definition sample_db (row : InviteCode.t) : DB := mkDB [row] [] [] 1 0 0.

(** Scenario C: an active, unused code is disabled. *)
Definition scenario_C : World :=
  snd (UpdateInviteCodeStatus 1 "disabled" (quiet (sample_db (sample_row 3 0 "active")))).

(** The store accepts the read and the [Save], then fails the insert of
    the ledger entry. *)
Definition ledger_insert_fails : World :=
  mkWorld (sample_db (sample_row 3 0 "active")) [false; false; true] [] [] [] [].

(** The entry [Register] logs when the redemption fails after the
    account has been created. *)
Definition redemption_failure_entry : level * string :=
  (LError, "Failed to use invite code during registration").

Definition sample_request : RegisterRequest.t :=
  RegisterRequest.mk "ann@example.com" "secret1" sample_code.

Definition sample_bcrypt (password : string) : option string :=
  Some ("$2a$10$" ++ password)%string.

Definition sample_jwt (c : Claims.t) : option string := Some "header.claims.signature".

Definition sample_case (s : string) : string := s.

(** The store serves the registration up to the insert of the user and
    the validation inside [UseInviteCode], then fails the [Save]. *)
Definition save_fails_after_signup : World :=
  mkWorld (sample_db (sample_row 1 0 "active"))
          [false; false; false; false; false; true] [] [] [] [].

(** A single-use code that has been redeemed. *)
Definition exhausted_world : World := quiet (sample_db (sample_row 1 1 "used")).


(** No store call of the request fails. *)
Definition no_fault (w : World) : Prop := Forall (fun f => f = false) (faults w).

(** The creation contract of the specification: [maxUses] within
    [1, 100] and a description of at most 255 characters. *)
Definition spec_valid_create (req : CreateInviteCodeRequest.t) : bool :=
  (1 <=? CreateInviteCodeRequest.MaxUses req)
  && (CreateInviteCodeRequest.MaxUses req <=? 100)
  && (RuneCountInString (CreateInviteCodeRequest.Description req) <=? 255).

Definition block (b : Byte.byte) : list Byte.byte := repeat b 16.

(** The first draw repeats the stored code, the second is fresh. *)
Definition colliding_draw : World :=
  mkWorld (sample_db (sample_row 3 0 "active")) [] [block Byte.x00; block Byte.xab]
          [] [] [].


(** The only stored row is soft-deleted, and the draw repeats its code. *)
Definition deleted_row : InviteCode.t :=
  InviteCode.mk 1 sample_code 7 "active" 3 0 "team invite" "" (Some 100).

Definition deleted_collision : World :=
  mkWorld (mkDB [deleted_row] [] [] 1 0 0) [] [block Byte.x00] [] [] [].

(** An empty store and one fresh draw. *)
Definition fresh_draw : World :=
  mkWorld empty_db [] [block Byte.xab] [] [] [].

Definition sample_user : User.t :=
  User.mk 7 "owner@example.com" "owner" "Owner" "" "" ProviderLocal UserStatusActive
          UserRoleUser None None None "" None None None.

Definition team_invite : CreateInviteCodeRequest.t :=
  CreateInviteCodeRequest.mk 3 "team invite".

Definition too_many_uses : CreateInviteCodeRequest.t :=
  CreateInviteCodeRequest.mk 101 "team invite".

(** ** Invariants of the store

    A row is within bounds when [0 <= usedCount <= maxUses] (and
    [maxUses] is an [int]); the store is consistent when identifiers are
    unique and below the sequence, and the ledger total of each code is
    its counter. *)

Definition row_ok (r : InviteCode.t) : Prop :=
  0 <= InviteCode.UsedCount r <= InviteCode.MaxUses r /\ InviteCode.MaxUses r < 2 ^ 63.

Record store_inv (d : DB) : Prop := mk_store_inv {
  inv_ids : NoDup (map InviteCode.ID (invite_codes d));
  inv_seq : forall r, In r (invite_codes d) -> InviteCode.ID r <= invite_codes_seq d;
  inv_refs : forall u, In u (invite_code_usages d) ->
                       InviteCodeUsage.InviteCodeID u <= invite_codes_seq d;
  inv_counts : forall r, In r (invite_codes d) -> row_ok r;
  inv_ledger : forall r, In r (invite_codes d) ->
                         usage_total d (InviteCode.ID r) = InviteCode.UsedCount r
}.

Definition fresh_code : string := "abababababababababababababababab".

(** Scenario B: a code with [maxUses = 3] is created and redeemed twice. *)
Definition scenario_B : list op :=
  [OpCreate (Some sample_user) (Some team_invite);
   OpRedeem fresh_code 9 "unknown" "unknown";
   OpRedeem fresh_code 10 "unknown" "unknown"].

Definition after_scenario_B : World := snd (run_ops scenario_B fresh_draw).

(** The ledger's own insert, after the code has been created. *)
Definition after_stray_record : World :=
  snd (CreateUsageRecord 1 9 "unknown" "unknown"
         (snd (run_ops [OpCreate (Some sample_user) (Some team_invite)] fresh_draw))).

(** A single-use code and two requests redeeming it. *)
Definition single_use : World := quiet (sample_db (sample_row 1 0 "active")).

Definition two_attempts : list attempt :=
  [Pending sample_code 9 "unknown" "unknown";
   Pending sample_code 10 "unknown" "unknown"].

(** What an attempt that has validated its code still holds. *)
Definition attempt_ok (a : attempt) : Prop :=
  match a with
  | Validated tx ic _ _ _ =>
      tx = [] /\ row_ok ic /\ InviteCode.UsedCount ic < InviteCode.MaxUses ic
  | _ => True
  end.

(** The owner disables the sample code through the handler. *)
Definition after_disable : World :=
  snd (UpdateInviteCodeStatus_handler (Some sample_user) "1" (Some "disabled")
         (quiet (sample_db (sample_row 3 0 "active")))).

(** Redeeming the same code for a list of users, one request after the
    other. *)
Fixpoint redeem_all (code : string) (userIDs : list Z)
  : M (list (result InviteCode.t)) :=
  match userIDs with
  | [] => ret []
  | u :: rest =>
      r <- UseInviteCode code u "unknown" "unknown" ;;
      rs <- redeem_all code rest ;;
      ret (r :: rs)
  end.

Definition is_ok {A : Type} (r : result A) : bool :=
  match r with Ok _ => true | Err _ => false end.

Definition is_exhausted_error {A : Type} (r : result A) : bool :=
  match r with
  | Err (Errorf m) => (m =? "invite code has reached maximum uses")%string
  | _ => false
  end.
(** Identifiers are a primary key. *)
Definition ids_unique (d : DB) : Prop := NoDup (map InviteCode.ID (invite_codes d)).

(** The record [UseInviteCode] builds from the validated one: the counter
    bump and the status flip of lines 236-242. *)
Definition redeemed (ic : InviteCode.t) : InviteCode.t :=
  let ic1 := InviteCode.with_UsedCount (wrap_int (InviteCode.UsedCount ic + 1)) ic in
  if InviteCode.UsedCount ic1 >=? InviteCode.MaxUses ic1
  then InviteCode.with_Status InviteCodeStatusUsed ic1 else ic1.

(** A code with three uses, none taken. *)
Definition three_uses : World := quiet (sample_db (sample_row 3 0 "active")).

(** ** handler.InviteCodeHandler, continued *)

(** [handler.DeleteInviteCode] answers with a message only. *)
Inductive message_response : Type :=
| Refused (r : response)
| SuccessWithMessage (msg : string).

Definition DeleteInviteCode_handler (auth : option User.t) (idStr : string)
  : M message_response :=
  match auth with
  | None => ret (Refused (Unauthorized "Authentication required"))
  | Some user =>
      match ParseUint32 idStr with
      | None => ret (Refused (BadRequest "Invalid invite code ID"))
      | Some id =>
          g <- GetInviteCodeByID id ;;
          match g with
          | Err _ => ret (Refused (NotFound "Invite code not found"))
          | Ok inviteCode =>
              if negb (InviteCode.CreatedByID inviteCode =? User.ID user)
                 && negb (User.IsAdmin user)
              then ret (Refused (Forbidden "You can only delete your own invite codes"))
              else
                d <- DeleteInviteCode id ;;
                match d with
                | Err _ =>
                    logger LError "Failed to delete invite code" ;;
                    ret (Refused (InternalServerError "Failed to delete invite code"))
                | Ok _ => ret (SuccessWithMessage "Invite code deleted successfully")
                end
          end
      end
  end.

(** The predicate of the soft delete: the live rows with that key. *)
Definition delete_hits (id : Z) (r : InviteCode.t) : bool :=
  (InviteCode.ID r =? id) && negb (InviteCode.IsDeleted r).

(** Whether a handler answered with a refusal, and whether with a
    2xx response. *)
Definition refused (r : message_response) : bool :=
  match r with Refused _ => true | SuccessWithMessage _ => false end.

Definition is_success (r : response) : bool :=
  match r with Success _ => true | Created _ => true | _ => false end.

(** A registered user who created no code and is no administrator. *)
Definition stranger : User.t :=
  User.mk 8 "guest@example.com" "guest" "Guest" "" "" ProviderLocal UserStatusActive
          UserRoleUser None None None "" None None None.

(** The sample code after it has used up its single use. *)
Definition used_up : InviteCode.t := sample_row 1 1 "used".

(** ** Accounts after registration *)

(** Email addresses are a unique index of [users]. *)
Definition emails_unique (d : DB) : Prop := NoDup (map User.Email (users d)).

(** The live user [GetUserByEmail] finds when the store answers. *)
Definition stored_user (d : DB) (email : string) : option User.t :=
  min_by User.ID (filter (fun u => (User.Email u =? email)%string) (live_users d)).

(** Every token can be signed. *)
Definition signs (jwt_SignedString : Claims.t -> option string) : Prop :=
  forall c, jwt_SignedString c <> None.

Definition open_request : RegisterRequest.t :=
  RegisterRequest.mk "ann@example.com" "secret1" "".

(** ** model.User and service.UserService, continued *)

(** [func (u *User) IsLocalAccount() bool] *)
Definition IsLocalAccount (u : User.t) : bool :=
  (User.Provider u =? ProviderLocal)%string.

Definition with_Password (v : string) (u : User.t) : User.t :=
  User.mk (User.ID u) (User.Email u) (User.Username u) (User.Name u) (User.Avatar u)
          v (User.Provider u) (User.Status u) (User.Role u) (User.GoogleID u)
          (User.GitHubID u) (User.TelegramID u) (User.ProviderData u)
          (User.InviteCodeID u) (User.InviteCodeUsed u) (User.DeletedAt u).

(** [GetUserByID]: [db.First(&user, id)]. *)
Definition GetUserByID (id : Z) : M (result User.t) :=
  r <- First_User (fun u => User.ID u =? id) ;;
  match r with
  | Ok u => ret (Ok u)
  | Err ErrRecordNotFound => ret (Err (Errorf "user not found"))
  | Err e =>
      logger LError "Failed to get user by ID" ;;
      ret (Err (Wrapf "failed to get user" e))
  end.

(** [Save] on [users]: every column of the row with that primary key is
    written, and the record is inserted when there is none. *)
Definition save_user (u : User.t) (rows : list User.t) : list User.t :=
  if existsb (fun r => User.ID r =? User.ID u) rows
  then map (fun r => if User.ID r =? User.ID u then u else r) rows
  else rows ++ [u].

(** [db.Save(user)]: a record without primary key is created; otherwise
    the write is refused when another row holds one of its unique keys. *)
Definition Save_User (u : User.t) : M (result unit) :=
  if User.ID u =? 0 then
    c <- Create_User u ;;
    match c with
    | Ok _ => ret (Ok tt)
    | Err e => ret (Err e)
    end
  else
    f <- store_call ;;
    if f : bool then ret (Err ErrStore)
    else
      d <- get_db ;;
      if existsb (fun r => negb (User.ID r =? User.ID u)
                           && ((User.Email r =? User.Email u)%string
                               || same_key (User.GoogleID r) (User.GoogleID u)
                               || same_key (User.GitHubID r) (User.GitHubID u)
                               || same_key (User.TelegramID r) (User.TelegramID u)))
                 (users d)
      then ret (Err ErrDuplicatedKey)
      else
        put_db (mkDB (invite_codes d) (invite_code_usages d) (save_user u (users d))
                     (invite_codes_seq d) (invite_code_usages_seq d) (users_seq d)) ;;
        ret (Ok tt).

(** [func (s *UserService) UpdateUser] *)
Definition UpdateUser (user : User.t) : M (result unit) :=
  s <- Save_User user ;;
  match s with
  | Err e =>
      logger LError "Failed to update user" ;;
      ret (Err (Wrapf "failed to update user" e))
  | Ok _ =>
      logger LInfo "User updated successfully" ;;
      ret (Ok tt)
  end.

(** ** service.AuthService, continued

    [bcrypt.CompareHashAndPassword] is taken as given: [true] stands for
    a [nil] error. *)

Module LoginRequest.
Record t : Type := mk {
  Email : string;
  Password : string
}.
End LoginRequest.

Section Sessions.

Variable bcrypt_GenerateFromPassword : string -> option string.
Variable bcrypt_CompareHashAndPassword : string -> string -> bool.
Variable jwt_SignedString : Claims.t -> option string.
Variable cfg_JWT_ExpireHours : Z.

(** [func (a *AuthService) Login] *)
Definition Login (req : LoginRequest.t) : M (result AuthResponse.t) :=
  g <- GetUserByEmail (LoginRequest.Email req) ;;
  match g with
  | Err _ =>
      logger LWarn "Login attempt with non-existent email" ;;
      ret (Err (Errorf "invalid email or password"))
  | Ok user =>
      if negb (IsLocalAccount user) then
        logger LWarn "Login attempt for OAuth user with local credentials" ;;
        ret (Err (Errorf ("this account uses " ++ User.Provider user
                          ++ " authentication. Please use the appropriate login method")
                         %string))
      else if negb (User.IsActive user) then
        logger LWarn "Login attempt for inactive user" ;;
        ret (Err (Errorf ("account is " ++ User.Status user
                          ++ ". Please contact support")%string))
      else if negb (bcrypt_CompareHashAndPassword (User.Password user)
                                                  (LoginRequest.Password req)) then
        logger LWarn "Failed login attempt with incorrect password" ;;
        ret (Err (Errorf "invalid email or password"))
      else
        t <- GenerateToken jwt_SignedString cfg_JWT_ExpireHours user ;;
        match t with
        | Err _ =>
            logger LError "Failed to generate token during login" ;;
            ret (Err (Errorf "failed to generate authentication token"))
        | Ok token =>
            logger LInfo "User logged in successfully" ;;
            ret (Ok (AuthResponse.mk user token))
        end
  end.

(** [func (a *AuthService) ChangePassword] *)
Definition ChangePassword (userID : Z) (oldPassword newPassword : string)
  : M (result unit) :=
  g <- GetUserByID userID ;;
  match g with
  | Err _ => ret (Err (Errorf "user not found"))
  | Ok user =>
      if negb (IsLocalAccount user) then
        ret (Err (Errorf "password change is only available for local accounts"))
      else if negb (bcrypt_CompareHashAndPassword (User.Password user) oldPassword) then
        logger LWarn "Password change attempt with incorrect old password" ;;
        ret (Err (Errorf "current password is incorrect"))
      else
        match bcrypt_GenerateFromPassword newPassword with
        | None =>
            logger LError "Failed to hash new password" ;;
            ret (Err (Errorf "failed to process new password"))
        | Some hashedPassword =>
            let user := with_Password hashedPassword user in
            s <- UpdateUser user ;;
            match s with
            | Err _ =>
                logger LError "Failed to update password" ;;
                ret (Err (Errorf "failed to update password"))
            | Ok _ =>
                logger LInfo "Password changed successfully" ;;
                ret (Ok tt)
            end
        end
  end.

End Sessions.

(** [bcrypt] accepts the password a hash was made from. *)
Definition bcrypt_accepts_own_hash
    (bcrypt_GenerateFromPassword : string -> option string)
    (bcrypt_CompareHashAndPassword : string -> string -> bool) : Prop :=
  forall password h,
    bcrypt_GenerateFromPassword password = Some h ->
    bcrypt_CompareHashAndPassword h password = true.

(** Identifiers of users are a primary key. *)
Definition user_ids_unique (d : DB) : Prop := NoDup (map User.ID (users d)).

Definition sample_compare (h password : string) : bool :=
  (h =? "$2a$10$" ++ password)%string.

(** The sample registration on a store that holds the sample code with
    three uses left, and the store it leaves. *)
Definition signed_up : World :=
  quiet (db (snd (Register sample_bcrypt sample_jwt sample_case sample_case 24
                           sample_request three_uses))).

Definition unknown_login : LoginRequest.t := LoginRequest.mk "nobody@example.com" "guess".

(** ** Statistics *)

(** [db.Model(&model.InviteCode{}).Where(p).Count(&n)] *)
Definition Count_InviteCode (p : InviteCode.t -> bool) : M (result Z) :=
  f <- store_call ;;
  if f : bool then ret (Err ErrStore)
  else
    d <- get_db ;;
    ret (Ok (Z.of_nat (List.length (filter p (live_invite_codes d))))).

(** [Select("COALESCE(SUM(used_count), 0)").Scan(&totalUsage)]: the
    exact sum, which must fit the [int64] it is scanned into. *)
Definition Sum_UsedCount : M (result Z) :=
  f <- store_call ;;
  if f : bool then ret (Err ErrStore)
  else
    d <- get_db ;;
    let total := fold_right Z.add 0 (map InviteCode.UsedCount (live_invite_codes d)) in
    if (- 2 ^ 63 <=? total) && (total <? 2 ^ 63) then ret (Ok total)
    else ret (Err ErrStore).

(** The five entries of the map [GetInviteCodeStats] returns. *)
Module InviteCodeStats.
Record t : Type := mk {
  total_codes : Z;
  active_codes : Z;
  used_codes : Z;
  disabled_codes : Z;
  total_usage : Z
}.
End InviteCodeStats.

(** [func (s *InviteCodeService) GetInviteCodeStats] *)
Definition GetInviteCodeStats : M (result InviteCodeStats.t) :=
  c <- Count_InviteCode (fun _ => true) ;;
  match c with
  | Err e => ret (Err (Wrapf "failed to count total invite codes" e))
  | Ok totalCodes =>
      c <- Count_InviteCode
             (fun r => (InviteCode.Status r =? InviteCodeStatusActive)%string) ;;
      match c with
      | Err e => ret (Err (Wrapf "failed to count active invite codes" e))
      | Ok activeCodes =>
          c <- Count_InviteCode
                 (fun r => (InviteCode.Status r =? InviteCodeStatusUsed)%string) ;;
          match c with
          | Err e => ret (Err (Wrapf "failed to count used invite codes" e))
          | Ok usedCodes =>
              c <- Count_InviteCode
                     (fun r => (InviteCode.Status r =? InviteCodeStatusDisabled)%string) ;;
              match c with
              | Err e => ret (Err (Wrapf "failed to count disabled invite codes" e))
              | Ok disabledCodes =>
                  c <- Sum_UsedCount ;;
                  match c with
                  | Err e => ret (Err (Wrapf "failed to count total usage" e))
                  | Ok totalUsage =>
                      ret (Ok (InviteCodeStats.mk totalCodes activeCodes usedCodes
                                                  disabledCodes totalUsage))
                  end
              end
          end
      end
  end.

(** The live ledger entries of the codes that are not deleted. *)
Definition ledger_of_live_codes (d : DB) : list InviteCodeUsage.t :=
  filter (fun u => match InviteCodeUsage.DeletedAt u with
                   | Some _ => false
                   | None => true
                   end
                   && existsb (fun r => InviteCode.ID r =? InviteCodeUsage.InviteCodeID u)
                              (live_invite_codes d))
         (invite_code_usages d).

Definition known_status (r : InviteCode.t) : Prop :=
  InviteCode.Status r = InviteCodeStatusActive \/
  InviteCode.Status r = InviteCodeStatusUsed \/
  InviteCode.Status r = InviteCodeStatusDisabled.

(** ** Reading a code back

    The inverse of [hexchar] on the alphabet, and of [EncodeToString]. *)
Definition unhex (c : ascii) : N :=
  let n := N_of_ascii c in
  if (n <? 58)%N then (n - 48)%N else (n - 87)%N.

Fixpoint read_back (s : string) : list Byte.byte :=
  match s with
  | String a (String b rest) =>
      match Byte.of_N (16 * unhex a + unhex b) with
      | Some v => v :: read_back rest
      | None => []
      end
  | _ => []
  end.

(** ** The public validation endpoint *)

(** [model.InviteCodeResponse], without the time stamps and the
    relations (absent from a public response). *)
Module InviteCodeResponse.
Record t : Type := mk {
  ID : Z;
  Code : string;
  CreatedByID : Z;
  Status : string;
  MaxUses : Z;
  UsedCount : Z;
  Description : string
}.
End InviteCodeResponse.

(** [func (ic *InviteCode) ToPublicResponse()]: the fields that are not
    set keep their zero value. *)
Definition ToPublicResponse (ic : InviteCode.t) : InviteCodeResponse.t :=
  InviteCodeResponse.mk 0 (InviteCode.Code ic) 0 (InviteCode.Status ic)
                        (InviteCode.MaxUses ic) (InviteCode.UsedCount ic)
                        (InviteCode.Description ic).

Inductive public_response : Type :=
| PublicRefused (r : response)
| PublicSuccess (data : InviteCodeResponse.t).

(** [func (h *InviteCodeHandler) ValidateInviteCode] *)
Definition ValidateInviteCode_handler (code : string) : M public_response :=
  if (code =? "")%string then ret (PublicRefused (BadRequest "Invite code is required"))
  else
    v <- ValidateInviteCode code ;;
    match v with
    | Err err =>
        logger LWarn "Invite code validation failed" ;;
        ret (PublicRefused (NotFound (Error err)))
    | Ok inviteCode => ret (PublicSuccess (ToPublicResponse inviteCode))
    end.

(** Two rows that differ at most in their creator and their metadata. *)
Definition same_public (a b : InviteCode.t) : Prop :=
  InviteCode.ID a = InviteCode.ID b /\
  InviteCode.Code a = InviteCode.Code b /\
  InviteCode.Status a = InviteCode.Status b /\
  InviteCode.MaxUses a = InviteCode.MaxUses b /\
  InviteCode.UsedCount a = InviteCode.UsedCount b /\
  InviteCode.Description a = InviteCode.Description b /\
  InviteCode.DeletedAt a = InviteCode.DeletedAt b.

(** ** Pagination of the list endpoints *)

(** The digit loop of [strconv.ParseUint(s, 10, 64)]: it stops at the
    first byte that is no digit, or at the first digit that takes the
    value beyond [uint64]. *)
Inductive parsed : Type :=
| SyntaxError
| RangeError
| Value (n : Z).

Fixpoint ParseUint_loop (s : string) (n : Z) : parsed :=
  match s with
  | EmptyString => Value n
  | String c r =>
      match digit_of c with
      | None => SyntaxError
      | Some d =>
          if n >=? (2 ^ 64 - 1) / 10 + 1 then RangeError
          else
            let n1 := n * 10 + d in
            if n1 >? 2 ^ 64 - 1 then RangeError else ParseUint_loop r n1
      end
  end.

(** [strconv.Atoi]: the value and whether [err] is [nil]. A syntax
    error gives 0, a value out of range the nearest [int]. *)
Definition Atoi (s : string) : Z * bool :=
  let (neg, body) :=
    match s with
    | String "-"%char r => (true, r)
    | String "+"%char r => (false, r)
    | _ => (false, s)
    end in
  match body with
  | EmptyString => (0, false)
  | _ =>
      match ParseUint_loop body 0 with
      | SyntaxError => (0, false)
      | RangeError => (if neg : bool then - 2 ^ 63 else 2 ^ 63 - 1, false)
      | Value un =>
          if neg then (if un >? 2 ^ 63 then (- 2 ^ 63, false) else (- un, true))
          else (if un >=? 2 ^ 63 then (2 ^ 63 - 1, false) else (un, true))
      end
  end.

(** [c.DefaultQuery(key, d)] *)
Definition DefaultQuery (q : option string) (d : string) : string :=
  match q with
  | Some v => v
  | None => d
  end.

(** The page, limit and offset the list handlers compute from the query
    (the same lines in [ListAllInviteCodes], [GetMyInviteCodes] and
    [GetInviteCodeUsages]). *)
Definition page_window (pageQuery limitQuery : option string) : Z * Z * Z :=
  let page := fst (Atoi (DefaultQuery pageQuery "1")) in
  let limit := fst (Atoi (DefaultQuery limitQuery "10")) in
  let page := if page <? 1 then 1 else page in
  let limit := if (limit <? 1) || (limit >? 100) then 10 else limit in
  let offset := wrap_int ((page - 1) * limit) in
  (page, limit, offset).

(** ** Columns of a row

    The time stamps [created_at] and [updated_at] are outside the
    embedding; what a write leaves in place is therefore stated column
    by column. *)

(** Every column of [invite_codes] but [status]. *)
Definition same_but_status (a b : InviteCode.t) : Prop :=
  InviteCode.ID a = InviteCode.ID b /\
  InviteCode.Code a = InviteCode.Code b /\
  InviteCode.CreatedByID a = InviteCode.CreatedByID b /\
  InviteCode.MaxUses a = InviteCode.MaxUses b /\
  InviteCode.UsedCount a = InviteCode.UsedCount b /\
  InviteCode.Description a = InviteCode.Description b /\
  InviteCode.Metadata a = InviteCode.Metadata b /\
  InviteCode.DeletedAt a = InviteCode.DeletedAt b.

Definition same_columns (a b : InviteCode.t) : Prop :=
  same_but_status a b /\ InviteCode.Status a = InviteCode.Status b.

(** Every column of [users] but [password]. *)
Definition same_but_password (a b : User.t) : Prop :=
  User.ID a = User.ID b /\
  User.Email a = User.Email b /\
  User.Username a = User.Username b /\
  User.Name a = User.Name b /\
  User.Avatar a = User.Avatar b /\
  User.Provider a = User.Provider b /\
  User.Status a = User.Status b /\
  User.Role a = User.Role b /\
  User.GoogleID a = User.GoogleID b /\
  User.GitHubID a = User.GitHubID b /\
  User.TelegramID a = User.TelegramID b /\
  User.ProviderData a = User.ProviderData b /\
  User.InviteCodeID a = User.InviteCodeID b /\
  User.InviteCodeUsed a = User.InviteCodeUsed b /\
  User.DeletedAt a = User.DeletedAt b.

(** ** Taken user names

    What makes [usernameExists] answer [true]: the count fails at the
    store, or a live account carries the name. *)
Definition counts_as_taken (d : DB) (failed : bool) (name : string) : Prop :=
  failed = true \/ exists x, In x (live_users d) /\ User.Username x = name.

(** ** Proof support *)

Ltac unfold_m :=
  unfold tx_Begin, tx_Save, tx_Create, tx_Rollback, tx_Commit, store_call, get_db,
         put_db, logger, time_Now, rand_Read, rand_Intn, bind, ret in *.

(** * Properties *)

(** ** Lookups *)

Lemma min_by_In {A : Type} (key : A -> Z) (l : list A) (x : A) :
  min_by key l = Some x -> In x l.
Proof.
  revert x; induction l as [|a l IH]; simpl; intros x H; [discriminate|].
  destruct (min_by key l) as [y|] eqn:E.
  - destruct (key a <=? key y); inversion H; subst; auto.
  - inversion H; auto.
Qed.

Lemma min_by_None {A : Type} (key : A -> Z) (l : list A) :
  min_by key l = None -> l = [].
Proof.
  destruct l as [|a l]; simpl; auto.
  destruct (min_by key l) as [y|]; [destruct (key a <=? key y)|]; discriminate.
Qed.

Lemma stored_code_Some (d : DB) (code : string) (ic : InviteCode.t) :
  stored_code d code = Some ic ->
  In ic (invite_codes d) /\ InviteCode.Code ic = code /\ InviteCode.DeletedAt ic = None.
Proof.
  unfold stored_code, live_invite_codes; intros H.
  apply min_by_In in H. apply filter_In in H as [H Hc].
  apply filter_In in H as [H Hd].
  apply String.eqb_eq in Hc.
  unfold InviteCode.IsDeleted in Hd.
  destruct (InviteCode.DeletedAt ic); [discriminate|]. auto.
Qed.

Lemma stored_code_None (d : DB) (code : string) :
  stored_code d code = None <->
  (forall r, In r (invite_codes d) -> InviteCode.Code r = code ->
             InviteCode.DeletedAt r <> None).
Proof.
  unfold stored_code, live_invite_codes; split.
  - intros H r Hin Hc Hd. apply min_by_None in H.
    assert (Hr : In r (filter (fun r => (InviteCode.Code r =? code)%string)
                         (filter (fun r => negb (InviteCode.IsDeleted r)) (invite_codes d)))).
    { apply filter_In; split; [apply filter_In; split; auto|].
      - unfold InviteCode.IsDeleted; rewrite Hd; reflexivity.
      - apply String.eqb_eq; assumption. }
    rewrite H in Hr; destruct Hr.
  - intros H.
    destruct (min_by _ _) as [x|] eqn:E; [|reflexivity].
    exfalso. apply min_by_In in E. apply filter_In in E as [E Hc].
    apply filter_In in E as [E Hd]. apply String.eqb_eq in Hc.
    apply (H x E Hc). unfold InviteCode.IsDeleted in Hd.
    destruct (InviteCode.DeletedAt x); [discriminate|reflexivity].
Qed.

(** What [ValidateInviteCode] answers when the store does not fail. *)
Lemma ValidateInviteCode_quiet (w : World) (code : string) :
  faults w = [] ->
  ValidateInviteCode code w =
  (match stored_code (db w) code with
   | None => Err (Errorf "invite code not found")
   | Some ic =>
       if negb (InviteCode.CanBeUsed ic) then
         if InviteCode.IsExhausted ic
         then Err (Errorf "invite code has reached maximum uses")
         else Err (Errorf "invite code is not active")
       else Ok ic
   end, w).
Proof.
  intros Hf. unfold ValidateInviteCode, GetInviteCodeByCode, First_InviteCode.
  unfold_m. rewrite Hf. fold (stored_code (db w) code).
  destruct (stored_code (db w) code) as [ic|]; [|reflexivity].
  destruct (negb (InviteCode.CanBeUsed ic)); [|reflexivity].
  destruct (InviteCode.IsExhausted ic); reflexivity.
Qed.

(** ** Redemption *)

(** [ValidateInviteCode] only reads. *)
Lemma ValidateInviteCode_spec (code : string) (w : World) :
  let (r, w') := ValidateInviteCode code w in
  db w' = db w /\ faults w' = tl (faults w) /\ entropy w' = entropy w /\
  prng w' = prng w /\ clock w' = clock w /\ log w' = log w /\
  match r with
  | Ok ic => stored_code (db w) code = Some ic /\ InviteCode.CanBeUsed ic = true
  | Err _ => True
  end.
Proof.
  unfold ValidateInviteCode, GetInviteCodeByCode, First_InviteCode, stored_code.
  unfold_m. destruct w as [d fs en pr cl lg]; simpl.
  destruct fs as [|[|] fs]; simpl; auto 10;
    (destruct (min_by _ _) as [ic|]; simpl; auto 10;
     destruct (InviteCode.CanBeUsed ic) eqn:E; simpl; auto 10;
     destruct (InviteCode.IsExhausted ic); simpl; auto 10).
Qed.

Lemma wrap_int_id (z : Z) : int_range z -> wrap_int z = z.
Proof.
  unfold int_range, wrap_int; intros H.
  rewrite Z.mod_small; lia.
Qed.

Lemma CanBeUsed_true (ic : InviteCode.t) :
  InviteCode.CanBeUsed ic = true ->
  InviteCode.Status ic = InviteCodeStatusActive /\
  InviteCode.UsedCount ic < InviteCode.MaxUses ic /\
  InviteCode.DeletedAt ic = None.
Proof.
  unfold InviteCode.CanBeUsed, InviteCode.IsActive, InviteCode.IsDeleted.
  destruct (InviteCode.Status ic =? InviteCodeStatusActive)%string eqn:Es; simpl;
    [|discriminate].
  destruct (InviteCode.UsedCount ic >=? InviteCode.MaxUses ic) eqn:Eu; simpl;
    [discriminate|].
  destruct (InviteCode.DeletedAt ic); simpl; [discriminate|].
  intros _. apply String.eqb_eq in Es. repeat split; auto. lia.
Qed.

(** The transaction either commits both writes or none. *)
Lemma UseInviteCode_tx_spec (ic : InviteCode.t) (userID : Z) (ip ua : string) (w : World) :
  let ic1 := InviteCode.with_UsedCount (wrap_int (InviteCode.UsedCount ic + 1)) ic in
  let ic2 := if InviteCode.UsedCount ic1 >=? InviteCode.MaxUses ic1
             then InviteCode.with_Status InviteCodeStatusUsed ic1 else ic1 in
  let (r, w') := UseInviteCode_tx [] ic userID ip ua w in
  match r with
  | Ok ic' =>
      ic' = ic2 /\
      exists usedAt,
        db w' = insert_usage (InviteCodeUsage.mk 0 (InviteCode.ID ic) userID usedAt ip ua None)
                  (with_invite_codes (save_row ic2 (invite_codes (db w))) (db w))
  | Err _ => db w' = db w
  end.
Proof.
  unfold UseInviteCode_tx. unfold_m.
  destruct w as [d fs en pr cl lg]; simpl.
  destruct fs as [|[|] [|[|] [|[|] fs]]]; simpl; auto;
    destruct cl as [|t cl]; simpl; auto; split; auto; eexists;
    match goal with |- context [InviteCode.ID (if ?c then _ else _)] => destruct c end;
    reflexivity.
Qed.

(** A failing [Save], [Create] or [Commit] fails the redemption. *)
Lemma UseInviteCode_tx_fault (ic : InviteCode.t) (userID : Z) (ip ua : string)
    (w : World) :
  nth 0 (faults w) false || nth 1 (faults w) false || nth 2 (faults w) false = true ->
  exists e, fst (UseInviteCode_tx [] ic userID ip ua w) = Err e.
Proof.
  unfold UseInviteCode_tx. unfold_m.
  destruct w as [d fs en pr cl lg]; simpl.
  destruct fs as [|[|] [|[|] [|[|] fs]]]; simpl; try discriminate; intros _;
    destruct cl as [|t cl]; simpl; eauto.
Qed.

(** What a redemption does to the store. *)
Lemma UseInviteCode_spec (code : string) (userID : Z) (ip ua : string) (w : World) :
  let (r, w') := UseInviteCode code userID ip ua w in
  match r with
  | Ok ic' =>
      exists ic usedAt,
        stored_code (db w) code = Some ic /\
        InviteCode.CanBeUsed ic = true /\
        ic' = (let ic1 := InviteCode.with_UsedCount
                            (wrap_int (InviteCode.UsedCount ic + 1)) ic in
               if InviteCode.UsedCount ic1 >=? InviteCode.MaxUses ic1
               then InviteCode.with_Status InviteCodeStatusUsed ic1 else ic1) /\
        db w' = insert_usage
                  (InviteCodeUsage.mk 0 (InviteCode.ID ic) userID usedAt ip ua None)
                  (with_invite_codes (save_row ic' (invite_codes (db w))) (db w))
  | Err _ => db w' = db w
  end.
Proof.
  unfold UseInviteCode. unfold bind at 1. unfold tx_Begin, ret at 1.
  unfold bind at 1.
  pose proof (ValidateInviteCode_spec code w) as Hv.
  destruct (ValidateInviteCode code w) as [[ic|e] w1].
  - destruct Hv as (Hdb & _ & _ & _ & _ & _ & Hs & Hc).
    pose proof (UseInviteCode_tx_spec ic userID ip ua w1) as Ht.
    cbv zeta in Ht.
    destruct (UseInviteCode_tx [] ic userID ip ua w1) as [[ic'|e] w2].
    + destruct Ht as [Hic [usedAt Hd]]. exists ic, usedAt.
      rewrite Hdb in Hd. subst ic'. auto.
    + congruence.
  - unfold tx_Rollback, bind, ret. destruct Hv as [Hdb _]. exact Hdb.
Qed.

(** A redemption whose [Save], ledger insert or commit fails returns an
    error. *)
Lemma UseInviteCode_fault (code : string) (userID : Z) (ip ua : string) (w : World) :
  nth 1 (faults w) false || nth 2 (faults w) false || nth 3 (faults w) false = true ->
  exists e, fst (UseInviteCode code userID ip ua w) = Err e.
Proof.
  intros Hn. unfold UseInviteCode. unfold bind at 1. unfold tx_Begin, ret at 1.
  unfold bind at 1.
  pose proof (ValidateInviteCode_spec code w) as Hv.
  destruct (ValidateInviteCode code w) as [[ic|e] w1].
  - destruct Hv as (_ & Hfl & _).
    apply UseInviteCode_tx_fault. rewrite Hfl.
    destruct (faults w); simpl in *; [discriminate|exact Hn].
  - unfold tx_Rollback, bind, ret. simpl. eauto.
Qed.

(** C2: a redemption either bumps the counter (flipping the status to
    [used] at the cap) and appends exactly one ledger entry for the code,
    or returns an error and leaves the whole store as it was; and it does
    return an error as soon as the [Save], the ledger insert or the
    commit fails (store calls 1, 2 and 3 of the request). *)
Theorem C2_redemption_all_or_nothing :
  forall (code : string) (userID : Z) (ip ua : string) (w : World),
    let (r, w') := UseInviteCode code userID ip ua w in
    match r with
    | Ok ic' =>
        exists ic usedAt,
          stored_code (db w) code = Some ic /\
          InviteCode.UsedCount ic' = wrap_int (InviteCode.UsedCount ic + 1) /\
          (int_range (InviteCode.UsedCount ic) -> int_range (InviteCode.MaxUses ic) ->
           InviteCode.UsedCount ic' = InviteCode.UsedCount ic + 1) /\
          InviteCode.Status ic' =
            (if InviteCode.UsedCount ic' >=? InviteCode.MaxUses ic
             then InviteCodeStatusUsed else InviteCode.Status ic) /\
          invite_codes (db w') = save_row ic' (invite_codes (db w)) /\
          invite_code_usages (db w') =
            invite_code_usages (db w) ++
            [InviteCodeUsage.mk (invite_code_usages_seq (db w) + 1)
                                (InviteCode.ID ic) userID usedAt ip ua None] /\
          users (db w') = users (db w)
    | Err _ => db w' = db w
    end /\
    (nth 1 (faults w) false || nth 2 (faults w) false || nth 3 (faults w) false = true ->
     exists e, r = Err e).
Proof.
  intros code userID ip ua w.
  pose proof (UseInviteCode_spec code userID ip ua w) as Hs.
  pose proof (UseInviteCode_fault code userID ip ua w) as Hf.
  destruct (UseInviteCode code userID ip ua w) as [[ic'|e] w']; simpl in Hf;
    (split; [|exact Hf]); [|exact Hs].
  destruct Hs as (ic & usedAt & Hst & Hc & Hic & Hdb).
  exists ic, usedAt. rewrite Hdb. subst ic'.
  apply CanBeUsed_true in Hc as (_ & Hlt & _).
  split; [exact Hst|].
  destruct (wrap_int (InviteCode.UsedCount ic + 1) >=? InviteCode.MaxUses ic) eqn:E;
    simpl; rewrite ?E; simpl.
  all: split; [reflexivity|];
    (split; [intros Hu Hm; apply wrap_int_id; unfold int_range in *; lia|]);
    rewrite ?E; repeat (split; [reflexivity|]); reflexivity.
Qed.

Lemma C2_witness :
  nth 1 (faults ledger_insert_fails) false
  || nth 2 (faults ledger_insert_fails) false
  || nth 3 (faults ledger_insert_fails) false = true /\
  (exists e,
     fst (UseInviteCode sample_code 9 "unknown" "unknown" ledger_insert_fails) = Err e) /\
  db (snd (UseInviteCode sample_code 9 "unknown" "unknown" ledger_insert_fails))
  = db ledger_insert_fails.
Proof.
  pose proof (C2_redemption_all_or_nothing sample_code 9 "unknown" "unknown"
                ledger_insert_fails) as H.
  destruct (UseInviteCode sample_code 9 "unknown" "unknown" ledger_insert_fails)
    as [r w'] eqn:E.
  destruct H as [Ha Hb].
  split; [reflexivity|].
  destruct (Hb eq_refl) as [e He]. subst r.
  split; [exists e; reflexivity | exact Ha].
Defined.

(** C4: when the store itself does not fail, a redemption that does not
    succeed changes nothing and answers "invite code not found" when no
    live row carries the code (absent or soft-deleted,
    [stored_code_None]), "invite code has reached maximum uses" when
    [usedCount >= maxUses] whatever the status, and otherwise "invite
    code is not active", the one error the service has for a disabled or
    otherwise inactive code. *)
Theorem C4_redemption_error_selection :
  forall (code : string) (userID : Z) (ip ua : string) (w w' : World) (e : error),
    faults w = [] ->
    UseInviteCode code userID ip ua w = (Err e, w') ->
    db w' = db w /\
    match stored_code (db w) code with
    | None => e = Errorf "invite code not found"
    | Some ic =>
        if InviteCode.UsedCount ic >=? InviteCode.MaxUses ic
        then e = Errorf "invite code has reached maximum uses"
        else e = Errorf "invite code is not active" /\
             InviteCode.Status ic <> InviteCodeStatusActive
    end.
Proof.
  intros code userID ip ua w w' e Hf H.
  unfold UseInviteCode in H. unfold bind at 1 in H. unfold tx_Begin, ret at 1 in H.
  unfold bind at 1 in H. rewrite (ValidateInviteCode_quiet w code Hf) in H.
  destruct (stored_code (db w) code) as [ic|] eqn:Es.
  - apply stored_code_Some in Es as (_ & _ & Hd).
    unfold InviteCode.CanBeUsed, InviteCode.IsActive, InviteCode.IsExhausted,
      InviteCode.IsDeleted in H. rewrite Hd in H.
    destruct (InviteCode.UsedCount ic >=? InviteCode.MaxUses ic) eqn:Eu.
    + destruct (negb (InviteCode.Status ic =? InviteCodeStatusActive)%string);
        simpl in H; unfold tx_Rollback, bind, ret in H; inversion H; auto.
    + destruct (InviteCode.Status ic =? InviteCodeStatusActive)%string eqn:Est;
        simpl in H.
      * exfalso. clear Hd Eu Est. destruct w as [d fs en pr cl lg]. simpl in Hf; subst fs.
        unfold UseInviteCode_tx in H. unfold_m. simpl in H.
        destruct cl; simpl in H; discriminate.
      * unfold tx_Rollback, bind, ret in H; inversion H; subst.
        apply String.eqb_neq in Est. auto.
  - unfold tx_Rollback, bind, ret in H; inversion H; auto.
Qed.

(** Scenario C: redeeming a disabled, unused code fails with the
    not-active error and leaves [usedCount] at 0. *)
Lemma C4_witness :
  faults scenario_C = [] /\
  UseInviteCode sample_code 9 "unknown" "unknown" scenario_C
  = (Err (Errorf "invite code is not active"), scenario_C) /\
  map InviteCode.UsedCount (invite_codes (db scenario_C)) = [0].
Proof.
  assert (Hf : faults scenario_C = []) by reflexivity.
  assert (Hr : UseInviteCode sample_code 9 "unknown" "unknown" scenario_C
               = (Err (Errorf "invite code is not active"), scenario_C))
    by (vm_compute; reflexivity).
  pose proof (C4_redemption_error_selection sample_code 9 "unknown" "unknown"
                scenario_C scenario_C _ Hf Hr) as [_ Hsel].
  split; [exact Hf | split; [exact Hr | reflexivity]].
Defined.

(** ** Registration *)

Lemma GetUserByEmail_db (email : string) (w : World) :
  db (snd (GetUserByEmail email w)) = db w.
Proof.
  unfold GetUserByEmail, First_User. unfold_m.
  destruct w as [d fs en pr cl lg]; simpl.
  destruct fs as [|[|] fs]; simpl; auto;
    destruct (min_by _ _); reflexivity.
Qed.

Lemma CreateUser_spec (user : User.t) (w : World) :
  let (r, w') := CreateUser user w in
  match r with
  | Ok row =>
      users (db w') = users (db w) ++ [row] /\
      invite_codes (db w') = invite_codes (db w) /\
      invite_code_usages (db w') = invite_code_usages (db w) /\
      invite_codes_seq (db w') = invite_codes_seq (db w) /\
      invite_code_usages_seq (db w') = invite_code_usages_seq (db w) /\
      User.InviteCodeID row = User.InviteCodeID user /\
      User.InviteCodeUsed row = User.InviteCodeUsed user /\
      User.Email row = User.Email user
  | Err _ => db w' = db w
  end.
Proof.
  unfold CreateUser, Create_User. unfold_m.
  destruct w as [d fs en pr cl lg]; simpl.
  destruct fs as [|[|] fs]; simpl; auto;
    destruct (existsb _ _); simpl; auto;
    destruct (User.Role user =? "")%string; simpl; auto 10.
Qed.

Section AuthProperties.

Variable bcrypt_GenerateFromPassword : string -> option string.
Variable jwt_SignedString : Claims.t -> option string.
Variable strings_ToLower : string -> string.
Variable strings_ToUpper : string -> string.
Variable cfg_JWT_ExpireHours : Z.

Lemma usernameExists_db (username : string) (w : World) :
  db (snd (usernameExists username w)) = db w.
Proof.
  unfold usernameExists, Count_User. unfold_m.
  destruct w as [d fs en pr cl lg]; simpl.
  destruct fs as [|[|] fs]; reflexivity.
Qed.

Lemma generateUniqueUsername_loop_db (n : nat) (base : string) (w : World) :
  db (snd (generateUniqueUsername_loop n base w)) = db w.
Proof.
  revert w; induction n as [|n IH]; intros w; simpl.
  - unfold_m. destruct (clock w); reflexivity.
  - unfold bind at 1.
    assert (Hr : db (snd (rand_Intn 9999 w)) = db w)
      by (unfold rand_Intn; destruct (prng w); reflexivity).
    destruct (rand_Intn 9999 w) as [r w1]; simpl in Hr.
    unfold bind.
    pose proof (usernameExists_db (base ++ Itoa (r + 1)) w1) as Hu.
    destruct (usernameExists (base ++ Itoa (r + 1)) w1) as [[|] w2]; simpl in Hu.
    + rewrite IH. congruence.
    + unfold ret; simpl. congruence.
Qed.

Lemma generateUniqueUsername_db (base : string) (w : World) :
  db (snd (generateUniqueUsername strings_ToLower base w)) = db w.
Proof.
  unfold generateUniqueUsername. unfold bind at 1.
  assert (Hr : db (snd (time_Now w)) = db w)
    by (unfold time_Now; destruct (clock w); reflexivity).
  destruct (time_Now w) as [t w1]; simpl in Hr.
  unfold bind.
  match goal with |- context [usernameExists ?u w1] =>
    pose proof (usernameExists_db u w1) as Hu;
    destruct (usernameExists u w1) as [[|] w2]; simpl in Hu
  end.
  - rewrite generateUniqueUsername_loop_db. congruence.
  - unfold ret; simpl. congruence.
Qed.

Lemma GenerateToken_spec (user : User.t) (w : World) :
  let (r, w') := GenerateToken jwt_SignedString cfg_JWT_ExpireHours user w in
  db w' = db w /\ (exists l, log w' = log w ++ l) /\
  match r with
  | Ok _ => True
  | Err _ => exists c, jwt_SignedString c = None
  end.
Proof.
  unfold GenerateToken. unfold_m.
  destruct w as [d fs en pr cl lg]; simpl.
  destruct cl as [|t1 [|t2 [|t3 cl]]]; simpl;
    match goal with |- context [jwt_SignedString ?c] =>
      destruct (jwt_SignedString c) eqn:E end; simpl;
    (split; [reflexivity|split; [exists []; rewrite app_nil_r; reflexivity|eauto]]).
Qed.

Lemma GenerateToken_cases (user : User.t) (w : World) :
  let (r, w') := GenerateToken jwt_SignedString cfg_JWT_ExpireHours user w in
  db w' = db w /\ (exists l, log w' = log w ++ l) /\
  match r with
  | Ok _ => True
  | Err _ => exists c, Claims.UserID c = User.ID user /\ jwt_SignedString c = None
  end.
Proof.
  unfold GenerateToken. unfold_m.
  destruct w as [d fs en pr cl lg]; simpl.
  destruct cl as [|t1 [|t2 [|t3 cl]]]; simpl;
    match goal with |- context [jwt_SignedString ?c] =>
      destruct (jwt_SignedString c) eqn:E end; simpl;
    (split; [reflexivity|split; [exists []; rewrite app_nil_r; reflexivity|]]);
    try exact I; eexists; (split; [|exact E]); reflexivity.
Qed.

(** C5: a registration with a non-empty invite code that passed the
    validation. [Register_signup] is the part of [Register] that ends
    with the insert of the account. When it ends in an error (the
    address is taken, the password cannot be hashed, the insert fails),
    [Register] returns that error and no account exists: the store is
    untouched. When it has inserted the account [u], with
    [InviteCodeID] and [InviteCodeUsed] set to the validated code, the
    redemption runs on the world [wc] that holds the account; whatever
    the redemption returns, the account stays and the caller gets the
    success response, unless the token of [u] cannot be signed. When
    the redemption fails, the failure is logged and the store is the
    one [wc] had: the account is not rolled back, the code is not
    consumed, and no error of the redemption reaches the caller. *)
Theorem C5_registration_survives_failed_redemption :
  forall (req : RegisterRequest.t) (w w1 : World) (ic : InviteCode.t),
    RegisterRequest.InviteCode req <> "" ->
    ValidateInviteCode (RegisterRequest.InviteCode req) w = (Ok ic, w1) ->
    let (r, w') := Register bcrypt_GenerateFromPassword jwt_SignedString
                             strings_ToLower strings_ToUpper cfg_JWT_ExpireHours
                             req w in
    let (a, wc) := Register_signup bcrypt_GenerateFromPassword strings_ToLower
                                   strings_ToUpper req (Some ic) w1 in
    match a with
    | Err e =>
        r = Err e /\ db wc = db w /\ db w' = db w /\
        (e = Errorf ("user with email " ++ RegisterRequest.Email req ++ " already exists")
         \/ e = Errorf "failed to process password"
         \/ e = Errorf "failed to create user account")
    | Ok u =>
        users (db wc) = users (db w) ++ [u] /\
        invite_codes (db wc) = invite_codes (db w) /\
        invite_code_usages (db wc) = invite_code_usages (db w) /\
        User.InviteCodeID u = Some (InviteCode.ID ic) /\
        User.InviteCodeUsed u = Some (InviteCode.Code ic) /\
        let (ru, wu) :=
          UseInviteCode (InviteCode.Code ic) (User.ID u) "unknown" "unknown" wc in
        db w' = db wu /\
        users (db w') = users (db w) ++ [u] /\
        match ru with
        | Err _ => In redemption_failure_entry (log w') /\ db w' = db wc
        | Ok _ => True
        end /\
        ((exists token, r = Ok (AuthResponse.mk u token))
         \/ (r = Err (Errorf "failed to generate authentication token")
             /\ exists c, Claims.UserID c = User.ID u /\ jwt_SignedString c = None))
    end.
Proof.
  intros req w w1 ic Hne Hv.
  unfold Register.
  apply String.eqb_neq in Hne. rewrite Hne. cbn [negb].
  unfold bind at 1. rewrite Hv.
  pose proof (ValidateInviteCode_spec (RegisterRequest.InviteCode req) w) as Hs.
  rewrite Hv in Hs. destruct Hs as (Hdb1 & _).
  unfold Register_account, Register_signup, bind.
  pose proof (GetUserByEmail_db (RegisterRequest.Email req) w1) as Hg.
  destruct (GetUserByEmail (RegisterRequest.Email req) w1) as [[x|e1] w2];
    simpl in Hg.
  { unfold ret. split; [reflexivity|]. split; [congruence|]. split; [congruence|auto]. }
  destruct (bcrypt_GenerateFromPassword (RegisterRequest.Password req)) as [hp|].
  2:{ unfold logger, ret. simpl. split; [reflexivity|]. split; [congruence|].
      split; [congruence|auto]. }
  match goal with |- context [generateUniqueUsername ?l ?b w2] =>
    pose proof (generateUniqueUsername_db b w2) as Hu;
    destruct (generateUniqueUsername l b w2) as [un w3]; simpl in Hu
  end.
  match goal with |- context [CreateUser ?x w3] =>
    pose proof (CreateUser_spec x w3) as Hc;
    destruct (CreateUser x w3) as [[u|e2] w4]
  end.
  2:{ unfold logger, ret. simpl. split; [reflexivity|]. split; [congruence|].
      split; [congruence|auto]. }
  destruct Hc as (Hcu & Hci & Hcl & _ & _ & Hid & Hused & _).
  simpl in Hid, Hused.
  assert (Hdb3 : db w3 = db w) by congruence.
  rewrite Hdb3 in *.
  unfold ret at 2. cbv iota beta.
  pose proof (UseInviteCode_spec (InviteCode.Code ic) (User.ID u)
                "unknown" "unknown" w4) as Hc2.
  destruct (UseInviteCode (InviteCode.Code ic) (User.ID u) "unknown" "unknown" w4)
    as [[ic'|e3] w5] eqn:EU.
  - unfold ret at 1.
    pose proof (GenerateToken_cases u w5) as Ht.
    destruct Hc2 as (? & ? & _ & _ & _ & Hus).
    assert (Hus' : users (db w5) = users (db w4)) by (rewrite Hus; reflexivity).
    destruct (GenerateToken jwt_SignedString cfg_JWT_ExpireHours u w5)
      as [[tok|e4] w6]; destruct Ht as (Hd & _ & Hj); unfold logger, ret; simpl;
      rewrite EU;
      repeat (split; [solve [assumption | congruence]|]);
      eauto.
  - assert (Hl : exists w5', logger LError "Failed to use invite code during registration" w5
                             = (tt, w5') /\ db w5' = db w5 /\
                             log w5' = log w5 ++ [redemption_failure_entry])
      by (eexists; split; [reflexivity | split; reflexivity]).
    destruct Hl as (w5' & Hl & Hd5 & Hlog5). rewrite Hl.
    pose proof (GenerateToken_cases u w5') as Ht.
    assert (Hin : forall l0 l1, In redemption_failure_entry
                    ((log w5 ++ [redemption_failure_entry]) ++ l0 ++ l1))
      by (intros; rewrite !in_app_iff; simpl; auto).
    destruct (GenerateToken jwt_SignedString cfg_JWT_ExpireHours u w5')
      as [[tok|e4] w6]; destruct Ht as (Hd & [l Hlg] & Hj); unfold logger, ret; simpl;
      rewrite EU;
      repeat (split; [solve [assumption | congruence]|]);
      (split; [split; [|congruence]|]); eauto;
      rewrite Hlg, Hlog5, <- app_assoc; rewrite !in_app_iff; simpl; auto.
Qed.

(** C10: a registration with a non-empty invite code that no live row
    carries (absent or soft-deleted), or whose row is exhausted or not
    active, returns the invalid-invite-code error with the store exactly
    as it was: no user, no ledger entry, no change to the code. *)
Theorem C10_registration_rejects_unusable_code :
  forall (req : RegisterRequest.t) (w : World),
    RegisterRequest.InviteCode req <> "" ->
    match stored_code (db w) (RegisterRequest.InviteCode req) with
    | None => True
    | Some ic =>
        InviteCode.UsedCount ic >= InviteCode.MaxUses ic \/
        InviteCode.Status ic <> InviteCodeStatusActive
    end ->
    exists (e : error) (w' : World),
      Register bcrypt_GenerateFromPassword jwt_SignedString
               strings_ToLower strings_ToUpper cfg_JWT_ExpireHours req w
      = (Err (Errorf ("invalid invite code: " ++ Error e)), w') /\
      db w' = db w.
Proof.
  intros req w Hne Hbad.
  unfold Register.
  apply String.eqb_neq in Hne. rewrite Hne. cbn [negb].
  unfold bind at 1.
  pose proof (ValidateInviteCode_spec (RegisterRequest.InviteCode req) w) as Hs.
  destruct (ValidateInviteCode (RegisterRequest.InviteCode req) w) as [[ic|e] w1].
  - exfalso. destruct Hs as (_ & _ & _ & _ & _ & _ & Hst & Hc).
    rewrite Hst in Hbad. apply CanBeUsed_true in Hc as (Ha & Hu & _).
    destruct Hbad; [lia | contradiction].
  - destruct Hs as (Hdb & _). exists e. eexists. unfold_m. simpl.
    split; [reflexivity | exact Hdb].
Qed.

End AuthProperties.

Lemma C5_witness :
  RegisterRequest.InviteCode sample_request <> "" /\
  ValidateInviteCode sample_code save_fails_after_signup
  = (Ok (sample_row 1 0 "active"),
     mkWorld (sample_db (sample_row 1 0 "active"))
             [false; false; false; false; true] [] [] [] []) /\
  exists (u : User.t) (token : TokenResponse.t),
    fst (Register sample_bcrypt sample_jwt sample_case sample_case 24
                  sample_request save_fails_after_signup)
    = Ok (AuthResponse.mk u token) /\
    users (db (snd (Register sample_bcrypt sample_jwt sample_case sample_case 24
                             sample_request save_fails_after_signup))) = [u] /\
    User.InviteCodeUsed u = Some sample_code /\
    In redemption_failure_entry
       (log (snd (Register sample_bcrypt sample_jwt sample_case sample_case 24
                           sample_request save_fails_after_signup))) /\
    invite_codes (db (snd (Register sample_bcrypt sample_jwt sample_case sample_case 24
                                    sample_request save_fails_after_signup)))
    = [sample_row 1 0 "active"].
Proof.
  assert (Hne : RegisterRequest.InviteCode sample_request <> "") by discriminate.
  assert (Hv : ValidateInviteCode (RegisterRequest.InviteCode sample_request)
                 save_fails_after_signup
               = (Ok (sample_row 1 0 "active"),
                  mkWorld (sample_db (sample_row 1 0 "active"))
                          [false; false; false; false; true] [] [] [] []))
    by reflexivity.
  pose proof (C5_registration_survives_failed_redemption
                sample_bcrypt sample_jwt sample_case sample_case 24
                sample_request save_fails_after_signup _ _ Hne Hv) as H.
  split; [exact Hne | split; [exact Hv |]].
  destruct (Register sample_bcrypt sample_jwt sample_case sample_case 24
                     sample_request save_fails_after_signup) as [r w'] eqn:E.
  assert (Hlog : In redemption_failure_entry (log w') /\
                 invite_codes (db w') = [sample_row 1 0 "active"] /\
                 exists resp, r = Ok resp)
    by (vm_compute in E; inversion E; subst; vm_compute; eauto 10).
  destruct Hlog as (Hlog & Hic & [resp Hr]).
  destruct (Register_signup sample_bcrypt sample_case sample_case sample_request
              (Some (sample_row 1 0 "active"))
              (mkWorld (sample_db (sample_row 1 0 "active"))
                       [false; false; false; false; true] [] [] [] []))
    as [[u|e] wc] eqn:Es; [|vm_compute in Es; discriminate].
  destruct H as (Hu & _ & _ & _ & Hused & H).
  destruct (UseInviteCode (InviteCode.Code (sample_row 1 0 "active"))
              (User.ID u) "unknown" "unknown" wc) as [ru wu].
  destruct H as (_ & Hus & _ & [[token Ht] | [Ht _]]); [|congruence].
  exists u, token. simpl. auto.
Defined.

Lemma C10_witness :
  RegisterRequest.InviteCode sample_request <> "" /\
  stored_code (db exhausted_world) sample_code = Some (sample_row 1 1 "used") /\
  exists (e : error) (w' : World),
    Register sample_bcrypt sample_jwt sample_case sample_case 24
             sample_request exhausted_world
    = (Err (Errorf ("invalid invite code: " ++ Error e)), w') /\
    db w' = db exhausted_world.
Proof.
  assert (Hne : RegisterRequest.InviteCode sample_request <> "") by discriminate.
  assert (Hbad : match stored_code (db exhausted_world)
                         (RegisterRequest.InviteCode sample_request) with
                 | None => True
                 | Some ic =>
                     InviteCode.UsedCount ic >= InviteCode.MaxUses ic \/
                     InviteCode.Status ic <> InviteCodeStatusActive
                 end)
    by (vm_compute; left; discriminate).
  destruct (C10_registration_rejects_unusable_code
              sample_bcrypt sample_jwt sample_case sample_case 24
              sample_request exhausted_world Hne Hbad) as (e & w' & H1 & H2).
  split; [exact Hne | split; [reflexivity |]].
  exists e, w'. split; assumption.
Defined.

(** ** Generation *)



Lemma store_call_no_fault (w : World) :
  no_fault w ->
  fst (store_call w) = false /\ no_fault (snd (store_call w)) /\
  db (snd (store_call w)) = db w /\ entropy (snd (store_call w)) = entropy w.
Proof.
  unfold no_fault, store_call. destruct w as [d fs en pr cl lg]; simpl.
  intros H. destruct fs as [|f fs]; simpl; auto.
  inversion H; subst. auto.
Qed.

Lemma GenerateInviteCode_fuel_spec (fuel : nat) (w : World) :
  let (r, w') := GenerateInviteCode_fuel fuel w in
  db w' = db w /\ log w' = log w /\
  match r with
  | Ok code =>
      (exists bytes, In bytes (entropy w) /\ List.length bytes = 16%nat /\
                     code = EncodeToString bytes) /\
      (no_fault w -> stored_code (db w) code = None)
  | Err _ => True
  end.
Proof.
  revert w; induction fuel as [|fuel IH]; intros w; simpl.
  - unfold ret; auto.
  - unfold bind at 1. unfold rand_Read.
    destruct (entropy w) as [|b bs] eqn:Een; [unfold ret; auto|].
    destruct (Nat.eqb (List.length b) 16) eqn:El; [|unfold ret; simpl; auto].
    apply Nat.eqb_eq in El.
    unfold First_InviteCode. unfold bind at 1. unfold bind at 1.
    set (w0 := {| db := db w; faults := faults w; entropy := bs; prng := prng w;
                  clock := clock w; log := log w |}).
    assert (Hnf : no_fault w -> no_fault w0) by (unfold no_fault; auto).
    pose proof (store_call_no_fault w0) as Hsc.
    assert (Hdb1 : db (snd (store_call w0)) = db w)
      by (unfold store_call; simpl; destruct (faults w); reflexivity).
    assert (Hlog1 : log (snd (store_call w0)) = log w)
      by (unfold store_call; simpl; destruct (faults w); reflexivity).
    assert (Hen1 : entropy (snd (store_call w0)) = bs)
      by (unfold store_call; simpl; destruct (faults w); reflexivity).
    destruct (store_call w0) as [f w1]; simpl in *.
    destruct f.
    + unfold ret. simpl. repeat split; auto.
      * exists b. auto.
      * intros H. destruct (Hsc (Hnf H)) as [Hc _]. discriminate.
    + unfold bind at 1. unfold get_db.
      fold (stored_code (db w1) (EncodeToString b)). rewrite Hdb1.
      destruct (stored_code (db w) (EncodeToString b)) as [x|] eqn:Es.
      * unfold ret at 1. specialize (IH w1).
        destruct (GenerateInviteCode_fuel fuel w1) as [[code|e] w2].
        -- destruct IH as (Hd & Hl & [bytes (Hin & Hlen & Hcode)] & Hfresh).
           rewrite Hen1 in Hin. rewrite Hdb1 in *.
           repeat split; try congruence.
           ++ exists bytes. auto.
           ++ intros H. apply Hfresh. apply Hsc. auto.
        -- destruct IH as (Hd & Hl & _). repeat split; congruence.
      * unfold ret. simpl. repeat split; auto. exists b. auto.
Qed.

Lemma GenerateInviteCode_fuel_enough (fuel : nat) (w : World) :
  (List.length (entropy w) < fuel)%nat ->
  GenerateInviteCode_fuel (S fuel) w = GenerateInviteCode_fuel fuel w.
Proof.
  revert w; induction fuel as [|fuel IH]; intros w Hlt; [lia|].
  change (GenerateInviteCode_fuel (S (S fuel)) w)
    with ((r <- rand_Read 16 ;;
           match r with
           | None => ret (Err (Wrapf "failed to generate random bytes" ErrRand))
           | Some bytes =>
               let code := EncodeToString bytes in
               e <- First_InviteCode (fun r => (InviteCode.Code r =? code)%string) ;;
               match e with
               | Ok _ => GenerateInviteCode_fuel (S fuel)
               | Err _ => ret (Ok code)
               end
           end) w).
  change (GenerateInviteCode_fuel (S fuel) w)
    with ((r <- rand_Read 16 ;;
           match r with
           | None => ret (Err (Wrapf "failed to generate random bytes" ErrRand))
           | Some bytes =>
               let code := EncodeToString bytes in
               e <- First_InviteCode (fun r => (InviteCode.Code r =? code)%string) ;;
               match e with
               | Ok _ => GenerateInviteCode_fuel fuel
               | Err _ => ret (Ok code)
               end
           end) w).
  unfold bind at 1 3. unfold rand_Read.
  destruct (entropy w) as [|b bs] eqn:Een; [reflexivity|].
  destruct (Nat.eqb (List.length b) 16); [|reflexivity].
  cbv zeta. unfold bind at 1 2.
  match goal with |- context [First_InviteCode ?p ?w0] =>
    assert (Hen : entropy (snd (First_InviteCode p w0)) = bs)
      by (unfold First_InviteCode; unfold_m; simpl;
          destruct (faults w) as [|[|] ?]; simpl; try reflexivity;
          destruct (min_by _ _); reflexivity);
    destruct (First_InviteCode p w0) as [[x|e] w1]
  end; [|reflexivity].
  simpl in Hen. apply IH. rewrite Hen. simpl in Hlt. lia.
Qed.





(** ** Status updates *)

Lemma save_row_In (ic : InviteCode.t) (rows : list InviteCode.t) (r : InviteCode.t) :
  In r (save_row ic rows) -> r = ic \/ (In r rows /\ InviteCode.ID r <> InviteCode.ID ic).
Proof.
  unfold save_row.
  destruct (existsb _ rows) eqn:E.
  - intros H. apply in_map_iff in H as (x & Hx & Hin).
    destruct (InviteCode.ID x =? InviteCode.ID ic) eqn:Eid; [left; auto|].
    right. subst x. apply Z.eqb_neq in Eid. auto.
  - intros H. apply in_app_iff in H as [H|[H|[]]]; [|left; auto].
    right. split; [assumption|].
    intros Heq. apply Z.eqb_eq in Heq.
    assert (existsb (fun r0 => InviteCode.ID r0 =? InviteCode.ID ic) rows = true)
      by (apply existsb_exists; eauto).
    congruence.
Qed.

Lemma UpdateInviteCodeStatus_spec (id : Z) (status : string) (w : World) :
  let (r, w') := UpdateInviteCodeStatus id status w in
  (db w' = db w \/
   exists ic, In ic (invite_codes (db w)) /\ InviteCode.ID ic = id /\
              InviteCode.DeletedAt ic = None /\
              db w' = with_invite_codes
                        (save_row (InviteCode.with_Status status ic) (invite_codes (db w)))
                        (db w) /\
              r = Ok (InviteCode.with_Status status ic)).
Proof.
  unfold UpdateInviteCodeStatus, First_InviteCode, Save_InviteCode. unfold_m.
  destruct w as [d fs en pr cl lg]; simpl.
  destruct fs as [|[|] fs]; simpl; auto;
    (destruct (min_by _ _) as [ic|] eqn:E; simpl; auto;
     apply min_by_In in E; apply filter_In in E as [E Hid];
     apply filter_In in E as [E Hd]; apply Z.eqb_eq in Hid;
     assert (Hdel : InviteCode.DeletedAt ic = None)
       by (unfold InviteCode.IsDeleted in Hd;
           destruct (InviteCode.DeletedAt ic); [discriminate|reflexivity])).
  - right. exists ic. auto 10.
  - destruct fs as [|[|] fs]; simpl; auto; right; exists ic; auto 10.
Qed.

Lemma validate_status_nil (status : string) :
  validate_status status = [] ->
  status = InviteCodeStatusActive \/ status = InviteCodeStatusDisabled.
Proof.
  unfold validate_status.
  destruct (status =? "")%string; [discriminate|].
  destruct (status =? "active")%string eqn:E1; simpl.
  - intros _. left. apply String.eqb_eq. exact E1.
  - destruct (status =? "disabled")%string eqn:E2; [|discriminate].
    intros _. right. apply String.eqb_eq. exact E2.
Qed.

Lemma GetInviteCodeByID_db (id : Z) (w : World) :
  db (snd (GetInviteCodeByID id w)) = db w.
Proof.
  unfold GetInviteCodeByID, First_InviteCode. unfold_m.
  destruct w as [d fs en pr cl lg]; simpl.
  destruct fs as [|[|] fs]; simpl; auto; destruct (min_by _ _); reflexivity.
Qed.

(** C9 (as amended): a status update that goes through the handler
    leaves every row as it was or stores [active] or [disabled]; it
    never produces a row with another status. A successful redemption
    returns the status [used] exactly when the counter it has just
    incremented has reached [maxUses]. *)
Theorem C9_status_update_through_handler :
  forall (auth : option User.t) (idStr : string) (body : option string) (w : World),
    (let (resp, w') := UpdateInviteCodeStatus_handler auth idStr body w in
     forall row, In row (invite_codes (db w')) ->
       In row (invite_codes (db w)) \/
       InviteCode.Status row = InviteCodeStatusActive \/
       InviteCode.Status row = InviteCodeStatusDisabled) /\
    (forall (code : string) (userID : Z) (ip ua : string) (ic : InviteCode.t)
            (w' : World),
        UseInviteCode code userID ip ua w = (Ok ic, w') ->
        (InviteCode.Status ic = InviteCodeStatusUsed <->
         InviteCode.UsedCount ic >= InviteCode.MaxUses ic)).
Proof.
  intros auth idStr body w. split.
  - unfold UpdateInviteCodeStatus_handler.
    destruct auth as [user|]; [|unfold ret; auto].
    destruct (ParseUint32 idStr) as [id|]; [|unfold ret; auto].
    destruct body as [status|]; simpl; [|unfold ret; auto].
    destruct (validate_status status) eqn:Ev; [|unfold ret; auto].
    apply validate_status_nil in Ev.
    unfold bind at 1.
    pose proof (GetInviteCodeByID_db id w) as Hg.
    destruct (GetInviteCodeByID id w) as [[ic|e] w1]; simpl in Hg;
      [|unfold ret; intros; left; congruence].
    destruct (negb (InviteCode.CreatedByID ic =? User.ID user)
              && negb (User.IsAdmin user));
      [unfold ret; intros; left; congruence|].
    unfold bind at 1.
    pose proof (UpdateInviteCodeStatus_spec id status w1) as Hs.
    destruct (UpdateInviteCodeStatus id status w1) as [[x|e] w2];
      (destruct Hs as [Hs|(ic0 & Hin & _ & _ & Hs & _)];
       [unfold_m; simpl; intros; left; congruence|]);
      unfold_m; simpl; rewrite Hs; simpl; intros row Hrow;
      (apply save_row_In in Hrow as [Hrow|[Hrow _]];
       [subst row; simpl; right; exact Ev|left; congruence]).
  - intros code userID ip ua ic w' Hrun.
    pose proof (UseInviteCode_spec code userID ip ua w) as Hs.
    rewrite Hrun in Hs. destruct Hs as (ic0 & usedAt & _ & Hc & Hic & _).
    apply CanBeUsed_true in Hc as (Hact & _ & _).
    subst ic. cbv zeta.
    destruct (InviteCode.UsedCount _ >=? InviteCode.MaxUses _) eqn:E; simpl in *.
    + split; [intros _; lia | reflexivity].
    + rewrite Hact. split; [discriminate | lia].
Qed.

Lemma C9_witness :
  In (sample_row 3 0 "disabled") (invite_codes (db after_disable)) /\
  ~ In (sample_row 3 0 "disabled")
       (invite_codes (db (quiet (sample_db (sample_row 3 0 "active"))))) /\
  (InviteCode.Status (sample_row 3 0 "disabled") = InviteCodeStatusActive \/
   InviteCode.Status (sample_row 3 0 "disabled") = InviteCodeStatusDisabled).
Proof.
  assert (Hin : In (sample_row 3 0 "disabled") (invite_codes (db after_disable)))
    by (vm_compute; left; reflexivity).
  assert (Hnew : ~ In (sample_row 3 0 "disabled")
                      (invite_codes (db (quiet (sample_db (sample_row 3 0 "active"))))))
    by (simpl; intros [H|[]]; discriminate).
  pose proof (C9_status_update_through_handler (Some sample_user) "1" (Some "disabled")
                (quiet (sample_db (sample_row 3 0 "active")))) as H.
  unfold after_disable in Hin.
  destruct (UpdateInviteCodeStatus_handler (Some sample_user) "1" (Some "disabled")
              (quiet (sample_db (sample_row 3 0 "active")))) as [resp w'].
  simpl in Hin.
  destruct H as [H _].
  destruct (H _ Hin) as [Hold|Hst]; [contradiction|].
  split; [vm_compute; left; reflexivity | split; [exact Hnew | exact Hst]].
Defined.

(** The service method itself stores the string it is given. *)
Lemma C9_counterexample :
  map InviteCode.Status
      (invite_codes
         (db (snd (UpdateInviteCodeStatus 1 "used"
                     (quiet (sample_db (sample_row 3 0 "active")))))))
  = ["used"] /\
  "used" <> InviteCodeStatusActive /\ "used" <> InviteCodeStatusDisabled.
Proof.
  split; [reflexivity | split; discriminate].
Qed.

(** ** Creation *)

Lemma validate_create_iff (req : CreateInviteCodeRequest.t) :
  validate_CreateInviteCodeRequest req = [] <-> spec_valid_create req = true.
Proof.
  unfold validate_CreateInviteCodeRequest, spec_valid_create.
  destruct (CreateInviteCodeRequest.MaxUses req <? 1) eqn:E1;
    [|destruct (CreateInviteCodeRequest.MaxUses req >? 100) eqn:E2];
    destruct (RuneCountInString (CreateInviteCodeRequest.Description req) >? 255) eqn:E3;
    simpl; split; intros H; try discriminate; try reflexivity;
    rewrite ?andb_true_iff in *; exfalso + idtac; lia.
Qed.

Lemma Create_InviteCode_spec (ic : InviteCode.t) (w : World) :
  let (r, w') := Create_InviteCode ic w in
  match r with
  | Ok row =>
      row = InviteCode.with_ID (invite_codes_seq (db w) + 1) (InviteCode_defaults ic) /\
      db w' = mkDB (invite_codes (db w) ++ [row]) (invite_code_usages (db w))
                   (users (db w)) (invite_codes_seq (db w) + 1)
                   (invite_code_usages_seq (db w)) (users_seq (db w)) /\
      (forall r0, In r0 (invite_codes (db w)) ->
                  InviteCode.Code r0 <> InviteCode.Code row)
  | Err _ => db w' = db w
  end.
Proof.
  unfold Create_InviteCode. unfold_m.
  destruct w as [d fs en pr cl lg]; simpl.
  assert (Hfresh : forall c,
             existsb (fun r => (InviteCode.Code r =? c)%string) (invite_codes d) = false ->
             forall r0, In r0 (invite_codes d) -> InviteCode.Code r0 <> c).
  { intros c He r0 Hin Hc.
    assert (existsb (fun r => (InviteCode.Code r =? c)%string) (invite_codes d) = true)
      by (apply existsb_exists; exists r0; split; [assumption|apply String.eqb_eq; assumption]).
    congruence. }
  destruct fs as [|[|] fs]; simpl; auto;
    destruct (existsb _ _) eqn:E; simpl; auto.
Qed.

Lemma InviteCode_defaults_id (ic : InviteCode.t) :
  InviteCode.Status ic = InviteCodeStatusActive ->
  InviteCode.MaxUses ic <> 0 ->
  InviteCode_defaults ic = ic.
Proof.
  unfold InviteCode_defaults. intros Hs Hm. rewrite Hs. simpl.
  apply Z.eqb_neq in Hm. rewrite Hm. reflexivity.
Qed.

Lemma GenerateInviteCode_first_draw (w : World) (bytes : list Byte.byte)
    (rest : list (list Byte.byte)) :
  no_fault w ->
  entropy w = bytes :: rest ->
  List.length bytes = 16%nat ->
  stored_code (db w) (EncodeToString bytes) = None ->
  exists w1, GenerateInviteCode w = (Ok (EncodeToString bytes), w1) /\
             db w1 = db w /\ no_fault w1.
Proof.
  intros Hnf Hen Hlen Hs. unfold GenerateInviteCode, no_fault in *.
  destruct w as [d fs en pr cl lg]. simpl in Hnf, Hen, Hs. subst en.
  apply Nat.eqb_eq in Hlen. unfold stored_code in Hs.
  simpl. unfold bind at 1. unfold rand_Read. simpl. rewrite Hlen.
  unfold First_InviteCode. unfold_m. simpl.
  destruct fs as [|f fs]; simpl.
  - rewrite Hs. eexists. split; [reflexivity|]. simpl. auto.
  - inversion Hnf; subst. simpl. rewrite Hs.
    eexists. split; [reflexivity|]. simpl. auto.
Qed.

Lemma Create_InviteCode_succeeds (ic : InviteCode.t) (w : World) :
  no_fault w ->
  (forall r, In r (invite_codes (db w)) ->
             InviteCode.Code r <> InviteCode.Code (InviteCode_defaults ic)) ->
  exists row w', Create_InviteCode ic w = (Ok row, w').
Proof.
  intros Hnf Hfresh. unfold Create_InviteCode, no_fault in *. unfold_m.
  assert (He : existsb (fun r => (InviteCode.Code r
                                  =? InviteCode.Code (InviteCode_defaults ic))%string)
                       (invite_codes (db w)) = false).
  { destruct (existsb _ _) eqn:Ex; [|reflexivity].
    apply existsb_exists in Ex as (r & Hin & Hc).
    apply String.eqb_eq in Hc. exfalso. exact (Hfresh r Hin Hc). }
  destruct w as [d fs en pr cl lg]; simpl in *.
  destruct fs as [|f fs]; simpl.
  - rewrite He. eauto.
  - inversion Hnf; subst. simpl. rewrite He. eauto.
Qed.

(** C6: creation through the handler. A request outside the contract
    is answered with the binding's validation error and nothing is
    persisted. A request within it either appends one row (status
    [active], [usedCount = 0], the requested [maxUses] and description)
    and answers [Created], or fails in the generator or the store with
    nothing persisted; it does append the row when no store call fails
    and the first draw is a fresh code. *)
Theorem C6_creation_validates_then_persists :
  forall (user : User.t) (req : CreateInviteCodeRequest.t) (w : World),
    let (resp, w') := CreateInviteCode_handler (Some user) (Some req) w in
    (spec_valid_create req = false ->
     exists fs, fs <> [] /\ resp = BadRequest (Error (ErrBind fs)) /\ db w' = db w)
    /\
    (spec_valid_create req = true ->
     (exists row,
         resp = Created row /\
         invite_codes (db w') = invite_codes (db w) ++ [row] /\
         invite_code_usages (db w') = invite_code_usages (db w) /\
         users (db w') = users (db w) /\
         InviteCode.Status row = InviteCodeStatusActive /\
         InviteCode.UsedCount row = 0 /\
         InviteCode.MaxUses row = CreateInviteCodeRequest.MaxUses req /\
         InviteCode.Description row = CreateInviteCodeRequest.Description req /\
         InviteCode.CreatedByID row = User.ID user)
     \/
     (exists cause,
         (resp = BadRequest (Error (Wrapf "failed to generate invite code" cause)) \/
          resp = BadRequest (Error (Wrapf "failed to create invite code" cause))) /\
         db w' = db w))
    /\
    (spec_valid_create req = true ->
     no_fault w ->
     forall bytes rest,
       entropy w = bytes :: rest ->
       List.length bytes = 16%nat ->
       (forall r, In r (invite_codes (db w)) ->
                  InviteCode.Code r <> EncodeToString bytes) ->
       exists row, resp = Created row /\ InviteCode.Code row = EncodeToString bytes /\
                   In row (invite_codes (db w'))).
Proof.
  intros user req w. unfold CreateInviteCode_handler, ShouldBindJSON_create.
  destruct (validate_CreateInviteCodeRequest req) as [|f fs] eqn:Ev.
  - (* the binding accepts the request *)
    assert (Hv : spec_valid_create req = true) by (apply validate_create_iff; exact Ev).
    assert (Hm : CreateInviteCodeRequest.MaxUses req <> 0).
    { unfold spec_valid_create in Hv. rewrite !andb_true_iff in Hv. lia. }
    unfold bind at 1. unfold CreateInviteCode. unfold bind at 1.
    pose proof (GenerateInviteCode_fuel_spec (S (List.length (entropy w))) w) as Hg.
    fold (GenerateInviteCode w) in Hg.
    destruct (GenerateInviteCode w) as [[code|e] w1] eqn:Eg.
    + destruct Hg as (Hdb1 & _ & _ & _).
      unfold bind at 1.
      match goal with |- context [Create_InviteCode ?x w1] =>
        pose proof (Create_InviteCode_spec x w1) as Hc;
        rewrite (InviteCode_defaults_id x eq_refl Hm) in Hc;
        destruct (Create_InviteCode x w1) as [[row|e] w2] eqn:Ec
      end.
      * destruct Hc as (Hrow & Hdb2 & _). unfold_m. simpl.
        split; [congruence|]. rewrite Hdb2, Hdb1. simpl.
        split.
        -- intros _. left. exists row. subst row. simpl. auto 10.
        -- intros _ Hnf bytes rest Hen Hlen Hfresh.
           assert (Hs : stored_code (db w) (EncodeToString bytes) = None).
           { apply stored_code_None. intros r Hin Hc _. exact (Hfresh r Hin Hc). }
           destruct (GenerateInviteCode_first_draw w bytes rest Hnf Hen Hlen Hs)
             as (w1' & Hg' & _).
           rewrite Eg in Hg'. inversion Hg'; subst code w1'.
           exists row. split; [reflexivity|]. rewrite Hrow at 1. simpl.
           split; [reflexivity|]. apply in_or_app. right. left. reflexivity.
      * unfold_m. simpl. split; [congruence|].
        split.
        -- intros _. right. exists e. split; [auto|congruence].
        -- intros _ Hnf bytes rest Hen Hlen Hfresh. exfalso.
           assert (Hs : stored_code (db w) (EncodeToString bytes) = None).
           { apply stored_code_None. intros r Hin Hc' _. exact (Hfresh r Hin Hc'). }
           destruct (GenerateInviteCode_first_draw w bytes rest Hnf Hen Hlen Hs)
             as (w1' & Hg' & Hdb' & Hnf').
           rewrite Eg in Hg'. inversion Hg'; subst code w1'.
           match type of Ec with Create_InviteCode ?x w1 = _ =>
             destruct (Create_InviteCode_succeeds x w1 Hnf') as (row & w2' & Hok);
             [rewrite (InviteCode_defaults_id x eq_refl Hm); simpl;
              rewrite Hdb'; exact Hfresh | congruence]
           end.
    + destruct Hg as (Hdb1 & _). unfold_m. simpl.
      split; [congruence|]. split.
      * intros _. right. exists e. auto.
      * intros _ Hnf bytes rest Hen Hlen Hfresh. exfalso.
        assert (Hs : stored_code (db w) (EncodeToString bytes) = None).
        { apply stored_code_None. intros r Hin Hc' _. exact (Hfresh r Hin Hc'). }
        destruct (GenerateInviteCode_first_draw w bytes rest Hnf Hen Hlen Hs)
          as (w1' & Hg' & _).
        congruence.
  - (* the binding rejects it *)
    assert (Hv : spec_valid_create req = false).
    { destruct (spec_valid_create req) eqn:E; [|reflexivity].
      apply validate_create_iff in E. congruence. }
    unfold ret. split; [|split; congruence].
    intros _. exists (f :: fs). split; [discriminate|auto].
Qed.

Lemma C6_witness :
  (spec_valid_create team_invite = true /\
   exists row,
     fst (CreateInviteCode_handler (Some sample_user) (Some team_invite) fresh_draw)
     = Created row /\
     InviteCode.Code row = "abababababababababababababababab") /\
  (spec_valid_create too_many_uses = false /\
   exists fs,
     fst (CreateInviteCode_handler (Some sample_user) (Some too_many_uses) fresh_draw)
     = BadRequest (Error (ErrBind fs)) /\
     db (snd (CreateInviteCode_handler (Some sample_user) (Some too_many_uses) fresh_draw))
     = db fresh_draw).
Proof.
  split.
  - pose proof (C6_creation_validates_then_persists sample_user team_invite fresh_draw)
      as H.
    destruct (CreateInviteCode_handler (Some sample_user) (Some team_invite) fresh_draw)
      as [resp w'].
    destruct H as (_ & _ & H).
    assert (Hv : spec_valid_create team_invite = true) by reflexivity.
    assert (Hnf : no_fault fresh_draw) by constructor.
    destruct (H Hv Hnf (block Byte.xab) [] eq_refl eq_refl) as (row & Hr & Hc & _).
    + intros r [].
    + split; [exact Hv|]. exists row. split; [exact Hr | exact Hc].
  - pose proof (C6_creation_validates_then_persists sample_user too_many_uses fresh_draw)
      as H.
    destruct (CreateInviteCode_handler (Some sample_user) (Some too_many_uses) fresh_draw)
      as [resp w'].
    destruct H as (H & _ & _).
    assert (Hv : spec_valid_create too_many_uses = false) by reflexivity.
    destruct (H Hv) as (fs & _ & Hr & Hd).
    split; [exact Hv|]. exists fs. split; [exact Hr | exact Hd].
Defined.

(** ** Invariants of the store *)

Lemma store_inv_empty : store_inv empty_db.
Proof.
  constructor; simpl; try (intros ? []). constructor.
Qed.

Lemma NoDup_ID_eq (rows : list InviteCode.t) (a b : InviteCode.t) :
  NoDup (map InviteCode.ID rows) -> In a rows -> In b rows ->
  InviteCode.ID a = InviteCode.ID b -> a = b.
Proof.
  induction rows as [|x rows IH]; simpl; intros Hnd Ha Hb Hid; [destruct Ha|].
  inversion Hnd as [|? ? Hnot Hnd']; subst.
  destruct Ha as [Ha|Ha], Hb as [Hb|Hb]; subst; auto.
  - exfalso. apply Hnot. rewrite Hid. apply in_map. assumption.
  - exfalso. apply Hnot. rewrite <- Hid. apply in_map. assumption.
Qed.

Lemma save_row_existing (ic ic0 : InviteCode.t) (rows : list InviteCode.t) :
  In ic0 rows -> InviteCode.ID ic = InviteCode.ID ic0 ->
  save_row ic rows
  = map (fun r => if InviteCode.ID r =? InviteCode.ID ic then ic else r) rows.
Proof.
  intros Hin Hid. unfold save_row.
  assert (H : existsb (fun r => InviteCode.ID r =? InviteCode.ID ic) rows = true).
  { apply existsb_exists. exists ic0. split; [assumption|]. apply Z.eqb_eq. auto. }
  rewrite H. reflexivity.
Qed.

Lemma save_row_IDs (ic ic0 : InviteCode.t) (rows : list InviteCode.t) :
  In ic0 rows -> InviteCode.ID ic = InviteCode.ID ic0 ->
  map InviteCode.ID (save_row ic rows) = map InviteCode.ID rows.
Proof.
  intros Hin Hid. rewrite (save_row_existing ic ic0 rows Hin Hid).
  rewrite map_map. apply map_ext. intros r.
  destruct (InviteCode.ID r =? InviteCode.ID ic) eqn:E; [|reflexivity].
  apply Z.eqb_eq in E. auto.
Qed.

Lemma save_row_In_existing (ic ic0 r : InviteCode.t) (rows : list InviteCode.t) :
  NoDup (map InviteCode.ID rows) ->
  In ic0 rows -> InviteCode.ID ic = InviteCode.ID ic0 ->
  In r (save_row ic rows) ->
  r = ic \/ (In r rows /\ InviteCode.ID r <> InviteCode.ID ic0).
Proof.
  intros Hnd Hin Hid Hr. apply save_row_In in Hr as [Hr|[Hr Hne]]; [left; auto|].
  right. split; [assumption|congruence].
Qed.

Lemma usage_total_with_invite_codes (rows : list InviteCode.t) (d : DB) (id : Z) :
  usage_total (with_invite_codes rows d) id = usage_total d id.
Proof. reflexivity. Qed.

Lemma usage_total_insert (u : InviteCodeUsage.t) (d : DB) (id : Z) :
  InviteCodeUsage.DeletedAt u = None ->
  usage_total (insert_usage u d) id
  = usage_total d id + (if InviteCodeUsage.InviteCodeID u =? id then 1 else 0).
Proof.
  intros Hd. unfold usage_total, insert_usage. simpl.
  rewrite filter_app, length_app. simpl. rewrite Hd.
  destruct (InviteCodeUsage.InviteCodeID u =? id); simpl; lia.
Qed.

Lemma usage_total_unreferenced (d : DB) (id : Z) :
  (forall u, In u (invite_code_usages d) -> InviteCodeUsage.InviteCodeID u <> id) ->
  usage_total d id = 0.
Proof.
  intros H. unfold usage_total.
  induction (invite_code_usages d) as [|u us IH]; simpl; [reflexivity|].
  destruct (InviteCodeUsage.InviteCodeID u =? id) eqn:E.
  - apply Z.eqb_eq in E. exfalso. apply (H u); simpl; auto.
  - simpl. apply IH. intros u0 Hin. apply H. simpl. auto.
Qed.

(** An update that keeps the identifier and the counters of every row. *)
Lemma store_inv_map (d : DB) (f : InviteCode.t -> InviteCode.t) :
  store_inv d ->
  (forall r, In r (invite_codes d) ->
             InviteCode.ID (f r) = InviteCode.ID r /\
             InviteCode.UsedCount (f r) = InviteCode.UsedCount r /\
             InviteCode.MaxUses (f r) = InviteCode.MaxUses r) ->
  store_inv (with_invite_codes (map f (invite_codes d)) d).
Proof.
  intros [Hids Hseq Hrefs Hcnt Hled] Hf.
  assert (Hmap : map InviteCode.ID (map f (invite_codes d))
                 = map InviteCode.ID (invite_codes d)).
  { rewrite map_map. apply map_ext_in. intros r Hr. apply Hf. assumption. }
  constructor; simpl.
  - rewrite Hmap. assumption.
  - intros r Hr. apply in_map_iff in Hr as (x & Hx & Hin). subst r.
    destruct (Hf x Hin) as (-> & _). auto.
  - assumption.
  - intros r Hr. apply in_map_iff in Hr as (x & Hx & Hin). subst r.
    destruct (Hf x Hin) as (_ & Hu & Hm). unfold row_ok. rewrite Hu, Hm.
    apply Hcnt. assumption.
  - intros r Hr. apply in_map_iff in Hr as (x & Hx & Hin). subst r.
    destruct (Hf x Hin) as (Hi & Hu & _). rewrite Hi, Hu.
    rewrite usage_total_with_invite_codes. auto.
Qed.

(** The effect of a successful redemption. *)
Lemma store_inv_redeem (d : DB) (ic ic' : InviteCode.t) (u : InviteCodeUsage.t) :
  store_inv d ->
  In ic (invite_codes d) ->
  InviteCode.UsedCount ic < InviteCode.MaxUses ic ->
  InviteCode.ID ic' = InviteCode.ID ic ->
  InviteCode.UsedCount ic' = InviteCode.UsedCount ic + 1 ->
  InviteCode.MaxUses ic' = InviteCode.MaxUses ic ->
  InviteCodeUsage.InviteCodeID u = InviteCode.ID ic ->
  InviteCodeUsage.DeletedAt u = None ->
  store_inv (insert_usage u (with_invite_codes (save_row ic' (invite_codes d)) d)).
Proof.
  intros [Hids Hseq Hrefs Hcnt Hled] Hin Hlt Hid Hu Hm Href Hdel.
  constructor; simpl.
  - rewrite (save_row_IDs ic' ic _ Hin Hid). assumption.
  - intros r Hr.
    apply (save_row_In_existing ic' ic r _ Hids Hin Hid) in Hr as [->|[Hr _]]; auto.
    rewrite Hid. auto.
  - intros x Hx. apply in_app_iff in Hx as [Hx|[Hx|[]]]; auto.
    subst x. simpl. rewrite Href. auto.
  - intros r Hr.
    apply (save_row_In_existing ic' ic r _ Hids Hin Hid) in Hr as [->|[Hr _]]; auto.
    destruct (Hcnt ic Hin) as [Hc Hmax]. unfold row_ok. rewrite Hu, Hm. lia.
  - intros r Hr. rewrite usage_total_insert by assumption.
    rewrite usage_total_with_invite_codes, Href.
    apply (save_row_In_existing ic' ic r _ Hids Hin Hid) in Hr as [->|[Hr Hne]].
    + rewrite Hid, Z.eqb_refl, Hu. rewrite (Hled ic Hin). reflexivity.
    + assert (E : (InviteCode.ID ic =? InviteCode.ID r) = false)
        by (apply Z.eqb_neq; congruence).
      rewrite E, Z.add_0_r. auto.
Qed.

(** The effect of a successful creation. *)
Lemma store_inv_create (d : DB) (row : InviteCode.t) :
  store_inv d ->
  InviteCode.ID row = invite_codes_seq d + 1 ->
  InviteCode.UsedCount row = 0 ->
  0 <= InviteCode.MaxUses row < 2 ^ 63 ->
  store_inv (mkDB (invite_codes d ++ [row]) (invite_code_usages d) (users d)
                  (invite_codes_seq d + 1) (invite_code_usages_seq d) (users_seq d)).
Proof.
  intros [Hids Hseq Hrefs Hcnt Hled] Hid Hu Hm.
  constructor; simpl.
  - rewrite map_app. simpl. apply NoDup_app; [assumption|repeat constructor; intros []|].
    intros x Hx [Hx'|[]]. apply in_map_iff in Hx as (r & Hr & Hin).
    specialize (Hseq r Hin). lia.
  - intros r Hr. apply in_app_iff in Hr as [Hr|[Hr|[]]].
    + specialize (Hseq r Hr). lia.
    + subst r. lia.
  - intros u Hin. specialize (Hrefs u Hin). lia.
  - intros r Hr. apply in_app_iff in Hr as [Hr|[Hr|[]]]; auto.
    subst r. unfold row_ok. lia.
  - intros r Hr. apply in_app_iff in Hr as [Hr|[Hr|[]]].
    + apply (Hled r Hr).
    + subst r. rewrite Hu.
      apply usage_total_unreferenced. simpl. intros u Hin.
      specialize (Hrefs u Hin). lia.
Qed.

Lemma CreateInviteCode_handler_effect (auth : option User.t)
    (body : option CreateInviteCodeRequest.t) (w : World) :
  let (resp, w') := CreateInviteCode_handler auth body w in
  db w' = db w \/
  exists row,
    db w' = mkDB (invite_codes (db w) ++ [row]) (invite_code_usages (db w))
                 (users (db w)) (invite_codes_seq (db w) + 1)
                 (invite_code_usages_seq (db w)) (users_seq (db w)) /\
    InviteCode.ID row = invite_codes_seq (db w) + 1 /\
    InviteCode.UsedCount row = 0 /\
    1 <= InviteCode.MaxUses row <= 100.
Proof.
  unfold CreateInviteCode_handler.
  destruct auth as [user|]; [|unfold ret; left; reflexivity].
  destruct body as [req|]; simpl; [|unfold ret; left; reflexivity].
  destruct (validate_CreateInviteCodeRequest req) as [|f fs] eqn:Ev;
    [|unfold ret; left; reflexivity].
  assert (Hv : 1 <= CreateInviteCodeRequest.MaxUses req <= 100).
  { apply validate_create_iff in Ev. unfold spec_valid_create in Ev.
    rewrite !andb_true_iff in Ev. lia. }
  unfold bind at 1. unfold CreateInviteCode. unfold bind at 1.
  pose proof (GenerateInviteCode_fuel_spec (S (List.length (entropy w))) w) as Hg.
  fold (GenerateInviteCode w) in Hg.
  destruct (GenerateInviteCode w) as [[code|e] w1].
  - destruct Hg as (Hdb1 & _).
    unfold bind at 1.
    match goal with |- context [Create_InviteCode ?x w1] =>
      pose proof (Create_InviteCode_spec x w1) as Hc;
      rewrite (InviteCode_defaults_id x eq_refl) in Hc by (simpl; lia);
      destruct (Create_InviteCode x w1) as [[row|e] w2]
    end.
    + destruct Hc as (Hrow & Hdb2 & _). unfold_m. simpl.
      right. exists row. subst row. rewrite Hdb2. rewrite !Hdb1. simpl. auto.
    + unfold_m. simpl. left. congruence.
  - destruct Hg as (Hdb1 & _). unfold_m. simpl. left. exact Hdb1.
Qed.

Lemma DeleteInviteCode_effect (id : Z) (w : World) :
  let (r, w') := DeleteInviteCode id w in
  db w' = db w \/
  exists now,
    db w' = with_invite_codes
              (map (fun r => if (InviteCode.ID r =? id) && negb (InviteCode.IsDeleted r)
                             then InviteCode.with_DeletedAt (Some now) r else r)
                   (invite_codes (db w)))
              (db w).
Proof.
  unfold DeleteInviteCode, Delete_InviteCode. unfold_m.
  destruct w as [d fs en pr cl lg]; simpl.
  destruct fs as [|[|] fs]; simpl; auto;
    destruct cl as [|t cl]; simpl;
    match goal with |- context [Z.of_nat ?n =? 0] => destruct (Z.of_nat n =? 0) end;
    simpl; right; eexists; reflexivity.
Qed.

Lemma run_op_inv (o : op) (w : World) :
  store_inv (db w) -> store_inv (db (snd (run_op o w))).
Proof.
  intros Hinv. destruct o as [auth body|code userID ip ua|id status|id]; simpl.
  - (* creation *)
    unfold bind.
    pose proof (CreateInviteCode_handler_effect auth body w) as H.
    destruct (CreateInviteCode_handler auth body w) as [resp w']; simpl in *.
    destruct H as [H|(row & H & Hid & Hu & Hm)]; rewrite H; [assumption|].
    apply store_inv_create; auto. lia.
  - (* redemption *)
    unfold bind.
    pose proof (UseInviteCode_spec code userID ip ua w) as H.
    destruct (UseInviteCode code userID ip ua w) as [[ic'|e] w']; simpl;
      [|rewrite H; assumption].
    destruct H as (ic & usedAt & Hst & Hc & Hic & Hdb). rewrite Hdb.
    apply stored_code_Some in Hst as (Hin & _ & _).
    apply CanBeUsed_true in Hc as (_ & Hlt & _).
    destruct (inv_counts _ Hinv ic Hin) as [Hcnt Hmax].
    assert (Hw : wrap_int (InviteCode.UsedCount ic + 1) = InviteCode.UsedCount ic + 1)
      by (apply wrap_int_id; unfold int_range; lia).
    apply store_inv_redeem with (ic := ic); auto; subst ic'; cbv zeta;
      destruct (InviteCode.UsedCount _ >=? InviteCode.MaxUses _); simpl; auto.
  - (* status update *)
    unfold bind.
    pose proof (UpdateInviteCodeStatus_spec id status w) as H.
    destruct (UpdateInviteCodeStatus id status w) as [r w']; simpl.
    destruct H as [H|(ic & Hin & _ & _ & H & _)]; rewrite H; [assumption|].
    rewrite (save_row_existing (InviteCode.with_Status status ic) ic _ Hin eq_refl).
    apply store_inv_map; [assumption|].
    intros r0 Hr0. simpl.
    destruct (InviteCode.ID r0 =? InviteCode.ID ic) eqn:E; auto.
    apply Z.eqb_eq in E.
    rewrite (NoDup_ID_eq _ r0 ic (inv_ids _ Hinv) Hr0 Hin E). simpl. auto.
  - (* soft delete *)
    unfold bind.
    pose proof (DeleteInviteCode_effect id w) as H.
    destruct (DeleteInviteCode id w) as [r w']; simpl in *.
    destruct H as [H|(now & H)]; rewrite H; [assumption|].
    apply store_inv_map; [assumption|].
    intros r0 _. destruct ((InviteCode.ID r0 =? id) && negb (InviteCode.IsDeleted r0));
      simpl; auto.
Qed.

Lemma run_ops_inv (os : list op) (w : World) :
  store_inv (db w) -> store_inv (db (snd (run_ops os w))).
Proof.
  revert w; induction os as [|o os IH]; intros w Hinv; simpl; [assumption|].
  unfold bind. pose proof (run_op_inv o w Hinv) as H.
  destruct (run_op o w) as [[] w1]. simpl in H. apply IH. assumption.
Qed.

(** C3: after any sequence of creations (through the handler),
    redemptions, status updates and soft deletes, run one after the
    other from the empty store, every row has
    [0 <= usedCount <= maxUses]; and a redemption that then succeeds
    stores a row whose status is [used] exactly when its counter has
    reached [maxUses]. *)
Theorem C3_counter_bounds_and_used_status :
  forall (os : list op) (w : World),
    db w = empty_db ->
    (forall r, In r (invite_codes (db (snd (run_ops os w)))) ->
               0 <= InviteCode.UsedCount r <= InviteCode.MaxUses r) /\
    (forall (w2 w3 : World) (code : string) (userID : Z) (ip ua : string)
            (ic : InviteCode.t),
        db w2 = db (snd (run_ops os w)) ->
        UseInviteCode code userID ip ua w2 = (Ok ic, w3) ->
        (InviteCode.Status ic = InviteCodeStatusUsed <->
         InviteCode.UsedCount ic = InviteCode.MaxUses ic) /\
        In ic (invite_codes (db w3)) /\
        (forall r, In r (invite_codes (db w3)) ->
                   InviteCode.ID r = InviteCode.ID ic -> r = ic) /\
        (forall r, In r (invite_codes (db w3)) ->
                   0 <= InviteCode.UsedCount r <= InviteCode.MaxUses r)).
Proof.
  intros os w Hw.
  assert (Hinv : store_inv (db (snd (run_ops os w))))
    by (apply run_ops_inv; rewrite Hw; apply store_inv_empty).
  split.
  - intros r Hr. apply (inv_counts _ Hinv r Hr).
  - intros w2 w3 code userID ip ua ic Hdb Hrun.
    rewrite <- Hdb in Hinv.
    pose proof (run_op_inv (OpRedeem code userID ip ua) w2 Hinv) as Hinv3.
    simpl in Hinv3. unfold bind in Hinv3. rewrite Hrun in Hinv3. simpl in Hinv3.
    pose proof (UseInviteCode_spec code userID ip ua w2) as Hs.
    rewrite Hrun in Hs. destruct Hs as (ic0 & usedAt & Hst & Hc & Hic & Hdb3).
    apply stored_code_Some in Hst as (Hin & _ & _).
    apply CanBeUsed_true in Hc as (Hact & Hlt & _).
    destruct (inv_counts _ Hinv ic0 Hin) as [Hcnt Hmax].
    assert (Hwrap : wrap_int (InviteCode.UsedCount ic0 + 1) = InviteCode.UsedCount ic0 + 1)
      by (apply wrap_int_id; unfold int_range; lia).
    assert (Hid : InviteCode.ID ic = InviteCode.ID ic0)
      by (subst ic; cbv zeta;
          destruct (InviteCode.UsedCount _ >=? InviteCode.MaxUses _); reflexivity).
    assert (Hrows : invite_codes (db w3) = save_row ic (invite_codes (db w2)))
      by (rewrite Hdb3; reflexivity).
    split; [|split; [|split]].
    + subst ic. cbv zeta. simpl. rewrite Hwrap.
      destruct (InviteCode.UsedCount ic0 + 1 >=? InviteCode.MaxUses ic0) eqn:E; simpl.
      * split; [intros _; lia|reflexivity].
      * rewrite Hact. split; [discriminate|lia].
    + rewrite Hrows, (save_row_existing ic ic0 _ Hin Hid).
      apply in_map_iff. exists ic0. split; [|assumption].
      rewrite Hid, Z.eqb_refl. reflexivity.
    + intros r Hr Hrid. rewrite Hrows in Hr.
      apply save_row_In in Hr as [Hr|[_ Hne]]; [assumption|contradiction].
    + intros r Hr. apply (inv_counts _ Hinv3 r Hr).
Qed.

Lemma C3_witness :
  db fresh_draw = empty_db /\
  db after_scenario_B = db (snd (run_ops scenario_B fresh_draw)) /\
  exists (ic : InviteCode.t) (w3 : World),
    UseInviteCode fresh_code 11 "unknown" "unknown" after_scenario_B = (Ok ic, w3) /\
    InviteCode.Status ic = InviteCodeStatusUsed /\
    InviteCode.UsedCount ic = InviteCode.MaxUses ic /\
    In ic (invite_codes (db w3)).
Proof.
  assert (Hw : db fresh_draw = empty_db) by reflexivity.
  assert (Hdb : db after_scenario_B = db (snd (run_ops scenario_B fresh_draw)))
    by reflexivity.
  destruct (UseInviteCode fresh_code 11 "unknown" "unknown" after_scenario_B)
    as [r w3] eqn:E.
  assert (Hr : exists ic, r = Ok ic /\ InviteCode.UsedCount ic = InviteCode.MaxUses ic)
    by (vm_compute in E; inversion E; subst; eexists; split; reflexivity).
  destruct Hr as (ic & -> & Hu).
  destruct (C3_counter_bounds_and_used_status scenario_B fresh_draw Hw) as [_ H].
  destruct (H after_scenario_B w3 fresh_code 11 "unknown" "unknown" ic Hdb E)
    as (Hiff & Hin & _ & _).
  split; [exact Hw | split; [exact Hdb|]].
  exists ic, w3. split; [reflexivity|].
  split; [apply Hiff; exact Hu | split; [exact Hu | exact Hin]].
Defined.

(** C8 (as amended): after any sequence of creations, redemptions,
    status updates and soft deletes, run one after the other from the
    empty store, the ledger total of every code equals its [usedCount]. *)
Theorem C8_ledger_total_equals_used_count :
  forall (os : list op) (w : World),
    db w = empty_db ->
    forall r, In r (invite_codes (db (snd (run_ops os w)))) ->
              usage_total (db (snd (run_ops os w))) (InviteCode.ID r)
              = InviteCode.UsedCount r.
Proof.
  intros os w Hw.
  assert (Hinv : store_inv (db (snd (run_ops os w))))
    by (apply run_ops_inv; rewrite Hw; apply store_inv_empty).
  exact (inv_ledger _ Hinv).
Qed.

Lemma C8_witness :
  db fresh_draw = empty_db /\
  exists r, In r (invite_codes (db after_scenario_B)) /\
            usage_total (db after_scenario_B) (InviteCode.ID r) = 2 /\
            InviteCode.UsedCount r = 2.
Proof.
  assert (Hw : db fresh_draw = empty_db) by reflexivity.
  split; [exact Hw|].
  exists (InviteCode.mk 1 fresh_code 7 "active" 3 2 "team invite" "" None).
  assert (Hin : In (InviteCode.mk 1 fresh_code 7 "active" 3 2 "team invite" "" None)
                   (invite_codes (db (snd (run_ops scenario_B fresh_draw)))))
    by (vm_compute; left; reflexivity).
  pose proof (C8_ledger_total_equals_used_count scenario_B fresh_draw Hw _ Hin) as H.
  split; [exact Hin | split; [exact H | reflexivity]].
Defined.

(** [CreateUsageRecord] inserts a ledger entry and leaves the counter. *)
Lemma C8_counterexample :
  exists r, In r (invite_codes (db after_stray_record)) /\
            usage_total (db after_stray_record) (InviteCode.ID r) = 1 /\
            InviteCode.UsedCount r = 0.
Proof.
  exists (InviteCode.mk 1 fresh_code 7 "active" 3 0 "team invite" "" None).
  split; [vm_compute; left; reflexivity | split; reflexivity].
Qed.

(** ** Overlapping redemptions *)

(** One attempt run without interruption is [UseInviteCode]. *)
Lemma step_attempt_twice (code : string) (userID : Z) (ip ua : string) (w : World) :
  (a <- step_attempt (Pending code userID ip ua) ;; step_attempt a) w
  = (r <- UseInviteCode code userID ip ua ;; ret (Done r)) w.
Proof.
  unfold step_attempt at 1, UseInviteCode. unfold_m.
  destruct (ValidateInviteCode code w) as [[ic|e] w1]; reflexivity.
Qed.

Lemma set_nth_Forall {A : Type} (P : A -> Prop) (i : nat) (x : A) (l : list A) :
  Forall P l -> P x -> Forall P (set_nth i x l).
Proof.
  intros Hl Hx. revert i. induction Hl as [|y l Hy Hl IH]; intros i;
    destruct i; simpl; constructor; auto.
Qed.

Lemma step_attempt_bounded (a : attempt) (w : World) :
  (forall r, In r (invite_codes (db w)) -> row_ok r) ->
  attempt_ok a ->
  let (a', w') := step_attempt a w in
  (forall r, In r (invite_codes (db w')) -> row_ok r) /\ attempt_ok a'.
Proof.
  intros Hrows Ha. destruct a as [code userID ip ua|tx ic userID ip ua|r]; simpl.
  - unfold bind at 1. unfold tx_Begin, ret at 1. unfold bind at 1.
    pose proof (ValidateInviteCode_spec code w) as Hv.
    destruct (ValidateInviteCode code w) as [[ic|e] w1].
    + destruct Hv as (Hdb & _ & _ & _ & _ & _ & Hst & Hc). unfold ret.
      rewrite Hdb. split; [assumption|]. simpl.
      apply stored_code_Some in Hst as (Hin & _ & _).
      apply CanBeUsed_true in Hc as (_ & Hlt & _). auto.
    + destruct Hv as (Hdb & _). unfold tx_Rollback, bind, ret. simpl.
      rewrite Hdb. auto.
  - destruct Ha as (-> & Hok & Hlt). unfold bind.
    pose proof (UseInviteCode_tx_spec ic userID ip ua w) as Ht. cbv zeta in Ht.
    destruct (UseInviteCode_tx [] ic userID ip ua w) as [[ic'|e] w1]; unfold ret.
    + destruct Ht as (Hic & usedAt & Hdb). split; [|exact I].
      rewrite Hdb. simpl. intros r Hr.
      apply save_row_In in Hr as [->|[Hr _]]; [|auto].
      destruct Hok as [Hc Hm].
      assert (Hw : wrap_int (InviteCode.UsedCount ic + 1) = InviteCode.UsedCount ic + 1)
        by (apply wrap_int_id; unfold int_range; lia).
      subst ic'. unfold row_ok.
      cbn [InviteCode.UsedCount InviteCode.MaxUses InviteCode.with_UsedCount
           InviteCode.with_Status].
      rewrite Hw.
      destruct (InviteCode.UsedCount ic + 1 >=? InviteCode.MaxUses ic);
        cbn [InviteCode.UsedCount InviteCode.MaxUses InviteCode.with_UsedCount
             InviteCode.with_Status]; lia.
    + rewrite Ht. split; [assumption | exact I].
  - unfold ret. split; [assumption | exact I].
Qed.

(** However the attempts interleave, no counter passes its cap. *)
Lemma run_schedule_bounded (sched : list nat) (attempts : list attempt) (w : World) :
  (forall r, In r (invite_codes (db w)) -> row_ok r) ->
  Forall attempt_ok attempts ->
  forall r, In r (invite_codes (db (snd (run_schedule sched attempts w)))) ->
            0 <= InviteCode.UsedCount r <= InviteCode.MaxUses r.
Proof.
  revert attempts w. induction sched as [|i sched IH]; intros attempts w Hrows Has; simpl.
  - intros r Hr. apply Hrows. assumption.
  - destruct (nth_error attempts i) as [a|] eqn:E; [|apply IH; assumption].
    unfold bind.
    assert (Ha : attempt_ok a).
    { rewrite Forall_forall in Has. apply Has. eapply nth_error_In. eassumption. }
    pose proof (step_attempt_bounded a w Hrows Ha) as Hs.
    destruct (step_attempt a w) as [a' w1]. destruct Hs as [Hrows1 Ha'].
    apply IH; [assumption|]. apply set_nth_Forall; assumption.
Qed.

(** C1: two requests redeem a code with [maxUses = 1]; both validate
    before either commits. Both succeed, the counter stops at 1 and the
    ledger holds two entries. *)
Theorem C1_overlapping_redemptions_oversell :
  let (final, w') := run_schedule [0; 1; 0; 1]%nat two_attempts single_use in
  map succeeded final = [true; true] /\
  map InviteCode.MaxUses (invite_codes (db w')) = [1] /\
  map InviteCode.UsedCount (invite_codes (db w')) = [1] /\
  map InviteCodeUsage.UsedByID (invite_code_usages (db w')) = [9; 10].
Proof.
  vm_compute. repeat split.
Qed.

(** The same two requests, one after the other. *)
Example serial_redemptions_do_not_oversell :
  let (final, w') := run_schedule [0; 0; 1; 1]%nat two_attempts single_use in
  map succeeded final = [true; false] /\
  map (failed_with "invite code has reached maximum uses") final = [false; true] /\
  map InviteCodeUsage.UsedByID (invite_code_usages (db w')) = [9].
Proof.
  vm_compute. repeat split.
Qed.

(** * Further properties of the services *)

(** ** Lookups after writes *)

Lemma min_by_map {A : Type} (key : A -> Z) (f : A -> A) (l : list A) :
  (forall x, In x l -> key (f x) = key x) ->
  min_by key (map f l) = option_map f (min_by key l).
Proof.
  induction l as [|a l IH]; intros Hk; simpl; [reflexivity|].
  rewrite IH by (intros x Hx; apply Hk; simpl; auto).
  destruct (min_by key l) as [y|] eqn:E; simpl; [|reflexivity].
  rewrite (Hk a) by (simpl; auto).
  rewrite (Hk y) by (simpl; right; eapply min_by_In; eassumption).
  destruct (key a <=? key y); reflexivity.
Qed.

Lemma filter_map_commute {A : Type} (p : A -> bool) (f : A -> A) (l : list A) :
  (forall x, In x l -> p (f x) = p x) ->
  filter p (map f l) = map f (filter p l).
Proof.
  induction l as [|a l IH]; intros Hp; simpl; [reflexivity|].
  rewrite (Hp a) by (simpl; auto).
  rewrite IH by (intros x Hx; apply Hp; simpl; auto).
  destruct (p a); reflexivity.
Qed.

(** Saving a new version of a stored row that keeps its code and its
    deletion stamp: the lookup by code finds the new version. *)
Lemma stored_code_after_save (d : DB) (code : string) (ic ic' : InviteCode.t)
    (usages : list InviteCodeUsage.t) (useq : Z) :
  stored_code d code = Some ic ->
  InviteCode.ID ic' = InviteCode.ID ic ->
  InviteCode.Code ic' = InviteCode.Code ic ->
  InviteCode.DeletedAt ic' = InviteCode.DeletedAt ic ->
  (forall r, In r (invite_codes d) -> InviteCode.ID r = InviteCode.ID ic -> r = ic) ->
  stored_code (mkDB (save_row ic' (invite_codes d)) usages (users d)
                    (invite_codes_seq d) useq (users_seq d)) code = Some ic'.
Proof.
  intros Hs Hid Hcode Hdel Huniq.
  pose proof (stored_code_Some d code ic Hs) as (Hin & Hc & Hd).
  unfold stored_code, live_invite_codes in *. simpl.
  unfold save_row.
  assert (He : existsb (fun r => InviteCode.ID r =? InviteCode.ID ic') (invite_codes d)
               = true).
  { apply existsb_exists. exists ic. split; [assumption|]. apply Z.eqb_eq. auto. }
  rewrite He.
  set (f := fun r => if InviteCode.ID r =? InviteCode.ID ic' then ic' else r).
  assert (Hf : forall r, In r (invite_codes d) ->
                 InviteCode.ID (f r) = InviteCode.ID r /\
                 InviteCode.Code (f r) = InviteCode.Code r /\
                 InviteCode.DeletedAt (f r) = InviteCode.DeletedAt r).
  { intros r Hr. unfold f. destruct (InviteCode.ID r =? InviteCode.ID ic') eqn:E; auto.
    apply Z.eqb_eq in E. rewrite Hid in E. rewrite (Huniq r Hr E). auto. }
  rewrite filter_map_commute.
  2:{ intros r Hr. destruct (Hf r Hr) as (_ & _ & Hd'). unfold InviteCode.IsDeleted.
      rewrite Hd'. reflexivity. }
  rewrite filter_map_commute.
  2:{ intros r Hr. apply filter_In in Hr as [Hr _].
      destruct (Hf r Hr) as (_ & Hc' & _). rewrite Hc'. reflexivity. }
  rewrite min_by_map.
  2:{ intros r Hr. apply filter_In in Hr as [Hr _]. apply filter_In in Hr as [Hr _].
      apply (Hf r Hr). }
  rewrite Hs. simpl. unfold f. rewrite <- Hid, Z.eqb_refl. reflexivity.
Qed.

Lemma UseInviteCode_quiet (code : string) (userID : Z) (ip ua : string) (w : World) :
  faults w = [] ->
  exists w',
    faults w' = [] /\
    UseInviteCode code userID ip ua w =
    (match stored_code (db w) code with
     | None => Err (Errorf "invite code not found")
     | Some ic =>
         if negb (InviteCode.CanBeUsed ic) then
           if InviteCode.IsExhausted ic
           then Err (Errorf "invite code has reached maximum uses")
           else Err (Errorf "invite code is not active")
         else Ok (redeemed ic)
     end, w') /\
    db w' =
    match stored_code (db w) code with
    | None => db w
    | Some ic =>
        if negb (InviteCode.CanBeUsed ic) then db w
        else insert_usage
               (InviteCodeUsage.mk 0 (InviteCode.ID (redeemed ic)) userID
                                   (match clock w with [] => 0 | t :: _ => t end)
                                   ip ua None)
               (with_invite_codes (save_row (redeemed ic) (invite_codes (db w))) (db w))
    end.
Proof.
  intros Hf. unfold UseInviteCode. unfold bind at 1. unfold tx_Begin, ret at 1.
  unfold bind at 1. rewrite (ValidateInviteCode_quiet w code Hf).
  destruct (stored_code (db w) code) as [ic|].
  2:{ exists w. unfold tx_Rollback, bind, ret. auto. }
  destruct (negb (InviteCode.CanBeUsed ic)).
  { exists w. destruct (InviteCode.IsExhausted ic); unfold tx_Rollback, bind, ret; auto. }
  destruct w as [d fs en pr cl lg]. simpl in Hf. subst fs.
  unfold UseInviteCode_tx. unfold_m. simpl.
  destruct cl as [|t cl]; simpl; eexists;
    (split; [|split; [reflexivity|]]); reflexivity.
Qed.

Lemma ids_unique_same (d : DB) (ic ic' : InviteCode.t) :
  ids_unique d -> In ic (invite_codes d) ->
  forall r, In r (invite_codes d) -> InviteCode.ID r = InviteCode.ID ic -> r = ic.
Proof.
  intros Hu Hin r Hr Hid. eapply NoDup_ID_eq; eauto.
Qed.

Lemma redeemed_fields (ic : InviteCode.t) :
  InviteCode.ID (redeemed ic) = InviteCode.ID ic /\
  InviteCode.Code (redeemed ic) = InviteCode.Code ic /\
  InviteCode.DeletedAt (redeemed ic) = InviteCode.DeletedAt ic /\
  InviteCode.MaxUses (redeemed ic) = InviteCode.MaxUses ic /\
  InviteCode.UsedCount (redeemed ic) = wrap_int (InviteCode.UsedCount ic + 1).
Proof.
  unfold redeemed. cbv zeta.
  destruct (InviteCode.UsedCount _ >=? InviteCode.MaxUses _); simpl; auto.
Qed.

(** X1: the record a successful [UseInviteCode] returns is the one
    stored: a lookup by the same code right after it finds exactly that
    record, and identifiers stay unique. *)
Theorem redeemed_row_is_what_lookup_returns :
  forall (code : string) (userID : Z) (ip ua : string) (w w' : World)
         (ic' : InviteCode.t),
    ids_unique (db w) ->
    UseInviteCode code userID ip ua w = (Ok ic', w') ->
    stored_code (db w') code = Some ic' /\
    ids_unique (db w') /\
    (no_fault w' -> fst (GetInviteCodeByCode code w') = Ok ic').
Proof.
  intros code userID ip ua w w' ic' Hu Hrun.
  pose proof (UseInviteCode_spec code userID ip ua w) as Hs. rewrite Hrun in Hs.
  destruct Hs as (ic & usedAt & Hst & Hc & Hic & Hdb).
  pose proof (stored_code_Some _ _ _ Hst) as (Hin & _ & _).
  assert (Hic' : ic' = redeemed ic) by exact Hic. clear Hic. subst ic'.
  assert (Hdb2 : db w' = insert_usage
                           (InviteCodeUsage.mk 0 (InviteCode.ID ic) userID usedAt ip ua None)
                           (with_invite_codes
                              (save_row (redeemed ic) (invite_codes (db w))) (db w)))
    by exact Hdb.
  clear Hdb. rename Hdb2 into Hdb.
  destruct (redeemed_fields ic) as (Hid & Hcode & Hdel & _ & _).
  assert (Hst' : stored_code (db w') code = Some (redeemed ic)).
  { rewrite Hdb. unfold insert_usage, with_invite_codes. simpl.
    apply stored_code_after_save with (ic := ic); auto.
    apply ids_unique_same; assumption. }
  split; [exact Hst'|]. split.
  - unfold ids_unique. rewrite Hdb. unfold insert_usage, with_invite_codes.
    cbn [invite_codes].
    rewrite (save_row_IDs (redeemed ic) ic _ Hin Hid). exact Hu.
  - intros Hnf. unfold GetInviteCodeByCode, First_InviteCode.
    unfold bind at 1. unfold bind at 1.
    destruct (store_call_no_fault w' Hnf) as (Hfst & _ & Hdb' & _).
    destruct (store_call w') as [f w1]. simpl in *. subst f.
    unfold bind, get_db, ret. fold (stored_code (db w1) code).
    rewrite Hdb', Hst'. reflexivity.
Qed.

Lemma redeemed_row_is_what_lookup_returns_witness :
  ids_unique (db three_uses) /\
  UseInviteCode sample_code 9 "unknown" "unknown" three_uses
  = (Ok (sample_row 3 1 "active"),
     snd (UseInviteCode sample_code 9 "unknown" "unknown" three_uses)) /\
  fst (GetInviteCodeByCode sample_code
         (snd (UseInviteCode sample_code 9 "unknown" "unknown" three_uses)))
  = Ok (sample_row 3 1 "active").
Proof.
  assert (Hu : ids_unique (db three_uses))
    by (repeat constructor; simpl; intros []).
  assert (Hrun : UseInviteCode sample_code 9 "unknown" "unknown" three_uses
                 = (Ok (sample_row 3 1 "active"),
                    snd (UseInviteCode sample_code 9 "unknown" "unknown" three_uses)))
    by reflexivity.
  destruct (redeemed_row_is_what_lookup_returns sample_code 9 "unknown" "unknown"
              three_uses _ _ Hu Hrun) as (_ & _ & Hget).
  split; [exact Hu | split; [exact Hrun | apply Hget; constructor]].
Defined.

Lemma CanBeUsed_false_exhausted (ic : InviteCode.t) :
  InviteCode.UsedCount ic >= InviteCode.MaxUses ic ->
  InviteCode.CanBeUsed ic = false /\ InviteCode.IsExhausted ic = true.
Proof.
  intros H. unfold InviteCode.CanBeUsed, InviteCode.IsActive, InviteCode.IsExhausted.
  assert (E : (InviteCode.UsedCount ic >=? InviteCode.MaxUses ic) = true)
    by (apply Z.geb_le; lia).
  rewrite E. destruct (negb _); auto.
Qed.

Lemma CanBeUsed_intro (ic : InviteCode.t) :
  InviteCode.Status ic = InviteCodeStatusActive ->
  InviteCode.UsedCount ic < InviteCode.MaxUses ic ->
  InviteCode.DeletedAt ic = None ->
  InviteCode.CanBeUsed ic = true.
Proof.
  intros Hs Hu Hd. unfold InviteCode.CanBeUsed, InviteCode.IsActive, InviteCode.IsDeleted.
  rewrite Hs, Hd. simpl.
  assert (E : (InviteCode.UsedCount ic >=? InviteCode.MaxUses ic) = false).
  { destruct (InviteCode.UsedCount ic >=? InviteCode.MaxUses ic) eqn:E; [|reflexivity].
    apply Z.geb_le in E. lia. }
  rewrite E. reflexivity.
Qed.

(** X2: requests that redeem one code one after the other, with a
    store that does not fail: exactly as many succeed as uses were left,
    every later one fails with the exhausted error, and the counter and
    the ledger total of the code grow by the number of successes. *)
Theorem serial_redemptions_stop_at_the_cap :
  forall (userIDs : list Z) (code : string) (w : World) (ic : InviteCode.t),
    faults w = [] ->
    ids_unique (db w) ->
    stored_code (db w) code = Some ic ->
    (InviteCode.UsedCount ic < InviteCode.MaxUses ic ->
     InviteCode.Status ic = InviteCodeStatusActive) ->
    0 <= InviteCode.UsedCount ic <= InviteCode.MaxUses ic ->
    InviteCode.MaxUses ic < 2 ^ 63 ->
    let n := Z.to_nat (Z.min (Z.of_nat (List.length userIDs))
                             (InviteCode.MaxUses ic - InviteCode.UsedCount ic)) in
    let (rs, w') := redeem_all code userIDs w in
    List.length rs = List.length userIDs /\
    forallb is_ok (firstn n rs) = true /\
    forallb is_exhausted_error (skipn n rs) = true /\
    exists ic',
      stored_code (db w') code = Some ic' /\
      InviteCode.UsedCount ic' = InviteCode.UsedCount ic + Z.of_nat n /\
      InviteCode.MaxUses ic' = InviteCode.MaxUses ic /\
      usage_total (db w') (InviteCode.ID ic)
      = usage_total (db w) (InviteCode.ID ic) + Z.of_nat n.
Proof.
  induction userIDs as [|u us IH]; intros code w ic Hf Hu Hst Hact Hb Hm; cbv zeta.
  - assert (Hn : Z.to_nat (Z.min (Z.of_nat (@List.length Z []))
                                 (InviteCode.MaxUses ic - InviteCode.UsedCount ic)) = O)
      by (simpl; lia).
    rewrite Hn. simpl. unfold ret.
    split; [reflexivity|]. split; [reflexivity|]. split; [reflexivity|].
    exists ic. rewrite !Z.add_0_r. auto.
  - cbn [redeem_all]. unfold bind at 1.
    destruct (UseInviteCode_quiet code u "unknown" "unknown" w Hf) as (w1 & Hf1 & Hrun & Hdb).
    rewrite Hrun. rewrite Hst in *. clear Hrun.
    pose proof (stored_code_Some _ _ _ Hst) as (Hin & _ & Hdel).
    destruct (Z_lt_ge_dec (InviteCode.UsedCount ic) (InviteCode.MaxUses ic)) as [Hlt|Hge].
    + (* a use is left *)
      rewrite (CanBeUsed_intro ic (Hact Hlt) Hlt Hdel) in *. simpl negb in *. cbv iota in *.
      destruct (redeemed_fields ic) as (Hid & Hcode & Hdl & Hmax & Huc).
      rewrite wrap_int_id in Huc by (unfold int_range; lia).
      assert (Hst1 : stored_code (db w1) code = Some (redeemed ic)).
      { rewrite Hdb. unfold insert_usage, with_invite_codes. simpl.
        apply stored_code_after_save with (ic := ic); auto.
        apply ids_unique_same; assumption. }
      assert (Hu1 : ids_unique (db w1)).
      { unfold ids_unique. rewrite Hdb. unfold insert_usage, with_invite_codes.
        cbn [invite_codes]. rewrite (save_row_IDs (redeemed ic) ic _ Hin Hid). exact Hu. }
      assert (Hact1 : InviteCode.UsedCount (redeemed ic) < InviteCode.MaxUses (redeemed ic) ->
                      InviteCode.Status (redeemed ic) = InviteCodeStatusActive).
      { rewrite Huc, Hmax. intros Hlt1. unfold redeemed. cbv zeta. simpl.
        rewrite wrap_int_id by (unfold int_range; lia).
        assert (E : (InviteCode.UsedCount ic + 1 >=? InviteCode.MaxUses ic) = false).
        { destruct (_ >=? _) eqn:E; [|reflexivity]. apply Z.geb_le in E. lia. }
        rewrite E. simpl. auto. }
      specialize (IH code w1 (redeemed ic) Hf1 Hu1 Hst1 Hact1).
      rewrite Huc, Hmax in IH. specialize (IH ltac:(lia) Hm). cbv zeta in IH.
      unfold bind at 1.
      destruct (redeem_all code us w1) as [rs w2].
      destruct IH as (Hlen & Hok & Hex & ic' & Hst2 & Huc2 & Hmax2 & Hled).
      unfold ret.
      assert (Hn : Z.to_nat (Z.min (Z.of_nat (List.length (u :: us)))
                                   (InviteCode.MaxUses ic - InviteCode.UsedCount ic))
                   = S (Z.to_nat (Z.min (Z.of_nat (List.length us))
                                        (InviteCode.MaxUses ic - (InviteCode.UsedCount ic + 1))))).
      { cbn [List.length]. lia. }
      rewrite Hn. cbn [firstn skipn forallb is_ok List.length andb].
      split; [congruence|]. split; [exact Hok|]. split; [exact Hex|].
      exists ic'. split; [exact Hst2|]. split; [lia|]. split; [exact Hmax2|].
      rewrite Hid in Hled. rewrite Hled, Hdb.
      rewrite usage_total_insert by reflexivity.
      rewrite usage_total_with_invite_codes. simpl.
      rewrite Hid, Z.eqb_refl. lia.
    + (* the code is exhausted *)
      destruct (CanBeUsed_false_exhausted ic Hge) as [Hc He].
      rewrite Hc, He in *. simpl negb in *. cbv iota in *.
      assert (Hst1 : stored_code (db w1) code = Some ic) by (rewrite Hdb; exact Hst).
      assert (Hu1 : ids_unique (db w1)) by (rewrite Hdb; exact Hu).
      specialize (IH code w1 ic Hf1 Hu1 Hst1 Hact Hb Hm). cbv zeta in IH.
      unfold bind at 1.
      destruct (redeem_all code us w1) as [rs w2].
      destruct IH as (Hlen & Hok & Hex & ic' & Hst2 & Huc2 & Hmax2 & Hled).
      unfold ret.
      assert (Hn : Z.to_nat (Z.min (Z.of_nat (List.length (u :: us)))
                                   (InviteCode.MaxUses ic - InviteCode.UsedCount ic)) = O)
        by lia.
      assert (Hn' : Z.to_nat (Z.min (Z.of_nat (List.length us))
                                    (InviteCode.MaxUses ic - InviteCode.UsedCount ic)) = O)
        by lia.
      rewrite Hn in *. rewrite Hn' in *.
      cbn [firstn skipn forallb is_exhausted_error List.length andb] in *.
      split; [congruence|]. split; [reflexivity|]. split; [exact Hex|].
      exists ic'. rewrite Hdb in Hled. auto.
Qed.

Lemma serial_redemptions_stop_at_the_cap_witness :
  faults three_uses = [] /\
  ids_unique (db three_uses) /\
  stored_code (db three_uses) sample_code = Some (sample_row 3 0 "active") /\
  let (rs, w') := redeem_all sample_code [9; 10; 11; 12; 13] three_uses in
  List.length rs = 5%nat /\
  forallb is_ok (firstn 3 rs) = true /\
  forallb is_exhausted_error (skipn 3 rs) = true /\
  exists ic',
    stored_code (db w') sample_code = Some ic' /\
    InviteCode.UsedCount ic' = 3 /\
    InviteCode.MaxUses ic' = 3 /\
    usage_total (db w') 1 = 3.
Proof.
  assert (Hf : faults three_uses = []) by reflexivity.
  assert (Hu : ids_unique (db three_uses))
    by (repeat constructor; simpl; intros []).
  assert (Hs : stored_code (db three_uses) sample_code = Some (sample_row 3 0 "active"))
    by reflexivity.
  split; [exact Hf | split; [exact Hu | split; [exact Hs|]]].
  exact (serial_redemptions_stop_at_the_cap [9; 10; 11; 12; 13] sample_code three_uses
           (sample_row 3 0 "active") Hf Hu Hs (fun _ => eq_refl)
           ltac:(simpl; lia) ltac:(simpl; lia)).
Defined.

(** ** Validation *)

Lemma ValidateInviteCode_no_fault (code : string) (w : World) :
  no_fault w ->
  fst (ValidateInviteCode code w) = fst (ValidateInviteCode code (quiet (db w))).
Proof.
  intros Hnf. rewrite (ValidateInviteCode_quiet (quiet (db w)) code eq_refl).
  unfold ValidateInviteCode, GetInviteCodeByCode, First_InviteCode.
  unfold bind at 1. unfold bind at 1. unfold bind at 1.
  destruct (store_call_no_fault w Hnf) as (Hfst & _ & Hdb & _).
  destruct (store_call w) as [f w1]. simpl in Hfst, Hdb. subst f.
  unfold bind, get_db, ret. fold (stored_code (db w1) code). rewrite Hdb. simpl.
  destruct (stored_code (db w) code) as [ic|]; [|reflexivity].
  destruct (negb (InviteCode.CanBeUsed ic)); [|reflexivity].
  destruct (InviteCode.IsExhausted ic); reflexivity.
Qed.

(** X3: [ValidateInviteCode] never writes to the store or to the log,
    and with a store that does not fail its answer depends on the store
    alone: validating again, any number of times, gives the same answer. *)
Theorem validation_reads_only_and_repeats :
  forall (code : string) (w : World),
    let (r, w1) := ValidateInviteCode code w in
    db w1 = db w /\ log w1 = log w /\
    (no_fault w ->
     forall w2, db w2 = db w -> no_fault w2 -> fst (ValidateInviteCode code w2) = r).
Proof.
  intros code w.
  pose proof (ValidateInviteCode_spec code w) as Hs.
  pose proof (ValidateInviteCode_no_fault code w) as Hq.
  destruct (ValidateInviteCode code w) as [r w1].
  destruct Hs as (Hdb & _ & _ & _ & _ & Hlog & _).
  split; [exact Hdb|]. split; [exact Hlog|].
  intros Hnf w2 Hdb2 Hnf2. simpl in Hq.
  rewrite (ValidateInviteCode_no_fault code w2 Hnf2), Hdb2. symmetry. auto.
Qed.

Lemma validation_reads_only_and_repeats_witness :
  no_fault three_uses /\
  fst (ValidateInviteCode sample_code
         (snd (ValidateInviteCode sample_code three_uses)))
  = fst (ValidateInviteCode sample_code three_uses).
Proof.
  assert (Hnf : no_fault three_uses) by constructor.
  pose proof (validation_reads_only_and_repeats sample_code three_uses) as H.
  destruct (ValidateInviteCode sample_code three_uses) as [r w1] eqn:E.
  destruct H as (Hdb & _ & H).
  split; [exact Hnf|]. simpl.
  apply (H Hnf w1 Hdb).
  inversion E. constructor.
Defined.

(** ** Creation, then validation *)

Lemma CreateInviteCode_spec (createdByID : Z) (req : CreateInviteCodeRequest.t)
    (w : World) :
  let (r, w') := CreateInviteCode createdByID req w in
  match r with
  | Ok row =>
      exists code,
        row = InviteCode.with_ID (invite_codes_seq (db w) + 1)
                (InviteCode_defaults
                   (InviteCode.mk 0 code createdByID InviteCodeStatusActive
                                  (CreateInviteCodeRequest.MaxUses req) 0
                                  (CreateInviteCodeRequest.Description req) "" None)) /\
        db w' = mkDB (invite_codes (db w) ++ [row]) (invite_code_usages (db w))
                     (users (db w)) (invite_codes_seq (db w) + 1)
                     (invite_code_usages_seq (db w)) (users_seq (db w)) /\
        (forall r0, In r0 (invite_codes (db w)) ->
                    InviteCode.Code r0 <> InviteCode.Code row)
  | Err _ => db w' = db w
  end.
Proof.
  unfold CreateInviteCode. unfold bind at 1.
  pose proof (GenerateInviteCode_fuel_spec (S (List.length (entropy w))) w) as Hg.
  fold (GenerateInviteCode w) in Hg.
  destruct (GenerateInviteCode w) as [[code|e] w1].
  - destruct Hg as (Hdb1 & _). unfold bind at 1.
    match goal with |- context [Create_InviteCode ?x w1] =>
      pose proof (Create_InviteCode_spec x w1) as Hc;
      destruct (Create_InviteCode x w1) as [[row|e] w2]
    end.
    + destruct Hc as (Hrow & Hdb2 & Hfresh). unfold_m. simpl.
      exists code. rewrite Hdb1 in *. auto.
    + unfold_m. simpl. congruence.
  - destruct Hg as (Hdb1 & _). unfold ret. exact Hdb1.
Qed.

Lemma stored_code_appended (rows : list InviteCode.t) (row : InviteCode.t)
    (us : list InviteCodeUsage.t) (usr : list User.t) (s1 s2 s3 : Z) :
  (forall r0, In r0 rows -> InviteCode.Code r0 <> InviteCode.Code row) ->
  InviteCode.DeletedAt row = None ->
  stored_code (mkDB (rows ++ [row]) us usr s1 s2 s3) (InviteCode.Code row) = Some row.
Proof.
  intros Hfresh Hd. unfold stored_code, live_invite_codes. simpl.
  rewrite !filter_app. simpl. unfold InviteCode.IsDeleted at 2. rewrite Hd. simpl.
  rewrite String.eqb_refl.
  assert (Hnil : filter (fun r => (InviteCode.Code r =? InviteCode.Code row)%string)
                        (filter (fun r => negb (InviteCode.IsDeleted r)) rows) = []).
  { induction rows as [|a rows IH]; simpl; [reflexivity|].
    assert (Ha : (InviteCode.Code a =? InviteCode.Code row)%string = false)
      by (apply String.eqb_neq; apply Hfresh; simpl; auto).
    destruct (negb (InviteCode.IsDeleted a)); simpl; rewrite ?Ha;
      apply IH; intros r0 Hr0; apply Hfresh; simpl; auto. }
  rewrite Hnil. reflexivity.
Qed.

(** X4: a code created with [maxUses >= 1] is stored as returned, with
    the requested [maxUses], [usedCount = 0] and the creator's id, and a
    validation of it right away succeeds with that record. *)
Theorem created_code_validates :
  forall (createdByID : Z) (req : CreateInviteCodeRequest.t) (w w1 : World)
         (row : InviteCode.t),
    CreateInviteCode createdByID req w = (Ok row, w1) ->
    1 <= CreateInviteCodeRequest.MaxUses req ->
    InviteCode.MaxUses row = CreateInviteCodeRequest.MaxUses req /\
    InviteCode.UsedCount row = 0 /\
    InviteCode.CreatedByID row = createdByID /\
    stored_code (db w1) (InviteCode.Code row) = Some row /\
    (forall w2, db w2 = db w1 -> no_fault w2 ->
                fst (ValidateInviteCode (InviteCode.Code row) w2) = Ok row).
Proof.
  intros createdByID req w w1 row Hrun Hmax.
  pose proof (CreateInviteCode_spec createdByID req w) as Hs. rewrite Hrun in Hs.
  destruct Hs as (code & Hrow & Hdb & Hfresh).
  rewrite InviteCode_defaults_id in Hrow by (simpl; auto; lia).
  assert (Hst : stored_code (db w1) (InviteCode.Code row) = Some row).
  { rewrite Hdb. apply stored_code_appended; [assumption|]. subst row. reflexivity. }
  subst row. simpl. repeat split.
  - exact Hst.
  - intros w2 Hdb2 Hnf2.
    rewrite (ValidateInviteCode_no_fault _ w2 Hnf2).
    rewrite (ValidateInviteCode_quiet (quiet (db w2)) _ eq_refl). simpl.
    rewrite Hdb2. simpl in Hst. rewrite Hst.
    rewrite CanBeUsed_intro; simpl; auto. lia.
Qed.

Lemma created_code_validates_witness :
  CreateInviteCode 7 team_invite fresh_draw
  = (Ok (InviteCode.mk 1 fresh_code 7 "active" 3 0 "team invite" "" None),
     snd (CreateInviteCode 7 team_invite fresh_draw)) /\
  1 <= CreateInviteCodeRequest.MaxUses team_invite /\
  fst (ValidateInviteCode fresh_code (snd (CreateInviteCode 7 team_invite fresh_draw)))
  = Ok (InviteCode.mk 1 fresh_code 7 "active" 3 0 "team invite" "" None).
Proof.
  assert (Hrun : CreateInviteCode 7 team_invite fresh_draw
                 = (Ok (InviteCode.mk 1 fresh_code 7 "active" 3 0 "team invite" "" None),
                    snd (CreateInviteCode 7 team_invite fresh_draw)))
    by reflexivity.
  assert (Hm : 1 <= CreateInviteCodeRequest.MaxUses team_invite) by (simpl; lia).
  destruct (created_code_validates 7 team_invite fresh_draw _ _ Hrun Hm)
    as (_ & _ & _ & _ & Hv).
  split; [exact Hrun | split; [exact Hm|]].
  apply (Hv _ eq_refl). constructor.
Defined.


(** ** Soft delete *)

Lemma DeleteInviteCode_cases (id : Z) (w : World) :
  let (r, w') := DeleteInviteCode id w in
  (exists e, r = Err (Wrapf "failed to delete invite code" e) /\ db w' = db w /\
             nth 0 (faults w) false = true) \/
  (exists now,
      db w' = with_invite_codes
                (map (fun r => if delete_hits id r
                               then InviteCode.with_DeletedAt (Some now) r else r)
                     (invite_codes (db w)))
                (db w) /\
      r = (if Z.of_nat (List.length (filter (delete_hits id) (invite_codes (db w)))) =? 0
           then Err (Errorf "invite code not found") else Ok tt) /\
      nth 0 (faults w) false = false).
Proof.
  unfold DeleteInviteCode, Delete_InviteCode. unfold_m. fold (delete_hits id).
  destruct w as [d fs en pr cl lg]; simpl.
  destruct fs as [|[|] fs]; simpl; eauto;
    destruct cl as [|t cl]; simpl;
    destruct (Z.of_nat _ =? 0) eqn:E; simpl; right; eexists;
    (split; [reflexivity|]); auto.
Qed.

Lemma map_no_hit (id : Z) (now : Z) (rows : list InviteCode.t) :
  filter (delete_hits id) rows = [] ->
  map (fun r => if delete_hits id r then InviteCode.with_DeletedAt (Some now) r else r)
      rows = rows.
Proof.
  induction rows as [|a rows IH]; simpl; [reflexivity|].
  destruct (delete_hits id a); [discriminate|]. intros H. rewrite IH; auto.
Qed.

Lemma no_live_no_hit (id : Z) (rows : list InviteCode.t) :
  (forall r, In r rows -> InviteCode.ID r = id -> InviteCode.DeletedAt r <> None) ->
  filter (delete_hits id) rows = [].
Proof.
  induction rows as [|a rows IH]; simpl; intros H; [reflexivity|].
  assert (Ha : delete_hits id a = false).
  { unfold delete_hits, InviteCode.IsDeleted.
    destruct (InviteCode.ID a =? id) eqn:E; [|reflexivity].
    apply Z.eqb_eq in E. specialize (H a (or_introl eq_refl) E).
    destruct (InviteCode.DeletedAt a); [reflexivity|congruence]. }
  rewrite Ha. apply IH. intros r Hr. apply H. simpl. auto.
Qed.

(** X5: [DeleteInviteCode] on an identifier that no live row carries
    (never stored, or soft-deleted already) leaves the store as it is and
    returns an error; when no store call fails the error is
    [invite code not found]. A second delete of the same code fails. *)
Theorem delete_of_missing_code_changes_nothing :
  forall (id : Z) (w : World),
    (forall r, In r (invite_codes (db w)) -> InviteCode.ID r = id ->
               InviteCode.DeletedAt r <> None) ->
    let (r, w') := DeleteInviteCode id w in
    db w' = db w /\
    (exists e, r = Err e) /\
    (no_fault w -> r = Err (Errorf "invite code not found")).
Proof.
  intros id w Hmiss.
  pose proof (DeleteInviteCode_cases id w) as H.
  pose proof (no_live_no_hit id _ Hmiss) as Hnil.
  destruct (DeleteInviteCode id w) as [r w'].
  destruct H as [(e & -> & Hdb & Hf)|(now & Hdb & -> & Hf)].
  - split; [exact Hdb|]. split; [eauto|].
    intros Hnf. exfalso. unfold no_fault in Hnf.
    destruct (faults w) as [|f fs]; simpl in Hf; [discriminate|].
    inversion Hnf; subst. discriminate.
  - rewrite Hnil in *. rewrite map_no_hit in Hdb by exact Hnil. simpl.
    split; [destruct (db w); exact Hdb|]. split; eauto.
Qed.

Lemma delete_of_missing_code_changes_nothing_witness :
  let (r, w') := DeleteInviteCode 1 deleted_collision in
  db w' = db deleted_collision /\
  (exists e, r = Err e) /\
  (no_fault deleted_collision -> r = Err (Errorf "invite code not found")).
Proof.
  apply (delete_of_missing_code_changes_nothing 1 deleted_collision).
  simpl. intros r [<-|[]] _. discriminate.
Defined.

(** X6: a successful [DeleteInviteCode] found a live row with that
    identifier, marks every row with that identifier as deleted and
    changes nothing else: the rows keep every other field, rows with
    another identifier, the ledger and the users are untouched. From
    then on the code no longer validates: [ValidateInviteCode] answers
    [invite code not found]. *)
Theorem soft_deleted_code_is_gone :
  forall (id : Z) (w w' : World),
    DeleteInviteCode id w = (Ok tt, w') ->
    (exists r, In r (invite_codes (db w)) /\ InviteCode.ID r = id /\
               InviteCode.DeletedAt r = None) /\
    (forall r, In r (invite_codes (db w')) -> InviteCode.ID r = id ->
               InviteCode.DeletedAt r <> None) /\
    map (InviteCode.with_DeletedAt None) (invite_codes (db w'))
    = map (InviteCode.with_DeletedAt None) (invite_codes (db w)) /\
    (forall r, In r (invite_codes (db w')) -> InviteCode.ID r <> id ->
               In r (invite_codes (db w))) /\
    invite_code_usages (db w') = invite_code_usages (db w) /\
    users (db w') = users (db w) /\
    (forall code,
        (forall r, In r (invite_codes (db w)) -> InviteCode.Code r = code ->
                   InviteCode.DeletedAt r = None -> InviteCode.ID r = id) ->
        forall w2, db w2 = db w' -> no_fault w2 ->
                   fst (ValidateInviteCode code w2)
                   = Err (Errorf "invite code not found")).
Proof.
  intros id w w' Hrun.
  pose proof (DeleteInviteCode_cases id w) as H. rewrite Hrun in H.
  destruct H as [(e & He & _)|(now & Hdb & Hr & _)]; [discriminate|].
  set (g := fun r => if delete_hits id r
                     then InviteCode.with_DeletedAt (Some now) r else r) in *.
  assert (Hrows : invite_codes (db w') = map g (invite_codes (db w)))
    by (rewrite Hdb; reflexivity).
  assert (Hg : forall r, InviteCode.ID (g r) = InviteCode.ID r /\
                         InviteCode.Code (g r) = InviteCode.Code r /\
                         (InviteCode.ID r = id -> InviteCode.DeletedAt (g r) <> None) /\
                         (InviteCode.DeletedAt r <> None -> g r = r) /\
                         (InviteCode.ID r <> id -> g r = r)).
  { intros r. unfold g, delete_hits, InviteCode.IsDeleted.
    destruct (InviteCode.ID r =? id) eqn:E; simpl.
    - apply Z.eqb_eq in E.
      destruct (InviteCode.DeletedAt r) eqn:Ed; simpl; repeat split; auto;
        try congruence; intros; try congruence; try discriminate.
    - apply Z.eqb_neq in E. repeat split; auto; intros; congruence. }
  split; [|split; [|split; [|split; [|split; [|split]]]]].
  - destruct (filter (delete_hits id) (invite_codes (db w))) as [|r l] eqn:Ef;
      [simpl in Hr; discriminate|].
    assert (Hin : In r (filter (delete_hits id) (invite_codes (db w))))
      by (rewrite Ef; left; reflexivity).
    apply filter_In in Hin as [Hin Hh]. exists r. split; [assumption|].
    unfold delete_hits, InviteCode.IsDeleted in Hh.
    apply andb_true_iff in Hh as [Hi Hd]. apply Z.eqb_eq in Hi.
    destruct (InviteCode.DeletedAt r); [discriminate|auto].
  - intros r Hin Hid. rewrite Hrows in Hin. apply in_map_iff in Hin as (x & <- & Hx).
    destruct (Hg x) as (Hi & _ & Hd & _). apply Hd. congruence.
  - rewrite Hrows, map_map. apply map_ext. intros r. unfold g.
    destruct (delete_hits id r) eqn:E; [|reflexivity].
    unfold delete_hits, InviteCode.IsDeleted in E. apply andb_true_iff in E as [_ E].
    destruct r as [i c cb st mu uc de me dl]; simpl in *.
    destruct dl; [discriminate|reflexivity].
  - intros r Hin Hid. rewrite Hrows in Hin. apply in_map_iff in Hin as (x & <- & Hx).
    destruct (Hg x) as (Hi & _ & _ & _ & Hsame). rewrite Hsame; [assumption|congruence].
  - rewrite Hdb. reflexivity.
  - rewrite Hdb. reflexivity.
  - intros code Honly w2 Hdb2 Hnf2.
    rewrite (ValidateInviteCode_no_fault code w2 Hnf2).
    rewrite (ValidateInviteCode_quiet (quiet (db w2)) code eq_refl). simpl.
    assert (Hnone : stored_code (db w2) code = None).
    { apply stored_code_None. intros r Hin Hc. rewrite Hdb2, Hrows in Hin.
      apply in_map_iff in Hin as (x & <- & Hx).
      destruct (Hg x) as (_ & Hcx & Hd & Hkeep & _).
      destruct (InviteCode.DeletedAt x) eqn:Edx.
      - rewrite Hkeep by congruence. congruence.
      - apply Hd. apply Honly; congruence. }
    rewrite Hnone. reflexivity.
Qed.

Lemma soft_deleted_code_is_gone_witness :
  DeleteInviteCode 1 three_uses = (Ok tt, snd (DeleteInviteCode 1 three_uses)) /\
  fst (ValidateInviteCode sample_code (quiet (db (snd (DeleteInviteCode 1 three_uses)))))
  = Err (Errorf "invite code not found").
Proof.
  assert (Hrun : DeleteInviteCode 1 three_uses
                 = (Ok tt, snd (DeleteInviteCode 1 three_uses))) by reflexivity.
  split; [exact Hrun|].
  destruct (soft_deleted_code_is_gone 1 three_uses _ Hrun) as (_ & _ & _ & _ & _ & _ & Hv).
  apply (Hv sample_code).
  - simpl. intros r [<-|[]] _ _. reflexivity.
  - reflexivity.
  - constructor.
Defined.

(** ** Status updates *)

Lemma UpdateInviteCodeStatus_cases (id : Z) (status : string) (w : World) :
  let (r, w') := UpdateInviteCodeStatus id status w in
  (exists e, r = Err e /\ db w' = db w) \/
  (exists ic, In ic (invite_codes (db w)) /\ InviteCode.ID ic = id /\
              InviteCode.DeletedAt ic = None /\
              db w' = with_invite_codes
                        (save_row (InviteCode.with_Status status ic) (invite_codes (db w)))
                        (db w) /\
              r = Ok (InviteCode.with_Status status ic)).
Proof.
  unfold UpdateInviteCodeStatus, First_InviteCode, Save_InviteCode. unfold_m.
  destruct w as [d fs en pr cl lg]; simpl.
  destruct fs as [|[|] fs]; simpl; eauto;
    (destruct (min_by _ _) as [ic|] eqn:E; simpl; eauto;
     apply min_by_In in E; apply filter_In in E as [E Hid];
     apply filter_In in E as [E Hd]; apply Z.eqb_eq in Hid;
     assert (Hdel : InviteCode.DeletedAt ic = None)
       by (unfold InviteCode.IsDeleted in Hd;
           destruct (InviteCode.DeletedAt ic); [discriminate|reflexivity])).
  - right. exists ic. auto 10.
  - destruct fs as [|[|] fs]; simpl; eauto; right; exists ic; auto 10.
Qed.

Lemma save_status_map (status : string) (ic : InviteCode.t) (rows : list InviteCode.t) :
  NoDup (map InviteCode.ID rows) -> In ic rows ->
  save_row (InviteCode.with_Status status ic) rows
  = map (fun r => if InviteCode.ID r =? InviteCode.ID ic
                  then InviteCode.with_Status status r else r) rows.
Proof.
  intros Hnd Hin.
  rewrite (save_row_existing (InviteCode.with_Status status ic) ic rows Hin eq_refl).
  apply map_ext_in. intros r Hr. simpl.
  destruct (InviteCode.ID r =? InviteCode.ID ic) eqn:E; [|reflexivity].
  apply Z.eqb_eq in E. rewrite (NoDup_ID_eq rows r ic Hnd Hr Hin E). reflexivity.
Qed.

Lemma Forall2_map_self {A : Type} (R : A -> A -> Prop) (f : A -> A) (l : list A) :
  (forall x, In x l -> R x (f x)) -> Forall2 R l (map f l).
Proof.
  induction l as [|a l IH]; simpl; intros H; constructor; auto.
Qed.

Lemma same_but_status_refl (a : InviteCode.t) : same_but_status a a.
Proof. unfold same_but_status. auto 10. Qed.

Lemma same_but_password_refl (a : User.t) : same_but_password a a.
Proof. unfold same_but_password. auto 20. Qed.

(** X7: with identifiers a primary key, [UpdateInviteCodeStatus]
    writes no column of [invite_codes] but [status] (and the time
    stamp [updated_at], which is outside the embedding): identifier,
    code, creator, cap, counter, description, metadata and deletion
    mark of every row are as before, and a row with another identifier
    is untouched; the ledger and the users stay as they were. On
    success the returned row carries the identifier and the new status
    and is the stored one; on failure the store is unchanged. *)
Theorem status_update_changes_status_only :
  forall (id : Z) (status : string) (w : World),
    ids_unique (db w) ->
    let (r, w') := UpdateInviteCodeStatus id status w in
    Forall2 same_but_status (invite_codes (db w)) (invite_codes (db w')) /\
    (forall r0, In r0 (invite_codes (db w')) -> InviteCode.ID r0 <> id ->
                In r0 (invite_codes (db w))) /\
    invite_code_usages (db w') = invite_code_usages (db w) /\
    users (db w') = users (db w) /\
    match r with
    | Ok ic =>
        InviteCode.ID ic = id /\ InviteCode.Status ic = status /\
        InviteCode.DeletedAt ic = None /\ In ic (invite_codes (db w'))
    | Err _ => db w' = db w
    end.
Proof.
  intros id status w Hu.
  pose proof (UpdateInviteCodeStatus_cases id status w) as H.
  destruct (UpdateInviteCodeStatus id status w) as [r w'].
  destruct H as [(e & -> & Hdb)|(ic & Hin & Hid & Hdel & Hdb & ->)].
  - rewrite Hdb. split; [|auto 10].
    rewrite <- (map_id (invite_codes (db w))) at 2.
    apply Forall2_map_self. intros x _. apply same_but_status_refl.
  - rewrite Hdb. unfold with_invite_codes. cbn [invite_codes invite_code_usages users].
    rewrite (save_status_map status ic _ Hu Hin).
    split; [|split; [|split; [reflexivity|split; [reflexivity|]]]].
    + apply Forall2_map_self. intros x _.
      destruct (InviteCode.ID x =? InviteCode.ID ic);
        [unfold same_but_status; simpl; auto 10 | apply same_but_status_refl].
    + intros r0 Hr0 Hne. apply in_map_iff in Hr0 as (x & Hx & Hxin).
      destruct (InviteCode.ID x =? InviteCode.ID ic) eqn:E.
      * apply Z.eqb_eq in E. subst r0. simpl in Hne. congruence.
      * subst r0. assumption.
    + simpl. repeat split; auto.
      apply in_map_iff. exists ic. rewrite Z.eqb_refl. auto.
Qed.

Lemma status_update_changes_status_only_witness :
  ids_unique (db three_uses) /\
  let (r, w') := UpdateInviteCodeStatus 1 "disabled" three_uses in
  Forall2 same_but_status (invite_codes (db three_uses)) (invite_codes (db w')) /\
  (forall r0, In r0 (invite_codes (db w')) -> InviteCode.ID r0 <> 1 ->
              In r0 (invite_codes (db three_uses))) /\
  invite_code_usages (db w') = invite_code_usages (db three_uses) /\
  users (db w') = users (db three_uses) /\
  match r with
  | Ok ic =>
      InviteCode.ID ic = 1 /\ InviteCode.Status ic = "disabled" /\
      InviteCode.DeletedAt ic = None /\ In ic (invite_codes (db w'))
  | Err _ => db w' = db three_uses
  end.
Proof.
  assert (Hu : ids_unique (db three_uses))
    by (unfold ids_unique; simpl; constructor; [intros []|constructor]).
  split; [exact Hu|].
  exact (status_update_changes_status_only 1 "disabled" three_uses Hu).
Defined.

Lemma stored_code_after_status (d : DB) (code : string) (status : string)
    (ic0 : InviteCode.t) :
  ids_unique d -> In ic0 (invite_codes d) ->
  stored_code (with_invite_codes
                 (save_row (InviteCode.with_Status status ic0) (invite_codes d)) d) code
  = option_map (fun r => if InviteCode.ID r =? InviteCode.ID ic0
                         then InviteCode.with_Status status r else r)
               (stored_code d code).
Proof.
  intros Hu Hin. unfold stored_code, live_invite_codes. simpl.
  rewrite (save_status_map status ic0 _ Hu Hin).
  set (f := fun r => if InviteCode.ID r =? InviteCode.ID ic0
                     then InviteCode.with_Status status r else r).
  assert (Hf : forall r, InviteCode.ID (f r) = InviteCode.ID r /\
                         InviteCode.Code (f r) = InviteCode.Code r /\
                         InviteCode.IsDeleted (f r) = InviteCode.IsDeleted r).
  { intros r. unfold f. destruct (InviteCode.ID r =? InviteCode.ID ic0); auto. }
  rewrite filter_map_commute by (intros r _; destruct (Hf r) as (_ & _ & ->); reflexivity).
  rewrite filter_map_commute by (intros r _; destruct (Hf r) as (_ & -> & _); reflexivity).
  apply min_by_map. intros r _. apply Hf.
Qed.

(** X8: no status update brings an exhausted code back: when the
    counter of a stored code has reached its cap, then after
    [UpdateInviteCodeStatus] with any identifier and any status
    ("active" included) [ValidateInviteCode] still answers with the
    exhausted error. *)
Theorem status_update_cannot_revive_exhausted_code :
  forall (id : Z) (status code : string) (w : World) (ic : InviteCode.t),
    ids_unique (db w) ->
    stored_code (db w) code = Some ic ->
    InviteCode.UsedCount ic >= InviteCode.MaxUses ic ->
    let (r, w') := UpdateInviteCodeStatus id status w in
    forall w2, db w2 = db w' -> no_fault w2 ->
               fst (ValidateInviteCode code w2)
               = Err (Errorf "invite code has reached maximum uses").
Proof.
  intros id status code w ic Hu Hst Hge.
  pose proof (UpdateInviteCodeStatus_cases id status w) as H.
  destruct (UpdateInviteCodeStatus id status w) as [r w'].
  intros w2 Hdb2 Hnf2.
  rewrite (ValidateInviteCode_no_fault code w2 Hnf2).
  rewrite (ValidateInviteCode_quiet (quiet (db w2)) code eq_refl). simpl.
  rewrite Hdb2.
  destruct H as [(e & _ & Hdb)|(ic0 & Hin & _ & _ & Hdb & _)]; rewrite Hdb.
  - rewrite Hst. destruct (CanBeUsed_false_exhausted ic Hge) as [-> ->]. reflexivity.
  - rewrite (stored_code_after_status _ code status ic0 Hu Hin), Hst. simpl.
    match goal with |- context [InviteCode.CanBeUsed ?x] =>
      destruct (CanBeUsed_false_exhausted x) as [-> ->]; [|reflexivity] end.
    destruct (InviteCode.ID ic =? InviteCode.ID ic0); simpl; assumption.
Qed.

Lemma status_update_cannot_revive_exhausted_code_witness :
  stored_code (db exhausted_world) sample_code = Some used_up /\
  fst (ValidateInviteCode sample_code
         (quiet (db (snd (UpdateInviteCodeStatus 1 "active" exhausted_world)))))
  = Err (Errorf "invite code has reached maximum uses").
Proof.
  assert (Hu : ids_unique (db exhausted_world))
    by (unfold ids_unique; simpl; constructor; [intros []|constructor]).
  assert (Hst : stored_code (db exhausted_world) sample_code = Some used_up)
    by reflexivity.
  assert (Hge : InviteCode.UsedCount used_up >= InviteCode.MaxUses used_up)
    by (simpl; lia).
  split; [exact Hst|].
  pose proof (status_update_cannot_revive_exhausted_code
                1 "active" sample_code exhausted_world used_up Hu Hst Hge) as H.
  destruct (UpdateInviteCodeStatus 1 "active" exhausted_world) as [r w'].
  apply H; [reflexivity|constructor].
Defined.

Lemma lookup_by_id (d : DB) (ic : InviteCode.t) :
  ids_unique d -> In ic (invite_codes d) -> InviteCode.DeletedAt ic = None ->
  min_by InviteCode.ID
         (filter (fun r => InviteCode.ID r =? InviteCode.ID ic) (live_invite_codes d))
  = Some ic.
Proof.
  intros Hu Hin Hd.
  assert (Hmem : In ic (filter (fun r => InviteCode.ID r =? InviteCode.ID ic)
                               (live_invite_codes d))).
  { apply filter_In. split; [|apply Z.eqb_refl].
    apply filter_In. split; [assumption|].
    unfold InviteCode.IsDeleted. rewrite Hd. reflexivity. }
  destruct (min_by _ _) as [x|] eqn:E.
  - apply min_by_In in E. apply filter_In in E as [E Hid].
    apply filter_In in E as [E _]. apply Z.eqb_eq in Hid.
    f_equal. eapply NoDup_ID_eq; eauto.
  - apply min_by_None in E. rewrite E in Hmem. destruct Hmem.
Qed.

Lemma UpdateInviteCodeStatus_quiet (status : string) (w : World) (ic : InviteCode.t) :
  faults w = [] -> ids_unique (db w) -> In ic (invite_codes (db w)) ->
  InviteCode.DeletedAt ic = None ->
  exists w',
    UpdateInviteCodeStatus (InviteCode.ID ic) status w
    = (Ok (InviteCode.with_Status status ic), w') /\
    faults w' = [] /\
    db w' = with_invite_codes
              (save_row (InviteCode.with_Status status ic) (invite_codes (db w))) (db w).
Proof.
  intros Hf Hu Hin Hd.
  unfold UpdateInviteCodeStatus, First_InviteCode, Save_InviteCode. unfold_m.
  destruct w as [d fs en pr cl lg]. simpl in *. subst fs. simpl.
  rewrite (lookup_by_id d ic Hu Hin Hd). simpl.
  eexists. split; [reflexivity|]. split; reflexivity.
Qed.

(** X9: disabling and re-enabling is a round trip. For an active code
    with uses left and a store that does not fail: after the update to
    [disabled] the code is refused as not active; after the update back
    to [active] every column of every row (the time stamp [updated_at],
    outside the embedding, aside) is what it was before, the ledger and
    the users are unchanged, and the code validates again, with the
    record the second update returned. *)
Theorem disable_then_enable_restores_the_code :
  forall (w : World) (ic : InviteCode.t),
    faults w = [] ->
    ids_unique (db w) ->
    stored_code (db w) (InviteCode.Code ic) = Some ic ->
    InviteCode.Status ic = InviteCodeStatusActive ->
    InviteCode.UsedCount ic < InviteCode.MaxUses ic ->
    let (r1, w1) := UpdateInviteCodeStatus (InviteCode.ID ic) InviteCodeStatusDisabled w in
    let (r2, w2) := UpdateInviteCodeStatus (InviteCode.ID ic) InviteCodeStatusActive w1 in
    fst (ValidateInviteCode (InviteCode.Code ic) w1)
    = Err (Errorf "invite code is not active") /\
    (exists ic2, r2 = Ok ic2 /\ same_columns ic ic2 /\
                 fst (ValidateInviteCode (InviteCode.Code ic) w2) = Ok ic2) /\
    Forall2 same_columns (invite_codes (db w)) (invite_codes (db w2)) /\
    invite_code_usages (db w2) = invite_code_usages (db w) /\
    users (db w2) = users (db w).
Proof.
  intros w ic Hf Hu Hst Hact Hlt.
  pose proof (stored_code_Some _ _ _ Hst) as (Hin & _ & Hd).
  destruct (UpdateInviteCodeStatus_quiet InviteCodeStatusDisabled w ic Hf Hu Hin Hd)
    as (w1 & Hr1 & Hf1 & Hdb1).
  rewrite Hr1.
  set (ic1 := InviteCode.with_Status InviteCodeStatusDisabled ic) in *.
  assert (Hu1 : ids_unique (db w1)).
  { unfold ids_unique. rewrite Hdb1. simpl.
    rewrite (save_row_IDs ic1 ic _ Hin eq_refl). exact Hu. }
  assert (Hin1 : In ic1 (invite_codes (db w1))).
  { rewrite Hdb1. simpl. rewrite (save_row_existing ic1 ic _ Hin eq_refl).
    apply in_map_iff. exists ic. simpl. rewrite Z.eqb_refl. auto. }
  destruct (UpdateInviteCodeStatus_quiet InviteCodeStatusActive w1 ic1 Hf1 Hu1 Hin1 Hd)
    as (w2 & Hr2 & Hf2 & Hdb2).
  change (InviteCode.ID ic1) with (InviteCode.ID ic) in Hr2. rewrite Hr2.
  assert (Hback : InviteCode.with_Status InviteCodeStatusActive ic1 = ic).
  { unfold ic1. destruct ic as [i c cb st mu uc de me dl]. simpl in *. subst st.
    reflexivity. }
  rewrite Hback in *.
  assert (Hst1 : stored_code (db w1) (InviteCode.Code ic) = Some ic1).
  { rewrite Hdb1. unfold ic1.
    rewrite (stored_code_after_status _ _ _ ic Hu Hin), Hst. simpl.
    rewrite Z.eqb_refl. reflexivity. }
  assert (Hrows : invite_codes (db w2) = invite_codes (db w)).
  { rewrite Hdb2. simpl. rewrite (save_row_existing ic ic1 _ Hin1 eq_refl).
    rewrite Hdb1. simpl. rewrite (save_row_existing ic1 ic _ Hin eq_refl).
    rewrite map_map. rewrite <- (map_id (invite_codes (db w))) at 2.
    apply map_ext_in. intros r Hr.
    change (InviteCode.ID ic1) with (InviteCode.ID ic).
    destruct (InviteCode.ID r =? InviteCode.ID ic) eqn:E.
    - rewrite Z.eqb_refl. apply Z.eqb_eq in E. symmetry.
      exact (NoDup_ID_eq _ r ic Hu Hr Hin E).
    - rewrite E. reflexivity. }
  assert (Hdbeq : db w2 = db w).
  { rewrite Hdb2. unfold with_invite_codes.
    assert (Hr' : save_row ic (invite_codes (db w1)) = invite_codes (db w))
      by (rewrite <- Hrows, Hdb2; reflexivity).
    rewrite Hr'. rewrite Hdb1. simpl. destruct (db w); reflexivity. }
  assert (Hrefl : forall x, same_columns x x)
    by (intros x; split; [apply same_but_status_refl|reflexivity]).
  split; [|split; [exists ic; split; [reflexivity|split; [apply Hrefl|]]|]].
  3:{ rewrite Hdbeq. split; [|split; reflexivity].
      rewrite <- (map_id (invite_codes (db w))) at 2.
      apply Forall2_map_self. intros x _. apply Hrefl. }
  - rewrite (ValidateInviteCode_quiet w1 _ Hf1), Hst1. simpl.
    unfold InviteCode.CanBeUsed, InviteCode.IsActive, InviteCode.IsExhausted. simpl.
    assert (E : (InviteCode.UsedCount ic >=? InviteCode.MaxUses ic) = false).
    { destruct (_ >=? _) eqn:E; [|reflexivity]. apply Z.geb_le in E. lia. }
    rewrite E. reflexivity.
  - rewrite (ValidateInviteCode_quiet w2 _ Hf2), Hdbeq, Hst. simpl.
    rewrite (CanBeUsed_intro ic Hact Hlt Hd). reflexivity.
Qed.

Lemma disable_then_enable_restores_the_code_witness :
  let (r1, w1) := UpdateInviteCodeStatus 1 "disabled" three_uses in
  let (r2, w2) := UpdateInviteCodeStatus 1 "active" w1 in
  fst (ValidateInviteCode sample_code w1) = Err (Errorf "invite code is not active") /\
  (exists ic2, r2 = Ok ic2 /\ same_columns (sample_row 3 0 "active") ic2 /\
               fst (ValidateInviteCode sample_code w2) = Ok ic2) /\
  Forall2 same_columns (invite_codes (db three_uses)) (invite_codes (db w2)) /\
  invite_code_usages (db w2) = invite_code_usages (db three_uses) /\
  users (db w2) = users (db three_uses).
Proof.
  apply (disable_then_enable_restores_the_code three_uses (sample_row 3 0 "active")).
  - reflexivity.
  - unfold ids_unique; simpl; constructor; [intros []|constructor].
  - reflexivity.
  - reflexivity.
  - simpl. lia.
Defined.

(** ** Who may change a code *)

Lemma GetInviteCodeByID_Ok (id : Z) (w w1 : World) (ic : InviteCode.t) :
  GetInviteCodeByID id w = (Ok ic, w1) ->
  In ic (invite_codes (db w)) /\ InviteCode.ID ic = id /\ db w1 = db w.
Proof.
  unfold GetInviteCodeByID, First_InviteCode. unfold_m.
  destruct w as [d fs en pr cl lg]; simpl.
  destruct fs as [|[|] fs]; simpl; try discriminate;
    (destruct (min_by _ _) as [x|] eqn:E; simpl; [|discriminate];
     intros H; inversion H; subst; simpl;
     apply min_by_In in E; apply filter_In in E as [E Hid];
     apply filter_In in E as [E _]; apply Z.eqb_eq in Hid; auto).
Qed.

(** X10: the handlers for status update and delete let only the
    creator of a code or an administrator through. For a caller who is
    neither (or is not authenticated, or sends an identifier that does
    not parse), whatever the body and whatever the store does, the
    store is unchanged and the answer is a refusal. *)
Theorem only_creator_or_admin_changes_a_code :
  forall (auth : option User.t) (idStr : string) (body : option string) (w : World),
    (forall user id r,
        auth = Some user -> ParseUint32 idStr = Some id ->
        In r (invite_codes (db w)) -> InviteCode.ID r = id ->
        InviteCode.CreatedByID r <> User.ID user /\ User.IsAdmin user = false) ->
    db (snd (UpdateInviteCodeStatus_handler auth idStr body w)) = db w /\
    is_success (fst (UpdateInviteCodeStatus_handler auth idStr body w)) = false /\
    db (snd (DeleteInviteCode_handler auth idStr w)) = db w /\
    refused (fst (DeleteInviteCode_handler auth idStr w)) = true.
Proof.
  intros auth idStr body w Hno.
  unfold UpdateInviteCodeStatus_handler, DeleteInviteCode_handler.
  destruct auth as [user|]; [|unfold ret; simpl; auto].
  destruct (ParseUint32 idStr) as [id|]; [|unfold ret; simpl; auto].
  assert (Hget : forall ic w1, GetInviteCodeByID id w = (Ok ic, w1) ->
                   negb (InviteCode.CreatedByID ic =? User.ID user)
                   && negb (User.IsAdmin user) = true /\ db w1 = db w).
  { intros ic w1 Hg. apply GetInviteCodeByID_Ok in Hg as (Hin & Hid & Hdb).
    destruct (Hno user id ic eq_refl eq_refl Hin Hid) as [Hc Ha].
    rewrite Ha. apply Z.eqb_neq in Hc. rewrite Hc. auto. }
  pose proof (GetInviteCodeByID_db id w) as Hdb.
  split; [|split; [|split]].
  - destruct (ShouldBindJSON_status body); [|unfold ret; reflexivity].
    unfold bind at 1. destruct (GetInviteCodeByID id w) as [[ic|e] w1] eqn:E;
      [|unfold ret; exact Hdb].
    destruct (Hget ic w1 eq_refl) as [-> Hd]. unfold ret. exact Hd.
  - destruct (ShouldBindJSON_status body); [|unfold ret; reflexivity].
    unfold bind at 1. destruct (GetInviteCodeByID id w) as [[ic|e] w1] eqn:E;
      [|unfold ret; reflexivity].
    destruct (Hget ic w1 eq_refl) as [-> Hd]. unfold ret. reflexivity.
  - unfold bind at 1. destruct (GetInviteCodeByID id w) as [[ic|e] w1] eqn:E;
      [|unfold ret; exact Hdb].
    destruct (Hget ic w1 eq_refl) as [-> Hd]. unfold ret. exact Hd.
  - unfold bind at 1. destruct (GetInviteCodeByID id w) as [[ic|e] w1] eqn:E;
      [|unfold ret; reflexivity].
    destruct (Hget ic w1 eq_refl) as [-> Hd]. unfold ret. reflexivity.
Qed.

Lemma only_creator_or_admin_changes_a_code_witness :
  db (snd (UpdateInviteCodeStatus_handler (Some stranger) "1" (Some "disabled") three_uses))
  = db three_uses /\
  is_success (fst (UpdateInviteCodeStatus_handler (Some stranger) "1" (Some "disabled")
                     three_uses)) = false /\
  db (snd (DeleteInviteCode_handler (Some stranger) "1" three_uses)) = db three_uses /\
  refused (fst (DeleteInviteCode_handler (Some stranger) "1" three_uses)) = true.
Proof.
  apply (only_creator_or_admin_changes_a_code (Some stranger) "1" (Some "disabled")
           three_uses).
  intros user id r Hu Hid Hin Hr. inversion Hu; subst user.
  simpl in Hin. destruct Hin as [<-|[]]. simpl. split; [lia|reflexivity].
Defined.

(** ** The ledger's own insert *)

(** X11: [CreateUsageRecord] is a plain insert into the ledger. It
    never touches the invite codes (their counters included) or the
    users; on success the ledger gains exactly the returned entry, with
    the next identifier and the given code, user, address and agent, so
    the ledger total of that code grows by one and no other total
    changes; on failure the store is unchanged. *)
Theorem usage_record_leaves_the_counter :
  forall (inviteCodeID userID : Z) (ip ua : string) (w : World),
    let (r, w') := CreateUsageRecord inviteCodeID userID ip ua w in
    invite_codes (db w') = invite_codes (db w) /\
    users (db w') = users (db w) /\
    match r with
    | Ok row =>
        invite_code_usages (db w') = invite_code_usages (db w) ++ [row] /\
        InviteCodeUsage.ID row = invite_code_usages_seq (db w) + 1 /\
        InviteCodeUsage.InviteCodeID row = inviteCodeID /\
        InviteCodeUsage.UsedByID row = userID /\
        InviteCodeUsage.IPAddress row = ip /\
        InviteCodeUsage.UserAgent row = ua /\
        (forall id, usage_total (db w') id
                    = usage_total (db w) id + (if inviteCodeID =? id then 1 else 0))
    | Err _ => db w' = db w
    end.
Proof.
  intros inviteCodeID userID ip ua w.
  unfold CreateUsageRecord, Create_InviteCodeUsage. unfold_m.
  destruct w as [d fs en pr cl lg]; simpl.
  destruct cl as [|t cl]; simpl; destruct fs as [|[|] fs]; simpl; auto;
    repeat (split; [reflexivity|]); intros id;
    match goal with |- usage_total (insert_usage ?u d) id = _ =>
      rewrite (usage_total_insert u d id eq_refl) end; reflexivity.
Qed.

(** ** Accounts: registration, login, password change *)

Section RegistrationProperties.

Variable bcrypt_GenerateFromPassword : string -> option string.
Variable jwt_SignedString : Claims.t -> option string.
Variable strings_ToLower : string -> string.
Variable strings_ToUpper : string -> string.
Variable cfg_JWT_ExpireHours : Z.

(** The record [Create] stores: the column default of [role] applied. *)
Lemma Create_User_cases (user : User.t) (w : World) :
  let u0 := if (User.Role user =? "")%string then User.with_Role "user" user else user in
  let (r, w') := Create_User user w in
  faults w' = tl (faults w) /\ log w' = log w /\
  match r with
  | Ok row =>
      row = User.with_ID (users_seq (db w) + 1) u0 /\
      (forall x, In x (users (db w)) -> User.Email x <> User.Email user) /\
      db w' = mkDB (invite_codes (db w)) (invite_code_usages (db w))
                   (users (db w) ++ [row]) (invite_codes_seq (db w))
                   (invite_code_usages_seq (db w)) (users_seq (db w) + 1)
  | Err _ =>
      db w' = db w /\
      (hd false (faults w) = true \/
       existsb (fun r => (User.Email r =? User.Email u0)%string
                         || same_key (User.GoogleID r) (User.GoogleID u0)
                         || same_key (User.GitHubID r) (User.GitHubID u0)
                         || same_key (User.TelegramID r) (User.TelegramID u0))
               (users (db w)) = true)
  end.
Proof.
  unfold Create_User. unfold_m.
  destruct w as [d fs en pr cl lg]; simpl.
  assert (Hfresh : forall u1,
            User.Email u1 = User.Email user ->
            existsb (fun r => (User.Email r =? User.Email u1)%string
                              || same_key (User.GoogleID r) (User.GoogleID u1)
                              || same_key (User.GitHubID r) (User.GitHubID u1)
                              || same_key (User.TelegramID r) (User.TelegramID u1))
                    (users d) = false ->
            forall x, In x (users d) -> User.Email x <> User.Email user).
  { intros u1 Hu1 Hex x Hx Heq.
    assert (Ht : existsb (fun r => (User.Email r =? User.Email u1)%string
                              || same_key (User.GoogleID r) (User.GoogleID u1)
                              || same_key (User.GitHubID r) (User.GitHubID u1)
                              || same_key (User.TelegramID r) (User.TelegramID u1))
                    (users d) = true).
    { apply existsb_exists. exists x. split; [exact Hx|].
      rewrite Hu1, Heq, String.eqb_refl. reflexivity. }
    congruence. }
  assert (Hem : User.Email (if (User.Role user =? "")%string
                            then User.with_Role "user" user else user)
                = User.Email user)
    by (destruct (User.Role user =? "")%string; reflexivity).
  destruct fs as [|[|] fs]; simpl; auto;
    match goal with |- context [existsb ?p (users d)] =>
      destruct (existsb p (users d)) eqn:E end; simpl; auto;
    (split; [reflexivity|split; [reflexivity|split; [reflexivity|split; [|reflexivity]]]]);
    exact (Hfresh _ Hem E).
Qed.

Lemma CreateUser_cases (user : User.t) (w : World) :
  let u0 := if (User.Role user =? "")%string then User.with_Role "user" user else user in
  let (r, w') := CreateUser user w in
  faults w' = tl (faults w) /\
  match r with
  | Ok row =>
      row = User.with_ID (users_seq (db w) + 1) u0 /\
      (forall x, In x (users (db w)) -> User.Email x <> User.Email user) /\
      db w' = mkDB (invite_codes (db w)) (invite_code_usages (db w))
                   (users (db w) ++ [row]) (invite_codes_seq (db w))
                   (invite_code_usages_seq (db w)) (users_seq (db w) + 1)
  | Err _ =>
      db w' = db w /\
      (hd false (faults w) = true \/
       existsb (fun r => (User.Email r =? User.Email u0)%string
                         || same_key (User.GoogleID r) (User.GoogleID u0)
                         || same_key (User.GitHubID r) (User.GitHubID u0)
                         || same_key (User.TelegramID r) (User.TelegramID u0))
               (users (db w)) = true)
  end.
Proof.
  intros u0. unfold CreateUser. unfold bind at 1.
  pose proof (Create_User_cases user w) as H. cbv zeta in H.
  destruct (Create_User user w) as [[row|e] w1]; destruct H as (Hf & _ & H);
    unfold_m; simpl; auto.
Qed.

Lemma GetUserByEmail_cases (email : string) (w : World) :
  let (r, w') := GetUserByEmail email w in
  db w' = db w /\ faults w' = tl (faults w) /\
  match r with
  | Ok u => hd false (faults w) = false /\ stored_user (db w) email = Some u
  | Err e =>
      hd false (faults w) = true \/
      (stored_user (db w) email = None /\ e = Errorf "user not found" /\ log w' = log w)
  end.
Proof.
  unfold GetUserByEmail, First_User, stored_user. unfold_m.
  destruct w as [d fs en pr cl lg]; simpl.
  destruct fs as [|[|] fs]; simpl; auto;
    destruct (min_by _ _); simpl; auto 6.
Qed.

Lemma stored_user_Some (d : DB) (email : string) (u : User.t) :
  stored_user d email = Some u ->
  In u (users d) /\ User.Email u = email /\ User.DeletedAt u = None.
Proof.
  unfold stored_user, live_users. intros H.
  apply min_by_In in H. apply filter_In in H as [H He].
  apply filter_In in H as [H Hd]. apply String.eqb_eq in He.
  unfold User.IsDeleted in Hd. destruct (User.DeletedAt u); [discriminate|auto].
Qed.

Lemma usernameExists_faults (username : string) (w : World) :
  faults (snd (usernameExists username w)) = tl (faults w).
Proof.
  unfold usernameExists, Count_User. unfold_m.
  destruct w as [d fs en pr cl lg]; simpl.
  destruct fs as [|[|] fs]; reflexivity.
Qed.

Lemma skipn_tl {A : Type} (k : nat) (l : list A) : tl (skipn k l) = skipn (S k) l.
Proof.
  revert l; induction k as [|k IH]; intros [|x l]; simpl; auto.
Qed.

Lemma generateUniqueUsername_loop_faults (n : nat) (base : string) (w : World) :
  exists k, faults (snd (generateUniqueUsername_loop n base w)) = skipn k (faults w).
Proof.
  revert w; induction n as [|n IH]; intros w; simpl.
  - exists O. unfold_m. destruct (clock w); reflexivity.
  - unfold bind at 1.
    assert (Hr : faults (snd (rand_Intn 9999 w)) = faults w)
      by (unfold rand_Intn; destruct (prng w); reflexivity).
    destruct (rand_Intn 9999 w) as [r w1]; simpl in Hr.
    unfold bind.
    pose proof (usernameExists_faults (base ++ Itoa (r + 1)) w1) as Hu.
    destruct (usernameExists (base ++ Itoa (r + 1)) w1) as [[|] w2]; simpl in Hu.
    + destruct (IH w2) as [k Hk]. exists (S k). rewrite Hk, Hu, Hr.
      change (tl (faults w)) with (skipn 1 (faults w)).
      rewrite skipn_skipn. f_equal. lia.
    + exists 1%nat. unfold ret; simpl. rewrite Hu, Hr. reflexivity.
Qed.

Lemma generateUniqueUsername_faults (base : string) (w : World) :
  exists k, faults (snd (generateUniqueUsername strings_ToLower base w))
            = skipn k (faults w).
Proof.
  unfold generateUniqueUsername. unfold bind at 1.
  assert (Hr : faults (snd (time_Now w)) = faults w)
    by (unfold time_Now; destruct (clock w); reflexivity).
  destruct (time_Now w) as [t w1]; simpl in Hr.
  unfold bind.
  match goal with |- context [usernameExists ?u w1] =>
    pose proof (usernameExists_faults u w1) as Hu;
    destruct (usernameExists u w1) as [[|] w2]; simpl in Hu
  end.
  - match goal with |- context [generateUniqueUsername_loop ?n ?b w2] =>
      destruct (generateUniqueUsername_loop_faults n b w2) as [k Hk] end.
    exists (S k). rewrite Hk, Hu, Hr.
    change (tl (faults w)) with (skipn 1 (faults w)).
    rewrite skipn_skipn. f_equal. lia.
  - exists 1%nat. unfold ret; simpl. rewrite Hu, Hr. reflexivity.
Qed.

Lemma no_fault_skipn (k : nat) (w w' : World) :
  faults w' = skipn k (faults w) -> no_fault w -> no_fault w'.
Proof.
  unfold no_fault. intros -> H. revert k.
  induction H as [|f fs Hf H IH]; intros [|k]; simpl; auto.
Qed.

Lemma no_fault_hd (w : World) : no_fault w -> hd false (faults w) = false.
Proof.
  unfold no_fault. destruct (faults w); simpl; [reflexivity|].
  intros H. inversion H; assumption.
Qed.

Lemma GenerateToken_faults (user : User.t) (w : World) :
  faults (snd (GenerateToken jwt_SignedString cfg_JWT_ExpireHours user w)) = faults w.
Proof.
  unfold GenerateToken. unfold_m.
  destruct w as [d fs en pr cl lg]; simpl.
  destruct cl as [|t1 [|t2 [|t3 cl]]]; simpl;
    match goal with |- context [jwt_SignedString ?c] =>
      destruct (jwt_SignedString c) end; reflexivity.
Qed.

Lemma same_key_None (a : option string) : same_key a None = false.
Proof. destruct a; reflexivity. Qed.

(** What [Register] does once the invite code, if any, has been
    validated: it stops with an error before the account exists, or it
    inserts the account and goes on to the redemption and the token. *)
Lemma Register_account_cases (req : RegisterRequest.t) (oic : option InviteCode.t)
    (w : World) :
  let (r, w') := Register_account bcrypt_GenerateFromPassword jwt_SignedString
                   strings_ToLower strings_ToUpper cfg_JWT_ExpireHours req oic w in
  (db w' = db w /\ (exists e, r = Err e) /\
   (no_fault w ->
    bcrypt_GenerateFromPassword (RegisterRequest.Password req) = None \/
    exists x, In x (users (db w)) /\ User.Email x = RegisterRequest.Email req))
  \/
  (exists (h : string) (u : User.t) (wc : World),
      bcrypt_GenerateFromPassword (RegisterRequest.Password req) = Some h /\
      (forall x, In x (users (db w)) -> User.Email x <> RegisterRequest.Email req) /\
      User.ID u = users_seq (db w) + 1 /\
      User.Email u = RegisterRequest.Email req /\
      User.Password u = h /\
      User.Provider u = ProviderLocal /\
      User.Status u = UserStatusActive /\
      User.Role u = UserRoleUser /\
      User.DeletedAt u = None /\
      User.InviteCodeID u = option_map InviteCode.ID oic /\
      User.InviteCodeUsed u = option_map InviteCode.Code oic /\
      db wc = mkDB (invite_codes (db w)) (invite_code_usages (db w))
                   (users (db w) ++ [u]) (invite_codes_seq (db w))
                   (invite_code_usages_seq (db w)) (users_seq (db w) + 1) /\
      (exists k, faults wc = skipn k (faults w)) /\
      db w' = match oic with
              | None => db wc
              | Some ic =>
                  db (snd (UseInviteCode (InviteCode.Code ic) (User.ID u)
                             "unknown" "unknown" wc))
              end /\
      ((exists token, r = Ok (AuthResponse.mk u token))
       \/ (r = Err (Errorf "failed to generate authentication token")
           /\ exists c, jwt_SignedString c = None))).
Proof.
  unfold Register_account.
  unfold bind at 1.
  pose proof (GetUserByEmail_cases (RegisterRequest.Email req) w) as Hg.
  destruct (GetUserByEmail (RegisterRequest.Email req) w) as [[x|e1] w2];
    destruct Hg as (Hg & Hf2 & Hx).
  { left. unfold ret. split; [congruence | split; [eauto|]].
    intros _. right. destruct Hx as (_ & Hx). apply stored_user_Some in Hx.
    exists x. tauto. }
  destruct (bcrypt_GenerateFromPassword (RegisterRequest.Password req)) as [hp|].
  2:{ left. unfold_m. simpl. split; [congruence | split; [eauto|auto]]. }
  unfold bind at 1.
  match goal with |- context [generateUniqueUsername ?l ?b w2] =>
    pose proof (generateUniqueUsername_db strings_ToLower b w2) as Hu;
    destruct (generateUniqueUsername_faults b w2) as [k3 Hf3];
    destruct (generateUniqueUsername l b w2) as [un w3]; simpl in Hu, Hf3
  end.
  assert (Hs3 : faults w3 = skipn (S k3) (faults w)).
  { rewrite Hf3, Hf2. change (tl (faults w)) with (skipn 1 (faults w)).
    rewrite skipn_skipn. f_equal. lia. }
  unfold bind at 1.
  match goal with |- context [CreateUser ?x w3] =>
    pose proof (CreateUser_cases x w3) as Hc; cbv zeta in Hc;
    destruct (CreateUser x w3) as [[u|e2] w4]
  end.
  2:{ left. destruct Hc as (_ & Hc & Hwhy). unfold_m. simpl.
      split; [congruence | split; [eauto|]].
      intros Hnf. right.
      destruct Hwhy as [Hh|Hex].
      - rewrite (no_fault_hd w3 (no_fault_skipn _ _ _ Hs3 Hnf)) in Hh. discriminate.
      - apply existsb_exists in Hex as (x & Hxin & Hk).
        exists x. split; [congruence|].
        destruct oic; simpl in Hk; rewrite !same_key_None, !orb_false_r in Hk;
          apply String.eqb_eq in Hk; exact Hk. }
  destruct Hc as (Hf4 & Hrow & Hfresh & Hdb4).
  assert (Hdb3 : db w3 = db w) by congruence.
  rewrite Hdb3 in *.
  assert (Hs4 : exists k, faults w4 = skipn k (faults w)).
  { exists (S (S k3)). rewrite Hf4, Hs3. apply skipn_tl. }
  assert (Hfields :
            User.ID u = users_seq (db w) + 1 /\
            User.Email u = RegisterRequest.Email req /\
            User.Password u = hp /\
            User.Provider u = ProviderLocal /\
            User.Status u = UserStatusActive /\
            User.Role u = UserRoleUser /\
            User.DeletedAt u = None /\
            User.InviteCodeID u = option_map InviteCode.ID oic /\
            User.InviteCodeUsed u = option_map InviteCode.Code oic).
  { rewrite Hrow. destruct oic; simpl; repeat split; reflexivity. }
  assert (Hfresh' : forall x, In x (users (db w)) ->
                              User.Email x <> RegisterRequest.Email req).
  { intros x Hx'. specialize (Hfresh x Hx'). destruct oic; simpl in Hfresh; exact Hfresh. }
  clear Hrow Hfresh.
  destruct Hfields as (F1 & F2 & F3 & F4 & F5 & F6 & F7 & F8 & F9).
  unfold bind at 1.
  destruct oic as [ic|].
  - unfold bind at 1.
    destruct (UseInviteCode (InviteCode.Code ic) (User.ID u) "unknown" "unknown" w4)
      as [[ic'|e3] w5] eqn:EU.
    + unfold ret at 1. unfold bind at 1.
      pose proof (GenerateToken_spec jwt_SignedString cfg_JWT_ExpireHours u w5) as Ht.
      destruct (GenerateToken jwt_SignedString cfg_JWT_ExpireHours u w5)
        as [[tok|e4] w6]; destruct Ht as (Hd & _ & Hj); unfold_m; simpl;
        right; exists hp, u, w4; rewrite EU;
        do 13 (split; [first [reflexivity | assumption]|]);
        (split; [exact Hd|]); eauto.
    + assert (Hl : exists w5', logger LError "Failed to use invite code during registration" w5
                               = (tt, w5') /\ db w5' = db w5)
        by (eexists; split; reflexivity).
      destruct Hl as (w5' & -> & Hd5). unfold bind at 1.
      pose proof (GenerateToken_spec jwt_SignedString cfg_JWT_ExpireHours u w5') as Ht.
      destruct (GenerateToken jwt_SignedString cfg_JWT_ExpireHours u w5')
        as [[tok|e4] w6]; destruct Ht as (Hd & _ & Hj); unfold_m; simpl;
        right; exists hp, u, w4; rewrite EU;
        do 13 (split; [first [reflexivity | assumption]|]);
        (split; [simpl; congruence|]); eauto.
  - unfold ret at 1. unfold bind at 1.
    pose proof (GenerateToken_spec jwt_SignedString cfg_JWT_ExpireHours u w4) as Ht.
    destruct (GenerateToken jwt_SignedString cfg_JWT_ExpireHours u w4)
      as [[tok|e4] w6]; destruct Ht as (Hd & _ & Hj); unfold_m; simpl;
      right; exists hp, u, w4;
      do 13 (split; [first [reflexivity | assumption]|]);
      (split; [exact Hd|]); eauto.
Qed.

Lemma UseInviteCode_users (code : string) (userID : Z) (ip ua : string) (w : World) :
  users (db (snd (UseInviteCode code userID ip ua w))) = users (db w) /\
  users_seq (db (snd (UseInviteCode code userID ip ua w))) = users_seq (db w).
Proof.
  pose proof (UseInviteCode_spec code userID ip ua w) as H.
  destruct (UseInviteCode code userID ip ua w) as [[ic'|e] w']; simpl.
  - destruct H as (ic & usedAt & _ & _ & _ & ->). split; reflexivity.
  - rewrite H. split; reflexivity.
Qed.

Lemma emails_unique_snoc (d : DB) (u : User.t) (rows : list User.t) :
  emails_unique d ->
  (forall x, In x (users d) -> User.Email x <> User.Email u) ->
  rows = users d ++ [u] ->
  NoDup (map User.Email rows).
Proof.
  unfold emails_unique. intros Hn Hfresh ->.
  rewrite map_app. simpl.
  apply NoDup_app; [exact Hn | constructor; [intros []|constructor] |].
  intros e He [<-|[]]. apply in_map_iff in He as (x & Hx & Hin).
  exact (Hfresh x Hin Hx).
Qed.

(** What [Register] does to the accounts: nothing, with an error; or one
    row more. *)
Lemma Register_users (req : RegisterRequest.t) (w : World) :
  let (r, w') := Register bcrypt_GenerateFromPassword jwt_SignedString
                   strings_ToLower strings_ToUpper cfg_JWT_ExpireHours req w in
  (users (db w') = users (db w) /\ exists e, r = Err e)
  \/
  (exists u,
      users (db w') = users (db w) ++ [u] /\
      User.Email u = RegisterRequest.Email req /\
      User.ID u = users_seq (db w) + 1 /\
      User.Role u = UserRoleUser /\
      (forall x, In x (users (db w)) -> User.Email x <> RegisterRequest.Email req) /\
      (forall resp, r = Ok resp -> AuthResponse.User resp = u) /\
      bcrypt_GenerateFromPassword (RegisterRequest.Password req) = Some (User.Password u) /\
      User.Provider u = ProviderLocal /\
      User.Status u = UserStatusActive /\
      User.DeletedAt u = None).
Proof.
  unfold Register.
  assert (Hacc : forall oic w1, db w1 = db w ->
    let (r, w') := Register_account bcrypt_GenerateFromPassword jwt_SignedString
                     strings_ToLower strings_ToUpper cfg_JWT_ExpireHours req oic w1 in
    (users (db w') = users (db w) /\ exists e, r = Err e)
    \/
    (exists u,
        users (db w') = users (db w) ++ [u] /\
        User.Email u = RegisterRequest.Email req /\
        User.ID u = users_seq (db w) + 1 /\
        User.Role u = UserRoleUser /\
        (forall x, In x (users (db w)) -> User.Email x <> RegisterRequest.Email req) /\
        (forall resp, r = Ok resp -> AuthResponse.User resp = u) /\
        bcrypt_GenerateFromPassword (RegisterRequest.Password req)
        = Some (User.Password u) /\
        User.Provider u = ProviderLocal /\
        User.Status u = UserStatusActive /\
        User.DeletedAt u = None)).
  { intros oic w1 Hdb1.
    pose proof (Register_account_cases req oic w1) as H.
    destruct (Register_account _ _ _ _ _ req oic w1) as [r w'].
    destruct H as [(Hdb & He & _)|(h & u & wc & Hh & Hfresh & Hid & Hem & Hpw & Hprov
                                   & Hstat & Hrole & Hdel & _ & _ & Hwc & _ & Hdb & Hr)].
    - left. split; [congruence|exact He].
    - right. exists u. rewrite Hdb1 in *.
      assert (Hus : users (db w') = users (db w) ++ [u]).
      { rewrite Hdb. destruct oic as [ic|].
        - rewrite (proj1 (UseInviteCode_users _ _ _ _ wc)), Hwc. reflexivity.
        - rewrite Hwc. reflexivity. }
      do 5 (split; [assumption|]).
      split; [|rewrite Hpw; auto].
      intros resp Hresp. destruct Hr as [(tok & ->)|(-> & _)];
        [inversion Hresp; reflexivity | discriminate]. }
  destruct (negb (RegisterRequest.InviteCode req =? "")%string).
  - unfold bind at 1.
    pose proof (ValidateInviteCode_spec (RegisterRequest.InviteCode req) w) as Hs.
    destruct (ValidateInviteCode (RegisterRequest.InviteCode req) w) as [[ic|e] w1];
      destruct Hs as (Hdb1 & _).
    + exact (Hacc (Some ic) w1 Hdb1).
    + left. unfold_m. simpl. split; [congruence|eauto].
  - exact (Hacc None w eq_refl).
Qed.

(** X12: [Register] never gives an email address a second account.
    Whatever the request, the environment and the store do: if email
    addresses were unique before they are unique afterwards; when any
    stored account, deleted or not, already has the address, no account
    is added and the caller gets an error; and a successful registration
    added exactly the returned account, with the requested address, the
    next identifier and no administrator rights. *)
Theorem registration_keeps_emails_unique :
  forall (req : RegisterRequest.t) (w : World),
    let (r, w') := Register bcrypt_GenerateFromPassword jwt_SignedString
                     strings_ToLower strings_ToUpper cfg_JWT_ExpireHours req w in
    (emails_unique (db w) -> emails_unique (db w')) /\
    (forall x, In x (users (db w)) -> User.Email x = RegisterRequest.Email req ->
               users (db w') = users (db w) /\ exists e, r = Err e) /\
    (forall resp, r = Ok resp ->
                  users (db w') = users (db w) ++ [AuthResponse.User resp] /\
                  User.Email (AuthResponse.User resp) = RegisterRequest.Email req /\
                  User.ID (AuthResponse.User resp) = users_seq (db w) + 1 /\
                  User.IsAdmin (AuthResponse.User resp) = false).
Proof.
  intros req w.
  pose proof (Register_users req w) as H.
  destruct (Register _ _ _ _ _ req w) as [r w'].
  destruct H as [(Hus & e & ->)|(u & Hus & Hem & Hid & Hrole & Hfresh & Hresp & _)].
  - split; [unfold emails_unique; rewrite Hus; auto|].
    split; [eauto|]. intros resp Hr. discriminate.
  - split; [|split].
    + intros Hn. apply (emails_unique_snoc (db w) u); [assumption| |assumption].
      intros x Hx. rewrite Hem. auto.
    + intros x Hx Hxe. exfalso. exact (Hfresh x Hx Hxe).
    + intros resp Hr. rewrite (Hresp resp Hr). repeat (split; [assumption|]).
      unfold User.IsAdmin. rewrite Hrole. reflexivity.
Qed.

Lemma skipn_nil_faults (k : nat) (w w' : World) :
  faults w' = skipn k (faults w) -> faults w = [] -> faults w' = [].
Proof. intros -> ->. apply skipn_nil. Qed.

Lemma no_fault_nil (w : World) : faults w = [] -> no_fault w.
Proof. unfold no_fault. intros ->. constructor. Qed.

(** X13: a registration without invite code never touches the invite
    codes or the ledger, and the account it returns carries no code.
    It succeeds whenever the store does not fail, the address is new,
    the password can be hashed and the token signed. *)
Theorem registration_without_code_leaves_codes_alone :
  forall (req : RegisterRequest.t) (w : World),
    RegisterRequest.InviteCode req = "" ->
    let (r, w') := Register bcrypt_GenerateFromPassword jwt_SignedString
                     strings_ToLower strings_ToUpper cfg_JWT_ExpireHours req w in
    invite_codes (db w') = invite_codes (db w) /\
    invite_code_usages (db w') = invite_code_usages (db w) /\
    (forall resp, r = Ok resp ->
                  User.InviteCodeID (AuthResponse.User resp) = None /\
                  User.InviteCodeUsed (AuthResponse.User resp) = None) /\
    (no_fault w ->
     (forall x, In x (users (db w)) -> User.Email x <> RegisterRequest.Email req) ->
     bcrypt_GenerateFromPassword (RegisterRequest.Password req) <> None ->
     signs jwt_SignedString ->
     exists resp, r = Ok resp).
Proof.
  intros req w Hnone. unfold Register. rewrite Hnone. cbn [String.eqb negb].
  pose proof (Register_account_cases req None w) as H.
  destruct (Register_account _ _ _ _ _ req None w) as [r w'].
  destruct H as [(Hdb & (e & ->) & Hwhy)
                |(h & u & wc & _ & _ & _ & _ & _ & _ & _ & _ & _ & Hic & Hcode
                  & Hwc & _ & Hdb & Hr)].
  - rewrite Hdb. do 2 (split; [reflexivity|]). split; [discriminate|].
    intros Hnf Hfresh Hh _. exfalso. destruct (Hwhy Hnf) as [Hn|(x & Hx & Hxe)].
    + exact (Hh Hn).
    + exact (Hfresh x Hx Hxe).
  - rewrite Hdb, Hwc. cbn [invite_codes invite_code_usages].
    do 2 (split; [reflexivity|]). split.
    + intros resp Hresp. destruct Hr as [(tok & ->)|(-> & _)]; [|discriminate].
      inversion Hresp. simpl. auto.
    + intros _ _ _ Hsign. destruct Hr as [(tok & ->)|(_ & c & Hc)]; [eauto|].
      exfalso. exact (Hsign c Hc).
Qed.

Lemma stored_code_same_codes (d d' : DB) (code : string) :
  invite_codes d' = invite_codes d -> stored_code d' code = stored_code d code.
Proof. unfold stored_code, live_invite_codes. intros ->. reflexivity. Qed.

(** X14: a registration with a usable code, end to end. On a store
    that does not fail, with a new address, a password that can be
    hashed and a token that can be signed, [Register] succeeds; the
    account is stored and names the code; the code's row is replaced by
    the redeemed one, whose counter is one higher, and is what a lookup
    of the code now finds; and the ledger gains exactly one entry, which
    names the code and the new account. *)
Theorem registration_with_code_redeems_it :
  forall (req : RegisterRequest.t) (w : World) (ic : InviteCode.t),
    faults w = [] ->
    ids_unique (db w) ->
    RegisterRequest.InviteCode req <> "" ->
    stored_code (db w) (RegisterRequest.InviteCode req) = Some ic ->
    InviteCode.Status ic = InviteCodeStatusActive ->
    InviteCode.UsedCount ic < InviteCode.MaxUses ic ->
    row_ok ic ->
    (forall x, In x (users (db w)) -> User.Email x <> RegisterRequest.Email req) ->
    bcrypt_GenerateFromPassword (RegisterRequest.Password req) <> None ->
    signs jwt_SignedString ->
    let (r, w') := Register bcrypt_GenerateFromPassword jwt_SignedString
                     strings_ToLower strings_ToUpper cfg_JWT_ExpireHours req w in
    exists (u : User.t) (token : TokenResponse.t) (usedAt : Z),
      r = Ok (AuthResponse.mk u token) /\
      users (db w') = users (db w) ++ [u] /\
      User.InviteCodeID u = Some (InviteCode.ID ic) /\
      User.InviteCodeUsed u = Some (InviteCode.Code ic) /\
      invite_codes (db w') = save_row (redeemed ic) (invite_codes (db w)) /\
      stored_code (db w') (RegisterRequest.InviteCode req) = Some (redeemed ic) /\
      InviteCode.UsedCount (redeemed ic) = InviteCode.UsedCount ic + 1 /\
      invite_code_usages (db w')
      = invite_code_usages (db w)
        ++ [InviteCodeUsage.mk (invite_code_usages_seq (db w) + 1) (InviteCode.ID ic)
                               (User.ID u) usedAt "unknown" "unknown" None].
Proof.
  intros req w ic Hf Hu Hne Hst Hact Hlt Hok Hfresh Hh Hsign.
  pose proof (stored_code_Some _ _ _ Hst) as (Hin & Hcode & Hd).
  pose proof (CanBeUsed_intro ic Hact Hlt Hd) as Hcan.
  unfold Register.
  apply String.eqb_neq in Hne. rewrite Hne. cbn [negb].
  unfold bind at 1.
  rewrite (ValidateInviteCode_quiet w _ Hf), Hst, Hcan. cbn [negb].
  pose proof (Register_account_cases req (Some ic) w) as H.
  destruct (Register_account _ _ _ _ _ req (Some ic) w) as [r w'].
  destruct H as [(_ & _ & Hwhy)
                |(h & u & wc & _ & _ & _ & _ & _ & _ & _ & _ & _ & Hicid & Hiccode
                  & Hwc & (k & Hk) & Hdb & Hr)].
  { exfalso. destruct (Hwhy (no_fault_nil w Hf)) as [Hn|(x & Hx & Hxe)].
    - exact (Hh Hn).
    - exact (Hfresh x Hx Hxe). }
  destruct Hr as [(tok & ->)|(_ & c & Hc)]; [|exfalso; exact (Hsign c Hc)].
  pose proof (skipn_nil_faults k w wc Hk Hf) as Hfc.
  destruct (UseInviteCode_quiet (InviteCode.Code ic) (User.ID u) "unknown" "unknown"
              wc Hfc) as (wu & _ & Hrun & Hdbu).
  rewrite Hrun in Hdb. cbn [snd] in Hdb.
  rewrite <- Hcode in *.
  assert (Hstc : stored_code (db wc) (InviteCode.Code ic) = Some ic).
  { rewrite (stored_code_same_codes (db w) (db wc)); [exact Hst|].
    rewrite Hwc; reflexivity. }
  rewrite Hstc, Hcan in Hdbu. cbn [negb] in Hdbu.
  destruct (redeemed_fields ic) as (Rid & Rcode & Rdel & _ & Rcount).
  exists u, tok, (match clock wc with [] => 0 | t :: _ => t end).
  rewrite Hdb, Hdbu, Hwc. unfold insert_usage, with_invite_codes.
  cbn [invite_codes invite_code_usages users invite_codes_seq invite_code_usages_seq
       users_seq].
  split; [reflexivity|]. split; [reflexivity|].
  split; [exact Hicid|]. split; [exact Hiccode|]. split; [reflexivity|].
  split; [|split].
  - pose proof (stored_code_after_save (db w) (InviteCode.Code ic) ic (redeemed ic)
                  (invite_code_usages (db w) ++
                   [InviteCodeUsage.with_ID (invite_code_usages_seq (db w) + 1)
                      (InviteCodeUsage.mk 0 (InviteCode.ID (redeemed ic)) (User.ID u)
                         (match clock wc with [] => 0 | t :: _ => t end)
                         "unknown" "unknown" None)])
                  (invite_code_usages_seq (db w) + 1)
                  Hst Rid Rcode Rdel (ids_unique_same (db w) ic ic Hu Hin)) as Hsave.
    unfold stored_code, live_invite_codes in *. cbn [invite_codes] in *.
    exact Hsave.
  - rewrite Rcount. apply wrap_int_id.
    destruct Hok as [[H0 _] Hm]. unfold int_range. lia.
  - rewrite Rid. reflexivity.
Qed.

End RegistrationProperties.

Section SessionProperties.

Variable bcrypt_GenerateFromPassword : string -> option string.
Variable bcrypt_CompareHashAndPassword : string -> string -> bool.
Variable jwt_SignedString : Claims.t -> option string.
Variable strings_ToLower : string -> string.
Variable strings_ToUpper : string -> string.
Variable cfg_JWT_ExpireHours : Z.

Lemma GenerateToken_signs (user : User.t) (w : World) :
  signs jwt_SignedString ->
  exists token, fst (GenerateToken jwt_SignedString cfg_JWT_ExpireHours user w) = Ok token.
Proof.
  intros Hs.
  pose proof (GenerateToken_spec jwt_SignedString cfg_JWT_ExpireHours user w) as H.
  destruct (GenerateToken jwt_SignedString cfg_JWT_ExpireHours user w) as [[tok|e] w'].
  - simpl. eauto.
  - destruct H as (_ & _ & c & Hc). exfalso. exact (Hs c Hc).
Qed.

(** The answer of [Login] from what the lookup finds. *)
Lemma Login_cases (req : LoginRequest.t) (w : World) :
  let (r, w') := Login bcrypt_CompareHashAndPassword jwt_SignedString
                       cfg_JWT_ExpireHours req w in
  db w' = db w /\
  ((hd false (faults w) = true /\ r = Err (Errorf "invalid email or password"))
   \/
   (hd false (faults w) = false /\
    match stored_user (db w) (LoginRequest.Email req) with
    | None => r = Err (Errorf "invalid email or password")
    | Some user =>
        if negb (IsLocalAccount user) then
          r = Err (Errorf ("this account uses " ++ User.Provider user
                           ++ " authentication. Please use the appropriate login method"))
        else if negb (User.IsActive user) then
          r = Err (Errorf ("account is " ++ User.Status user ++ ". Please contact support"))
        else if negb (bcrypt_CompareHashAndPassword (User.Password user)
                                                    (LoginRequest.Password req)) then
          r = Err (Errorf "invalid email or password")
        else
          (exists token, r = Ok (AuthResponse.mk user token))
          \/ (r = Err (Errorf "failed to generate authentication token")
              /\ exists c, jwt_SignedString c = None)
    end)).
Proof.
  unfold Login. unfold bind at 1.
  pose proof (GetUserByEmail_cases (LoginRequest.Email req) w) as Hg.
  destruct (GetUserByEmail (LoginRequest.Email req) w) as [[user|e] w1];
    destruct Hg as (Hdb & _ & Hx).
  - destruct Hx as (Hh & Hst). rewrite Hst.
    destruct (negb (IsLocalAccount user)); [unfold_m; simpl; auto|].
    destruct (negb (User.IsActive user)); [unfold_m; simpl; auto|].
    destruct (negb (bcrypt_CompareHashAndPassword _ _)); [unfold_m; simpl; auto|].
    unfold bind at 1.
    pose proof (GenerateToken_spec jwt_SignedString cfg_JWT_ExpireHours user w1) as Ht.
    destruct (GenerateToken jwt_SignedString cfg_JWT_ExpireHours user w1)
      as [[tok|e4] w2]; destruct Ht as (Hd & _ & Hj); unfold_m; simpl;
      (split; [congruence|]); right; (split; [exact Hh|]); eauto.
  - unfold_m. simpl. split; [exact Hdb|].
    destruct Hx as [Hh|(Hst & _)]; [left; auto|].
    destruct (hd false (faults w)) eqn:Hhd; [left; auto|].
    right. rewrite Hst. auto.
Qed.

(** X15: [Login] never writes to the store, and it succeeds only for
    a stored account that is not deleted, has the requested address, is
    a local account, is active, and whose stored hash [bcrypt] accepts
    for the given password; the account returned is that one. *)
Theorem login_answers_only_the_password_holder :
  forall (req : LoginRequest.t) (w : World),
    let (r, w') := Login bcrypt_CompareHashAndPassword jwt_SignedString
                         cfg_JWT_ExpireHours req w in
    db w' = db w /\
    match r with
    | Ok resp =>
        let user := AuthResponse.User resp in
        In user (users (db w)) /\
        User.Email user = LoginRequest.Email req /\
        User.DeletedAt user = None /\
        User.Provider user = ProviderLocal /\
        User.Status user = UserStatusActive /\
        bcrypt_CompareHashAndPassword (User.Password user) (LoginRequest.Password req)
        = true
    | Err _ => True
    end.
Proof.
  intros req w.
  pose proof (Login_cases req w) as H.
  destruct (Login _ _ _ req w) as [r w'].
  destruct H as (Hdb & H). split; [exact Hdb|].
  destruct r as [resp|e]; [|exact I].
  destruct H as [(_ & Hr)|(_ & H)]; [discriminate|].
  destruct (stored_user (db w) (LoginRequest.Email req)) as [user|] eqn:Hst;
    [|discriminate].
  unfold IsLocalAccount, User.IsActive in H.
  destruct (User.Provider user =? ProviderLocal)%string eqn:Hp; [|discriminate].
  destruct (User.Status user =? UserStatusActive)%string eqn:Hs; [|discriminate].
  cbn [negb andb] in H.
  destruct (negb (User.IsDeleted user)) eqn:Hdel; [|discriminate].
  cbn [negb] in H.
  destruct (bcrypt_CompareHashAndPassword _ _) eqn:Hc; [|discriminate].
  cbn [negb] in H.
  destruct H as [(tok & Hr)|(Hr & _)]; [|discriminate].
  inversion Hr; subst resp. cbn [AuthResponse.User].
  apply stored_user_Some in Hst as (Hin & He & Hd).
  apply String.eqb_eq in Hp, Hs. auto 7.
Qed.

Lemma Login_refused :
  forall (req : LoginRequest.t) (w : World),
    (stored_user (db w) (LoginRequest.Email req) = None
     \/ exists user,
          stored_user (db w) (LoginRequest.Email req) = Some user /\
          IsLocalAccount user = true /\ User.IsActive user = true /\
          bcrypt_CompareHashAndPassword (User.Password user) (LoginRequest.Password req)
          = false) ->
    fst (Login bcrypt_CompareHashAndPassword jwt_SignedString cfg_JWT_ExpireHours req w)
    = Err (Errorf "invalid email or password").
Proof.
  intros req w Hcase.
  pose proof (Login_cases req w) as H.
  destruct (Login _ _ _ req w) as [r w']. simpl.
  destruct H as (_ & [(_ & Hr)|(_ & H)]); [exact Hr|].
  destruct Hcase as [Hn|(user & Hs & Hl & Ha & Hc)].
  - rewrite Hn in H. exact H.
  - rewrite Hs, Hl, Ha, Hc in H. exact H.
Qed.

(** X16: an unknown address and a wrong password are refused alike.
    When no live account has the address, or when the account is local
    and active but the password does not match, [Login] answers
    [invalid email or password], whatever the store does, and changes
    nothing. *)
Theorem login_refusal_is_uniform :
  forall (req : LoginRequest.t) (w : World),
    (stored_user (db w) (LoginRequest.Email req) = None
     \/ exists user,
          stored_user (db w) (LoginRequest.Email req) = Some user /\
          IsLocalAccount user = true /\ User.IsActive user = true /\
          bcrypt_CompareHashAndPassword (User.Password user) (LoginRequest.Password req)
          = false) ->
    let (r, w') := Login bcrypt_CompareHashAndPassword jwt_SignedString
                         cfg_JWT_ExpireHours req w in
    r = Err (Errorf "invalid email or password") /\ db w' = db w.
Proof.
  intros req w Hcase.
  pose proof (Login_refused req w Hcase) as Hr.
  pose proof (Login_cases req w) as H.
  destruct (Login _ _ _ req w) as [r w']. simpl in Hr.
  split; [exact Hr | exact (proj1 H)].
Qed.

Lemma filter_none {A : Type} (p : A -> bool) (l : list A) :
  (forall x, In x l -> p x = false) -> filter p l = [].
Proof.
  induction l as [|a l IH]; simpl; intros H; [reflexivity|].
  rewrite (H a (or_introl eq_refl)). apply IH. auto.
Qed.

Lemma stored_user_snoc (d : DB) (rows : list User.t) (u : User.t) :
  users d = rows ++ [u] ->
  (forall x, In x rows -> User.Email x <> User.Email u) ->
  User.DeletedAt u = None ->
  stored_user d (User.Email u) = Some u.
Proof.
  intros Hus Hfresh Hdel. unfold stored_user, live_users. rewrite Hus.
  rewrite !filter_app. simpl. unfold User.IsDeleted at 2. rewrite Hdel. simpl.
  rewrite String.eqb_refl.
  rewrite (filter_none (fun u0 => (User.Email u0 =? User.Email u)%string)
             (filter (fun u0 => negb (User.IsDeleted u0)) rows)).
  - reflexivity.
  - intros x Hx. apply filter_In in Hx as [Hx _]. apply String.eqb_neq. auto.
Qed.

Lemma Login_no_fault (req : LoginRequest.t) (w : World) :
  no_fault w ->
  forall user,
    stored_user (db w) (LoginRequest.Email req) = Some user ->
    IsLocalAccount user = true -> User.IsActive user = true ->
    (bcrypt_CompareHashAndPassword (User.Password user) (LoginRequest.Password req) = true ->
     signs jwt_SignedString ->
     exists token,
       fst (Login bcrypt_CompareHashAndPassword jwt_SignedString cfg_JWT_ExpireHours req w)
       = Ok (AuthResponse.mk user token)).
Proof.
  intros Hnf user Hs Hl Ha Hc Hsign.
  pose proof (Login_cases req w) as H.
  destruct (Login _ _ _ req w) as [r w']. simpl.
  destruct H as (_ & [(Hh & _)|(_ & H)]).
  - rewrite (no_fault_hd w Hnf) in Hh. discriminate.
  - rewrite Hs, Hl, Ha, Hc in H. cbn [negb] in H.
    destruct H as [H|(_ & c & Hn)]; [exact H|]. exfalso. exact (Hsign c Hn).
Qed.

(** X17: the account a successful [Register] returns can log in.
    Provided [bcrypt] accepts the password a hash was made from and
    tokens can be signed: on the store the registration left, and as
    long as the store does not fail, [Login] with the same address and
    password returns that account, and with any password the hash
    rejects it answers [invalid email or password]. *)
Theorem registered_user_can_log_in :
  forall (req : RegisterRequest.t) (w w1 : World) (resp : AuthResponse.t),
    bcrypt_accepts_own_hash bcrypt_GenerateFromPassword bcrypt_CompareHashAndPassword ->
    signs jwt_SignedString ->
    Register bcrypt_GenerateFromPassword jwt_SignedString strings_ToLower
             strings_ToUpper cfg_JWT_ExpireHours req w = (Ok resp, w1) ->
    forall w2, db w2 = db w1 -> no_fault w2 ->
      (exists token,
          fst (Login bcrypt_CompareHashAndPassword jwt_SignedString cfg_JWT_ExpireHours
                 (LoginRequest.mk (RegisterRequest.Email req)
                                  (RegisterRequest.Password req)) w2)
          = Ok (AuthResponse.mk (AuthResponse.User resp) token)) /\
      (forall password,
          bcrypt_CompareHashAndPassword (User.Password (AuthResponse.User resp)) password
          = false ->
          fst (Login bcrypt_CompareHashAndPassword jwt_SignedString cfg_JWT_ExpireHours
                 (LoginRequest.mk (RegisterRequest.Email req) password) w2)
          = Err (Errorf "invalid email or password")).
Proof.
  intros req w w1 resp Hb Hsign Hrun w2 Hdb2 Hnf2.
  pose proof (Register_users bcrypt_GenerateFromPassword jwt_SignedString
                strings_ToLower strings_ToUpper cfg_JWT_ExpireHours req w) as H.
  rewrite Hrun in H.
  destruct H as [(_ & e & He)|(u & Hus & Hem & _ & _ & Hfresh & Hresp & Hh & Hprov
                               & Hstat & Hdel)]; [discriminate|].
  rewrite (Hresp resp eq_refl).
  assert (Hst : stored_user (db w2) (RegisterRequest.Email req) = Some u).
  { rewrite <- Hem. apply (stored_user_snoc (db w2) (users (db w)) u).
    - rewrite Hdb2. exact Hus.
    - intros x Hx. rewrite Hem. auto.
    - exact Hdel. }
  assert (Hl : IsLocalAccount u = true)
    by (unfold IsLocalAccount; rewrite Hprov; reflexivity).
  assert (Ha : User.IsActive u = true)
    by (unfold User.IsActive, User.IsDeleted; rewrite Hstat, Hdel; reflexivity).
  split.
  - apply (Login_no_fault (LoginRequest.mk (RegisterRequest.Email req)
                                           (RegisterRequest.Password req)) w2 Hnf2 u);
      auto.
  - intros password Hwrong. apply Login_refused.
    right. exists u. simpl. auto.
Qed.

Lemma GetUserByID_cases (id : Z) (w : World) :
  let (r, w') := GetUserByID id w in
  db w' = db w /\
  match r with
  | Ok u => In u (users (db w)) /\ User.ID u = id /\ User.DeletedAt u = None
  | Err _ => True
  end.
Proof.
  unfold GetUserByID, First_User. unfold_m.
  destruct w as [d fs en pr cl lg]; simpl.
  destruct fs as [|[|] fs]; simpl; auto;
    (destruct (min_by _ _) as [u|] eqn:E; simpl; [|auto];
     split; [reflexivity|];
     apply min_by_In in E; apply filter_In in E as [E Hid];
     unfold live_users in E; apply filter_In in E as [E Hd];
     apply Z.eqb_eq in Hid; unfold User.IsDeleted in Hd;
     destruct (User.DeletedAt u); [discriminate|auto]).
Qed.

Lemma UpdateUser_cases (u : User.t) (w : World) :
  let (r, w') := UpdateUser u w in
  match r with
  | Ok _ =>
      (User.ID u <> 0 /\
       db w' = mkDB (invite_codes (db w)) (invite_code_usages (db w))
                    (save_user u (users (db w))) (invite_codes_seq (db w))
                    (invite_code_usages_seq (db w)) (users_seq (db w)))
      \/ (User.ID u = 0 /\
          forall x, In x (users (db w)) -> User.Email x <> User.Email u)
  | Err _ => db w' = db w
  end.
Proof.
  unfold UpdateUser, Save_User.
  destruct (User.ID u =? 0) eqn:E0.
  - apply Z.eqb_eq in E0. unfold bind at 1. unfold bind at 1.
    pose proof (Create_User_cases u w) as H. cbv zeta in H.
    destruct (Create_User u w) as [[row|e] w1]; destruct H as (_ & _ & H);
      unfold_m; simpl.
    + right. split; [exact E0|]. tauto.
    + tauto.
  - apply Z.eqb_neq in E0. unfold_m.
    destruct w as [d fs en pr cl lg]; simpl.
    destruct fs as [|[|] fs]; simpl; auto;
      match goal with |- context [existsb ?p (users d)] =>
        destruct (existsb p (users d)) end; simpl; auto.
Qed.

Lemma ChangePassword_cases (userID : Z) (oldPassword newPassword : string) (w : World) :
  let (r, w') := ChangePassword bcrypt_GenerateFromPassword bcrypt_CompareHashAndPassword
                                userID oldPassword newPassword w in
  match r with
  | Ok _ =>
      exists u h,
        In u (users (db w)) /\ User.ID u = userID /\ User.DeletedAt u = None /\
        User.Provider u = ProviderLocal /\
        bcrypt_CompareHashAndPassword (User.Password u) oldPassword = true /\
        bcrypt_GenerateFromPassword newPassword = Some h /\
        db w' = mkDB (invite_codes (db w)) (invite_code_usages (db w))
                     (save_user (with_Password h u) (users (db w)))
                     (invite_codes_seq (db w)) (invite_code_usages_seq (db w))
                     (users_seq (db w))
  | Err _ => db w' = db w
  end.
Proof.
  unfold ChangePassword. unfold bind at 1.
  pose proof (GetUserByID_cases userID w) as Hg.
  destruct (GetUserByID userID w) as [[u|e] w1]; destruct Hg as (Hdb1 & Hu);
    [|unfold ret; exact Hdb1].
  destruct Hu as (Hin & Hid & Hdel).
  unfold IsLocalAccount.
  destruct (User.Provider u =? ProviderLocal)%string eqn:Hp; cbn [negb];
    [|unfold ret; exact Hdb1].
  apply String.eqb_eq in Hp.
  destruct (bcrypt_CompareHashAndPassword (User.Password u) oldPassword) eqn:Hc;
    cbn [negb]; [|unfold_m; simpl; exact Hdb1].
  destruct (bcrypt_GenerateFromPassword newPassword) as [h|] eqn:Hh;
    [|unfold_m; simpl; exact Hdb1].
  unfold bind at 1.
  pose proof (UpdateUser_cases (with_Password h u) w1) as Hs.
  destruct (UpdateUser (with_Password h u) w1) as [[[]|e] w2]; unfold_m; simpl.
  - exists u, h. rewrite Hdb1 in Hs.
    destruct Hs as [(_ & Hs)|(_ & Hfresh)].
    + auto 10.
    + exfalso. exact (Hfresh u Hin eq_refl).
  - congruence.
Qed.

Lemma save_user_existing (u0 u' : User.t) (rows : list User.t) :
  NoDup (map User.ID rows) -> In u0 rows -> User.ID u' = User.ID u0 ->
  save_user u' rows = map (fun r => if User.ID r =? User.ID u0 then u' else r) rows /\
  forall r, In r rows -> User.ID r = User.ID u0 -> r = u0.
Proof.
  intros Hn Hin Hid. split.
  - unfold save_user. rewrite Hid.
    assert (Hex : existsb (fun r => User.ID r =? User.ID u0) rows = true).
    { apply existsb_exists. exists u0. rewrite Z.eqb_refl. auto. }
    rewrite Hex. reflexivity.
  - clear u' Hid. induction rows as [|a rows IH]; [contradiction|].
    simpl in Hn. inversion Hn as [|? ? Hna Hn']; subst.
    intros r [<-|Hr] Hrid; destruct Hin as [<-|Hin]; auto.
    + exfalso. apply Hna. rewrite Hrid. apply in_map. exact Hin.
    + exfalso. apply Hna. rewrite <- Hrid. apply in_map. exact Hr.
Qed.

Lemma filter_unique_email (q : User.t -> bool) (rows : list User.t) (u : User.t) :
  NoDup (map User.Email rows) -> In u rows -> q u = true ->
  filter (fun x => (User.Email x =? User.Email u)%string) (filter q rows) = [u].
Proof.
  intros Hn Hin Hq. induction rows as [|a rows IH]; [contradiction|].
  simpl in Hn. inversion Hn as [|? ? Hna Hn']; subst.
  destruct Hin as [->|Hin].
  - simpl. rewrite Hq. simpl. rewrite String.eqb_refl. f_equal.
    apply filter_none. intros x Hx. apply filter_In in Hx as [Hx _].
    apply String.eqb_neq. intros He. apply Hna. rewrite <- He. apply in_map. exact Hx.
  - assert (Hne : (User.Email a =? User.Email u)%string = false).
    { apply String.eqb_neq. intros He. apply Hna. rewrite He. apply in_map. exact Hin. }
    simpl. destruct (q a); simpl; [rewrite Hne|]; apply IH; assumption.
Qed.

Lemma stored_user_unique (d : DB) (u : User.t) :
  emails_unique d -> In u (users d) -> User.DeletedAt u = None ->
  stored_user d (User.Email u) = Some u.
Proof.
  intros Hn Hin Hdel. unfold stored_user, live_users.
  rewrite (filter_unique_email _ (users d) u Hn Hin).
  - reflexivity.
  - unfold User.IsDeleted. rewrite Hdel. reflexivity.
Qed.

Lemma stored_user_map (d d' : DB) (f : User.t -> User.t) (email : string) :
  users d' = map f (users d) ->
  (forall x, User.ID (f x) = User.ID x /\ User.Email (f x) = User.Email x /\
             User.DeletedAt (f x) = User.DeletedAt x) ->
  stored_user d' email = option_map f (stored_user d email).
Proof.
  intros Hus Hf. unfold stored_user, live_users. rewrite Hus.
  rewrite filter_map_commute.
  2:{ intros x _. unfold User.IsDeleted. rewrite (proj2 (proj2 (Hf x))). reflexivity. }
  rewrite filter_map_commute.
  2:{ intros x _. rewrite (proj1 (proj2 (Hf x))). reflexivity. }
  apply min_by_map. intros x _. apply (Hf x).
Qed.

(** X18: a successful [ChangePassword] verified the old password of
    a live local account with that identifier and stored the hash of
    the new password in its row. With identifiers a primary key it
    wrote no other column of [users] (the time stamp [updated_at],
    outside the embedding, aside): every account keeps identifier,
    address, names, provider, status, role, provider keys, invite code
    and deletion mark, an account with another identifier is untouched,
    and the invite codes and the ledger are as before. With unique
    addresses, an active account then logs in with the new password
    and, when the new hash rejects the old password, no longer with the
    old one. *)
Theorem password_change_takes_effect :
  forall (userID : Z) (oldPassword newPassword : string) (w w' : World),
    user_ids_unique (db w) ->
    emails_unique (db w) ->
    ChangePassword bcrypt_GenerateFromPassword bcrypt_CompareHashAndPassword
                   userID oldPassword newPassword w = (Ok tt, w') ->
    exists (u u' : User.t) (h : string),
      In u (users (db w)) /\ User.ID u = userID /\
      User.DeletedAt u = None /\ User.Provider u = ProviderLocal /\
      bcrypt_CompareHashAndPassword (User.Password u) oldPassword = true /\
      bcrypt_GenerateFromPassword newPassword = Some h /\
      In u' (users (db w')) /\ same_but_password u u' /\ User.Password u' = h /\
      Forall2 same_but_password (users (db w)) (users (db w')) /\
      (forall r, In r (users (db w')) -> User.ID r <> userID -> In r (users (db w))) /\
      invite_codes (db w') = invite_codes (db w) /\
      invite_code_usages (db w') = invite_code_usages (db w) /\
      forall w2, db w2 = db w' -> no_fault w2 ->
        (User.Status u = UserStatusActive ->
         bcrypt_accepts_own_hash bcrypt_GenerateFromPassword
                                 bcrypt_CompareHashAndPassword ->
         signs jwt_SignedString ->
         exists token,
           fst (Login bcrypt_CompareHashAndPassword jwt_SignedString cfg_JWT_ExpireHours
                  (LoginRequest.mk (User.Email u) newPassword) w2)
           = Ok (AuthResponse.mk u' token)) /\
        (User.Status u = UserStatusActive ->
         bcrypt_CompareHashAndPassword h oldPassword = false ->
         fst (Login bcrypt_CompareHashAndPassword jwt_SignedString cfg_JWT_ExpireHours
                (LoginRequest.mk (User.Email u) oldPassword) w2)
         = Err (Errorf "invalid email or password")).
Proof.
  intros userID oldPassword newPassword w w' Hids Hemails Hrun.
  pose proof (ChangePassword_cases userID oldPassword newPassword w) as H.
  rewrite Hrun in H.
  destruct H as (u & h & Hin & Hid & Hdel & Hprov & Hc & Hh & Hdb).
  exists u, (with_Password h u), h.
  destruct (save_user_existing u (with_Password h u) (users (db w)) Hids Hin eq_refl)
    as (Hsave & Hsame).
  assert (Hus : users (db w')
                = map (fun r => if User.ID r =? userID then with_Password h r else r)
                      (users (db w))).
  { rewrite Hdb. cbn [users]. rewrite Hsave. apply map_ext_in.
    intros r Hr. rewrite Hid. destruct (User.ID r =? userID) eqn:E; [|reflexivity].
    apply Z.eqb_eq in E. rewrite (Hsame r Hr); [reflexivity|congruence]. }
  do 6 (split; [assumption|]).
  split.
  { rewrite Hus. apply in_map_iff. exists u. rewrite Hid, Z.eqb_refl. auto. }
  split; [unfold same_but_password; simpl; auto 20|]. split; [reflexivity|].
  split.
  { rewrite Hus. apply Forall2_map_self. intros x _.
    destruct (User.ID x =? userID);
      [unfold same_but_password; simpl; auto 20 | apply same_but_password_refl]. }
  split.
  { intros r Hr Hne. rewrite Hus in Hr. apply in_map_iff in Hr as (x & Hx & Hxin).
    destruct (User.ID x =? userID) eqn:E.
    - apply Z.eqb_eq in E. subst r. simpl in Hne. congruence.
    - subst r. exact Hxin. }
  split; [rewrite Hdb; reflexivity|]. split; [rewrite Hdb; reflexivity|].
  intros w2 Hdb2 Hnf2.
  assert (Hst : User.Status u = UserStatusActive ->
                stored_user (db w2) (User.Email u) = Some (with_Password h u)).
  { intros _.
    rewrite (stored_user_map (db w) (db w2)
               (fun r => if User.ID r =? userID then with_Password h r else r)).
    - rewrite (stored_user_unique (db w) u Hemails Hin Hdel). simpl.
      rewrite Hid, Z.eqb_refl. reflexivity.
    - rewrite Hdb2. exact Hus.
    - intros x. destruct (User.ID x =? userID); simpl; auto. }
  assert (Hl : IsLocalAccount (with_Password h u) = true)
    by (unfold IsLocalAccount; simpl; rewrite Hprov; reflexivity).
  split.
  - intros Hact Hb Hsign.
    apply (Login_no_fault (LoginRequest.mk (User.Email u) newPassword) w2 Hnf2
             (with_Password h u)); auto.
    unfold User.IsActive, User.IsDeleted. simpl. rewrite Hact, Hdel. reflexivity.
  - intros Hact Hwrong. apply Login_refused. right.
    exists (with_Password h u). simpl. split; [auto|]. split; [exact Hl|].
    split; [|exact Hwrong].
    unfold User.IsActive, User.IsDeleted. simpl. rewrite Hact, Hdel. reflexivity.
Qed.

End SessionProperties.

Section UsernameProperties.

Variable strings_ToLower : string -> string.

Lemma usernameExists_cases (username : string) (w : World) :
  let (e, w') := usernameExists username w in
  db w' = db w /\ faults w' = tl (faults w) /\ prng w' = prng w /\
  clock w' = clock w /\
  if e then counts_as_taken (db w) (nth 0 (faults w) false) username
  else forall x, In x (live_users (db w)) -> User.Username x <> username.
Proof.
  unfold usernameExists, Count_User, counts_as_taken. unfold_m.
  destruct w as [d fs en pr cl lg]; simpl.
  assert (Hfound : forall x,
             In x (filter (fun u => (User.Username u =? username)%string) (live_users d))
             <-> In x (live_users d) /\ User.Username x = username).
  { intros x. rewrite filter_In, String.eqb_eq. reflexivity. }
  destruct fs as [|[|] fs]; simpl; repeat (split; [reflexivity|]); auto;
    (destruct (filter (fun u => (User.Username u =? username)%string) (live_users d))
       as [|a l]; simpl;
     [ intros x Hx He; apply (proj2 (Hfound x)); auto
     | right; exists a; apply Hfound; left; reflexivity ]).
Qed.

Lemma length_append (a b : string) :
  String.length (a ++ b) = (String.length a + String.length b)%nat.
Proof. induction a as [|c a IH]; simpl; [reflexivity|rewrite IH; reflexivity]. Qed.

Lemma nth_tl {A : Type} (k : nat) (l : list A) (d : A) : nth k (tl l) d = nth (S k) l d.
Proof. destruct l; [destruct k; reflexivity|reflexivity]. Qed.

Lemma rand_Intn_cases (n : Z) (w : World) :
  let (r, w') := rand_Intn n w in
  r = nth 0 (prng w) 0 mod n /\
  db w' = db w /\ faults w' = faults w /\ prng w' = tl (prng w) /\ clock w' = clock w.
Proof.
  unfold rand_Intn. destruct w as [d fs en pr cl lg]; simpl.
  destruct pr as [|v pr]; simpl; auto using Zmod_0_l.
Qed.

(** The loop over the random candidates: it returns a candidate that no
    live account carries, or, all candidates counting as taken, the base
    followed by the time. *)
Lemma generateUniqueUsername_loop_cases (n : nat) (base : string) (w : World) :
  let candidate :=
    fun k => (base ++ Itoa (nth k (prng w) 0 mod 9999 + 1))%string in
  let (name, w') := generateUniqueUsername_loop n base w in
  db w' = db w /\
  (((exists k, (k < n)%nat /\ name = candidate k) /\
    forall x, In x (live_users (db w)) -> User.Username x <> name)
   \/
   (name = (base ++ Itoa (nth 0 (clock w) 0))%string /\
    forall k, (k < n)%nat ->
              counts_as_taken (db w) (nth k (faults w) false) (candidate k))).
Proof.
  revert w; induction n as [|n IH]; intros w; cbn [generateUniqueUsername_loop].
  - unfold_m. destruct w as [d fs en pr cl lg]; simpl.
    destruct cl as [|t cl]; simpl;
      (split; [reflexivity|right; split; [reflexivity|intros k Hk; lia]]).
  - cbv zeta. unfold bind at 1.
    pose proof (rand_Intn_cases 9999 w) as Hr.
    destruct (rand_Intn 9999 w) as [r w1].
    destruct Hr as (Hr & Hd1 & Hf1 & Hp1 & Hc1).
    unfold bind.
    pose proof (usernameExists_cases (base ++ Itoa (r + 1)) w1) as Hu.
    destruct (usernameExists (base ++ Itoa (r + 1)) w1) as [[|] w2];
      destruct Hu as (Hd2 & Hf2 & Hp2 & Hc2 & Htaken).
    + specialize (IH w2). cbv zeta in IH.
      destruct (generateUniqueUsername_loop n base w2) as [name w3].
      destruct IH as (Hd3 & Hcase).
      split; [congruence|].
      assert (Hp : forall k, nth k (prng w2) 0 = nth (S k) (prng w) 0)
        by (intros k; rewrite Hp2, Hp1; apply nth_tl).
      assert (Hf : forall k, nth k (faults w2) false = nth (S k) (faults w) false)
        by (intros k; rewrite Hf2, Hf1; apply nth_tl).
      assert (Hdb : db w2 = db w) by congruence.
      destruct Hcase as [((k & Hk & Hname) & Hun)|(Hname & Hall)].
      * left. split.
        -- exists (S k). split; [lia|]. rewrite Hname, Hp. reflexivity.
        -- rewrite <- Hdb. exact Hun.
      * right. split; [rewrite Hname, Hc2, Hc1; reflexivity|].
        intros [|k] Hk.
        -- rewrite <- Hr, <- Hd1, <- Hf1. exact Htaken.
        -- rewrite <- Hp, <- Hf, <- Hdb. apply Hall. lia.
    + unfold ret. split; [congruence|]. left. split.
      * exists 0%nat. split; [lia|]. rewrite Hr. reflexivity.
      * rewrite <- Hd1. exact Htaken.
Qed.

(** X19: [generateUniqueUsername] only reads the store. From the part
    of the address before the [@] it makes a stem of at least three
    bytes (dots, plus signs and underscores removed, in lower case,
    padded with [user] when shorter). It returns the stem, or the stem
    followed by one of ten random numbers, and then no live account
    carries the name it returns; or else the stem and all ten
    candidates count as taken, each because a live account carries it
    or because the store failed that check, and it returns the stem
    followed by the time. *)
Theorem generated_username_is_unused :
  forall (baseUsername : string) (w : World),
    let cleaned :=
      remove_char "_"%char
        (remove_char "+"%char (strings_ToLower (remove_char "."%char baseUsername))) in
    let stem :=
      if (String.length cleaned <? 3)%nat then (cleaned ++ "user")%string else cleaned in
    let candidate :=
      fun k => (stem ++ Itoa (nth k (prng w) 0 mod 9999 + 1))%string in
    let (name, w') := generateUniqueUsername strings_ToLower baseUsername w in
    db w' = db w /\
    (3 <= String.length stem)%nat /\
    (((name = stem \/ exists k, (k < 10)%nat /\ name = candidate k) /\
      forall x, In x (live_users (db w)) -> User.Username x <> name)
     \/
     (name = (stem ++ Itoa (nth 1 (clock w) 0))%string /\
      counts_as_taken (db w) (nth 0 (faults w) false) stem /\
      forall k, (k < 10)%nat ->
                counts_as_taken (db w) (nth (S k) (faults w) false) (candidate k))).
Proof.
  intros baseUsername w cleaned stem candidate.
  unfold generateUniqueUsername. unfold bind at 1.
  assert (Hr : db (snd (time_Now w)) = db w /\
               faults (snd (time_Now w)) = faults w /\
               prng (snd (time_Now w)) = prng w /\
               clock (snd (time_Now w)) = tl (clock w))
    by (unfold time_Now; destruct w as [d fs en pr cl lg]; destruct cl; simpl; auto).
  destruct (time_Now w) as [t w1]; simpl in Hr.
  destruct Hr as (Hd1 & Hf1 & Hp1 & Hc1).
  unfold bind. fold cleaned. fold stem.
  assert (Hstem : (3 <= String.length stem)%nat).
  { unfold stem. destruct (String.length cleaned <? 3)%nat eqn:E.
    - rewrite length_append. simpl. lia.
    - apply Nat.ltb_ge in E. exact E. }
  pose proof (usernameExists_cases stem w1) as Hu.
  destruct (usernameExists stem w1) as [[|] w2];
    destruct Hu as (Hd2 & Hf2 & Hp2 & Hc2 & Htaken).
  - pose proof (generateUniqueUsername_loop_cases 10 stem w2) as Hl. cbv zeta in Hl.
    destruct (generateUniqueUsername_loop 10 stem w2) as [name w3].
    destruct Hl as (Hd3 & Hcase).
    assert (Hdb : db w2 = db w) by congruence.
    assert (Hp : forall k, nth k (prng w2) 0 = nth k (prng w) 0)
      by (intros k; rewrite Hp2, Hp1; reflexivity).
    assert (Hf : forall k, nth k (faults w2) false = nth (S k) (faults w) false)
      by (intros k; rewrite Hf2, Hf1; apply nth_tl).
    split; [congruence|]. split; [exact Hstem|].
    destruct Hcase as [((k & Hk & Hname) & Hun)|(Hname & Hall)].
    + left. split.
      * right. exists k. split; [exact Hk|]. unfold candidate. rewrite <- Hp. exact Hname.
      * rewrite <- Hdb. exact Hun.
    + right. split; [|split].
      * rewrite Hname, Hc2, Hc1. rewrite nth_tl. reflexivity.
      * rewrite <- Hd1, <- Hf1. exact Htaken.
      * intros k Hk. unfold candidate. rewrite <- Hp, <- Hf, <- Hdb. apply Hall. exact Hk.
  - unfold ret. split; [congruence|]. split; [exact Hstem|].
    left. split; [left; reflexivity|]. rewrite <- Hd1. exact Htaken.
Qed.

End UsernameProperties.

(** ** The properties on the sample registration *)

Lemma registration_keeps_emails_unique_witness :
  emails_unique (db three_uses) /\
  emails_unique (db (snd (Register sample_bcrypt sample_jwt sample_case sample_case 24
                                   sample_request three_uses))).
Proof.
  assert (H0 : emails_unique (db three_uses)) by constructor.
  split; [exact H0|].
  pose proof (registration_keeps_emails_unique sample_bcrypt sample_jwt sample_case
                sample_case 24 sample_request three_uses) as H.
  destruct (Register sample_bcrypt sample_jwt sample_case sample_case 24
                     sample_request three_uses) as [r w'].
  exact (proj1 H H0).
Defined.

Lemma registration_without_code_leaves_codes_alone_witness :
  RegisterRequest.InviteCode open_request = "" /\
  invite_codes (db (snd (Register sample_bcrypt sample_jwt sample_case sample_case 24
                                  open_request three_uses)))
  = invite_codes (db three_uses) /\
  exists resp, fst (Register sample_bcrypt sample_jwt sample_case sample_case 24
                             open_request three_uses) = Ok resp.
Proof.
  assert (H0 : RegisterRequest.InviteCode open_request = "") by reflexivity.
  split; [exact H0|].
  pose proof (registration_without_code_leaves_codes_alone sample_bcrypt sample_jwt
                sample_case sample_case 24 open_request three_uses H0) as H.
  destruct (Register sample_bcrypt sample_jwt sample_case sample_case 24
                     open_request three_uses) as [r w'].
  destruct H as (Hc & _ & _ & Hok). split; [exact Hc|].
  apply Hok.
  - constructor.
  - intros x [].
  - discriminate.
  - intros c. discriminate.
Defined.

Lemma registration_with_code_redeems_it_witness :
  let (r, w') := Register sample_bcrypt sample_jwt sample_case sample_case 24
                          sample_request three_uses in
  exists (u : User.t) (token : TokenResponse.t) (usedAt : Z),
    r = Ok (AuthResponse.mk u token) /\
    users (db w') = users (db three_uses) ++ [u] /\
    User.InviteCodeID u = Some (InviteCode.ID (sample_row 3 0 "active")) /\
    User.InviteCodeUsed u = Some (InviteCode.Code (sample_row 3 0 "active")) /\
    invite_codes (db w')
    = save_row (redeemed (sample_row 3 0 "active")) (invite_codes (db three_uses)) /\
    stored_code (db w') (RegisterRequest.InviteCode sample_request)
    = Some (redeemed (sample_row 3 0 "active")) /\
    InviteCode.UsedCount (redeemed (sample_row 3 0 "active"))
    = InviteCode.UsedCount (sample_row 3 0 "active") + 1 /\
    invite_code_usages (db w')
    = invite_code_usages (db three_uses)
      ++ [InviteCodeUsage.mk (invite_code_usages_seq (db three_uses) + 1)
            (InviteCode.ID (sample_row 3 0 "active")) (User.ID u) usedAt
            "unknown" "unknown" None].
Proof.
  apply (registration_with_code_redeems_it sample_bcrypt sample_jwt sample_case
           sample_case 24 sample_request three_uses (sample_row 3 0 "active")).
  - reflexivity.
  - unfold ids_unique. simpl. constructor; [intros []|constructor].
  - discriminate.
  - reflexivity.
  - reflexivity.
  - simpl. lia.
  - unfold row_ok, sample_row. cbn [InviteCode.UsedCount InviteCode.MaxUses]. lia.
  - intros x [].
  - discriminate.
  - intros c. discriminate.
Defined.

Lemma login_refusal_is_uniform_witness :
  stored_user (db signed_up) (LoginRequest.Email unknown_login) = None /\
  fst (Login sample_compare sample_jwt 24 unknown_login signed_up)
  = Err (Errorf "invalid email or password").
Proof.
  assert (H0 : stored_user (db signed_up) (LoginRequest.Email unknown_login) = None)
    by reflexivity.
  split; [exact H0|].
  pose proof (login_refusal_is_uniform sample_compare sample_jwt 24 unknown_login
                signed_up (or_introl H0)) as H.
  destruct (Login sample_compare sample_jwt 24 unknown_login signed_up) as [r w'].
  exact (proj1 H).
Defined.

Lemma registered_user_can_log_in_witness :
  exists (resp : AuthResponse.t) (w1 : World),
    Register sample_bcrypt sample_jwt sample_case sample_case 24 sample_request three_uses
    = (Ok resp, w1) /\
    (exists token,
        fst (Login sample_compare sample_jwt 24
               (LoginRequest.mk "ann@example.com" "secret1") (quiet (db w1)))
        = Ok (AuthResponse.mk (AuthResponse.User resp) token)) /\
    fst (Login sample_compare sample_jwt 24
           (LoginRequest.mk "ann@example.com" "secret2") (quiet (db w1)))
    = Err (Errorf "invalid email or password").
Proof.
  destruct (Register sample_bcrypt sample_jwt sample_case sample_case 24
                     sample_request three_uses) as [[resp|e] w1] eqn:E;
    [|vm_compute in E; discriminate].
  exists resp, w1. split; [reflexivity|].
  assert (Hb : bcrypt_accepts_own_hash sample_bcrypt sample_compare).
  { intros p h Hh. inversion Hh. unfold sample_compare. apply String.eqb_refl. }
  assert (Hs : signs sample_jwt) by (intros c; discriminate).
  assert (Hnf : no_fault (quiet (db w1))) by constructor.
  destruct (registered_user_can_log_in sample_bcrypt sample_compare sample_jwt
              sample_case sample_case 24 sample_request three_uses w1 resp Hb Hs E
              (quiet (db w1)) eq_refl Hnf) as (Hok & Hbad).
  split; [exact Hok|].
  apply Hbad. vm_compute in E. inversion E. reflexivity.
Defined.

Lemma password_change_takes_effect_witness :
  exists w',
    ChangePassword sample_bcrypt sample_compare 1 "secret1" "secret2" signed_up
    = (Ok tt, w') /\
    (exists token u,
        fst (Login sample_compare sample_jwt 24
               (LoginRequest.mk "ann@example.com" "secret2") (quiet (db w')))
        = Ok (AuthResponse.mk u token)) /\
    fst (Login sample_compare sample_jwt 24
           (LoginRequest.mk "ann@example.com" "secret1") (quiet (db w')))
    = Err (Errorf "invalid email or password").
Proof.
  destruct (ChangePassword sample_bcrypt sample_compare 1 "secret1" "secret2" signed_up)
    as [[[]|e] w'] eqn:E; [|vm_compute in E; discriminate].
  exists w'. split; [reflexivity|].
  assert (Hi : user_ids_unique (db signed_up))
    by (vm_compute; constructor; [intros []|constructor]).
  assert (He : emails_unique (db signed_up))
    by (vm_compute; constructor; [intros []|constructor]).
  destruct (password_change_takes_effect sample_bcrypt sample_compare sample_jwt 24
              1 "secret1" "secret2" signed_up w' Hi He E)
    as (u & u' & h & Hin & _ & _ & _ & _ & Hh & _ & _ & _ & _ & _ & _ & _ & Hlogin).
  assert (Hu : User.Email u = "ann@example.com" /\ User.Status u = UserStatusActive).
  { vm_compute in Hin. destruct Hin as [<-|[]]. split; reflexivity. }
  destruct Hu as (Hem & Hst).
  assert (Hhv : h = "$2a$10$secret2") by (vm_compute in Hh; congruence).
  destruct (Hlogin (quiet (db w')) eq_refl) as (Hnew & Hold); [constructor|].
  rewrite Hem in Hnew, Hold. split.
  - destruct Hnew as (token & Ht).
    + exact Hst.
    + intros p h0 Hh0. inversion Hh0. unfold sample_compare. apply String.eqb_refl.
    + intros c. discriminate.
    + eauto.
  - apply Hold; [exact Hst|]. rewrite Hhv. reflexivity.
Defined.

Lemma generated_username_is_unused_witness :
  (exists x, In x (live_users (db signed_up)) /\ User.Username x = "ann") /\
  fst (generateUniqueUsername sample_case "a.n_n" signed_up) = "ann1" /\
  forall x, In x (live_users (db signed_up)) -> User.Username x <> "ann1".
Proof.
  pose proof (generated_username_is_unused sample_case "a.n_n" signed_up) as H.
  cbv zeta in H.
  destruct (generateUniqueUsername sample_case "a.n_n" signed_up) as [name w'] eqn:E.
  assert (Hname : name = "ann1") by (vm_compute in E; inversion E; reflexivity).
  split.
  { eexists. split; [left; reflexivity|]. reflexivity. }
  split; [exact Hname|]. rewrite <- Hname.
  destruct H as (_ & _ & [(_ & Hun)|(Hfall & _)]); [exact Hun|].
  exfalso. rewrite Hname in Hfall. vm_compute in Hfall. discriminate.
Defined.

(** ** Statistics *)

Lemma Count_InviteCode_cases (p : InviteCode.t -> bool) (w : World) :
  let (r, w') := Count_InviteCode p w in
  db w' = db w /\ log w' = log w /\
  match r with
  | Ok n => n = Z.of_nat (List.length (filter p (live_invite_codes (db w))))
  | Err _ => True
  end.
Proof.
  unfold Count_InviteCode. unfold_m.
  destruct w as [d fs en pr cl lg]; simpl.
  destruct fs as [|[|] fs]; simpl; auto.
Qed.

Lemma Sum_UsedCount_cases (w : World) :
  let (r, w') := Sum_UsedCount w in
  db w' = db w /\ log w' = log w /\
  match r with
  | Ok n => n = fold_right Z.add 0 (map InviteCode.UsedCount (live_invite_codes (db w)))
  | Err _ => True
  end.
Proof.
  unfold Sum_UsedCount. unfold_m.
  destruct w as [d fs en pr cl lg]; simpl.
  destruct fs as [|[|] fs]; simpl; auto;
    match goal with |- context [if ?c then _ else _] => destruct c end; simpl; auto.
Qed.

Lemma GetInviteCodeStats_cases (w : World) :
  let (r, w') := GetInviteCodeStats w in
  db w' = db w /\ log w' = log w /\
  match r with
  | Ok s =>
      let live := live_invite_codes (db w) in
      let count := fun p => Z.of_nat (List.length (filter p live)) in
      InviteCodeStats.total_codes s = Z.of_nat (List.length live) /\
      InviteCodeStats.active_codes s
      = count (fun r => (InviteCode.Status r =? InviteCodeStatusActive)%string) /\
      InviteCodeStats.used_codes s
      = count (fun r => (InviteCode.Status r =? InviteCodeStatusUsed)%string) /\
      InviteCodeStats.disabled_codes s
      = count (fun r => (InviteCode.Status r =? InviteCodeStatusDisabled)%string) /\
      InviteCodeStats.total_usage s
      = fold_right Z.add 0 (map InviteCode.UsedCount live)
  | Err _ => True
  end.
Proof.
  unfold GetInviteCodeStats.
  unfold bind at 1.
  pose proof (Count_InviteCode_cases (fun _ => true) w) as H1.
  destruct (Count_InviteCode (fun _ => true) w) as [[n1|e] w1];
    destruct H1 as (D1 & L1 & H1); [|unfold ret; auto].
  unfold bind at 1.
  match goal with |- context [Count_InviteCode ?p w1] =>
    pose proof (Count_InviteCode_cases p w1) as H2;
    destruct (Count_InviteCode p w1) as [[n2|e] w2];
    destruct H2 as (D2 & L2 & H2); [|unfold ret; split; [|split]; [congruence..|exact I]]
  end.
  unfold bind at 1.
  match goal with |- context [Count_InviteCode ?p w2] =>
    pose proof (Count_InviteCode_cases p w2) as H3;
    destruct (Count_InviteCode p w2) as [[n3|e] w3];
    destruct H3 as (D3 & L3 & H3); [|unfold ret; split; [|split]; [congruence..|exact I]]
  end.
  unfold bind at 1.
  match goal with |- context [Count_InviteCode ?p w3] =>
    pose proof (Count_InviteCode_cases p w3) as H4;
    destruct (Count_InviteCode p w3) as [[n4|e] w4];
    destruct H4 as (D4 & L4 & H4); [|unfold ret; split; [|split]; [congruence..|exact I]]
  end.
  unfold bind at 1.
  pose proof (Sum_UsedCount_cases w4) as H5.
  destruct (Sum_UsedCount w4) as [[n5|e] w5];
    destruct H5 as (D5 & L5 & H5); [|unfold ret; split; [|split]; [congruence..|exact I]].
  unfold ret. split; [congruence|]. split; [congruence|].
  cbv zeta. cbn [InviteCodeStats.total_codes InviteCodeStats.active_codes
                 InviteCodeStats.used_codes InviteCodeStats.disabled_codes
                 InviteCodeStats.total_usage].
  assert (E4 : db w4 = db w) by congruence.
  assert (E3 : db w3 = db w) by congruence.
  assert (E2 : db w2 = db w) by congruence.
  rewrite E4 in H5. rewrite E3 in H4. rewrite E2 in H3. rewrite D1 in H2.
  rewrite H1, H2, H3, H4, H5.
  split; [|auto].
  f_equal. f_equal. clear. induction (live_invite_codes (db w)); simpl; congruence.
Qed.

Lemma status_counts (l : list InviteCode.t) :
  let count := fun p => Z.of_nat (List.length (filter p l)) in
  let known :=
    count (fun r => (InviteCode.Status r =? InviteCodeStatusActive)%string)
    + count (fun r => (InviteCode.Status r =? InviteCodeStatusUsed)%string)
    + count (fun r => (InviteCode.Status r =? InviteCodeStatusDisabled)%string) in
  known <= Z.of_nat (List.length l) /\
  (known = Z.of_nat (List.length l) <-> forall r, In r l -> known_status r).
Proof.
  induction l as [|a l IH]; cbv zeta in *.
  - simpl. split; [lia|]. split; [intros _ r []|reflexivity].
  - destruct IH as (IHle & IHeq).
    cbn [filter].
    destruct (InviteCode.Status a =? InviteCodeStatusActive)%string eqn:Ea;
      destruct (InviteCode.Status a =? InviteCodeStatusUsed)%string eqn:Eu;
      destruct (InviteCode.Status a =? InviteCodeStatusDisabled)%string eqn:Ed;
      try (apply String.eqb_eq in Ea); try (apply String.eqb_eq in Eu);
      try (apply String.eqb_eq in Ed);
      try (rewrite Ea in Eu; discriminate); try (rewrite Ea in Ed; discriminate);
      try (rewrite Eu in Ed; discriminate);
      cbn [List.length]; rewrite ?Nat2Z.inj_succ.
    + split; [lia|]. split.
      * intros H r [<-|Hr]; [left; exact Ea|apply IHeq; [lia|exact Hr]].
      * intros H. assert (Hk := proj2 IHeq (fun r Hr => H r (or_intror Hr))). lia.
    + split; [lia|]. split.
      * intros H r [<-|Hr]; [right; left; exact Eu|apply IHeq; [lia|exact Hr]].
      * intros H. assert (Hk := proj2 IHeq (fun r Hr => H r (or_intror Hr))). lia.
    + split; [lia|]. split.
      * intros H r [<-|Hr]; [right; right; exact Ed|apply IHeq; [lia|exact Hr]].
      * intros H. assert (Hk := proj2 IHeq (fun r Hr => H r (or_intror Hr))). lia.
    + split; [lia|]. split.
      * intros H. lia.
      * intros H. exfalso. destruct (H a (or_introl eq_refl)) as [K|[K|K]];
          rewrite K in *; discriminate.
Qed.

(** X20: [GetInviteCodeStats] only reads. Its total is the number of
    codes that are not deleted; the active, used and disabled counts
    are disjoint parts of it, so their sum never exceeds the total, and
    it equals the total exactly when every such code has one of the
    three statuses. *)
Theorem stats_counts_partition_the_codes :
  forall (w : World),
    let (r, w') := GetInviteCodeStats w in
    db w' = db w /\ log w' = log w /\
    match r with
    | Ok s =>
        let known := InviteCodeStats.active_codes s + InviteCodeStats.used_codes s
                     + InviteCodeStats.disabled_codes s in
        InviteCodeStats.total_codes s
        = Z.of_nat (List.length (live_invite_codes (db w))) /\
        0 <= InviteCodeStats.active_codes s /\
        0 <= InviteCodeStats.used_codes s /\
        0 <= InviteCodeStats.disabled_codes s /\
        known <= InviteCodeStats.total_codes s /\
        (known = InviteCodeStats.total_codes s <->
         forall r, In r (live_invite_codes (db w)) -> known_status r)
    | Err _ => True
    end.
Proof.
  intros w.
  pose proof (GetInviteCodeStats_cases w) as H.
  destruct (GetInviteCodeStats w) as [[s|e] w']; destruct H as (Hdb & Hlog & H);
    (split; [exact Hdb|split; [exact Hlog|]]); [|exact I].
  cbv zeta in H. destruct H as (Ht & Ha & Hu & Hd & _).
  pose proof (status_counts (live_invite_codes (db w))) as Hc. cbv zeta in Hc.
  cbv zeta. rewrite Ht, Ha, Hu, Hd.
  split; [reflexivity|]. do 3 (split; [lia|]). exact Hc.
Qed.

Lemma stats_counts_partition_the_codes_witness :
  (forall r, In r (live_invite_codes (db after_scenario_B)) -> known_status r) /\
  exists s,
    fst (GetInviteCodeStats after_scenario_B) = Ok s /\
    InviteCodeStats.active_codes s + InviteCodeStats.used_codes s
    + InviteCodeStats.disabled_codes s = InviteCodeStats.total_codes s.
Proof.
  assert (H0 : forall r, In r (live_invite_codes (db after_scenario_B)) -> known_status r).
  { intros r Hr. vm_compute in Hr. destruct Hr as [<-|[]]. left. reflexivity. }
  split; [exact H0|].
  pose proof (stats_counts_partition_the_codes after_scenario_B) as H.
  destruct (GetInviteCodeStats after_scenario_B) as [[s|e] w'] eqn:E;
    [|vm_compute in E; discriminate].
  exists s. split; [reflexivity|].
  destruct H as (_ & _ & _ & _ & _ & _ & _ & Hiff). apply Hiff. exact H0.
Defined.

(** *** The usage total and the ledger *)

Lemma count_or_disjoint {A : Type} (p q : A -> bool) (l : list A) :
  (forall x, In x l -> p x && q x = false) ->
  List.length (filter (fun x => p x || q x) l)
  = (List.length (filter p l) + List.length (filter q l))%nat.
Proof.
  induction l as [|a l IH]; intros H; [reflexivity|].
  pose proof (H a (or_introl eq_refl)) as Ha.
  assert (IH' := IH (fun x Hx => H x (or_intror Hx))).
  cbn [filter]. destruct (p a), (q a); simpl in *; try discriminate; lia.
Qed.

Lemma ledger_sum (us : list InviteCodeUsage.t) (l : list InviteCode.t) :
  NoDup (map InviteCode.ID l) ->
  fold_right Z.add 0
    (map (fun r => Z.of_nat (List.length
            (filter (fun u => (InviteCodeUsage.InviteCodeID u =? InviteCode.ID r)
                              && match InviteCodeUsage.DeletedAt u with
                                 | Some _ => false
                                 | None => true
                                 end) us))) l)
  = Z.of_nat (List.length
      (filter (fun u => match InviteCodeUsage.DeletedAt u with
                        | Some _ => false
                        | None => true
                        end
                        && existsb (fun r => InviteCode.ID r
                                             =? InviteCodeUsage.InviteCodeID u) l) us)).
Proof.
  induction l as [|a l IH]; intros Hn.
  - simpl. rewrite (proj2 (List.length_zero_iff_nil _)); [reflexivity|].
    induction us as [|u us IHu]; simpl; [reflexivity|].
    rewrite andb_false_r. exact IHu.
  - simpl in Hn. inversion Hn as [|? ? Hna Hn']; subst.
    cbn [map fold_right]. rewrite (IH Hn'). clear IH.
    rewrite <- Nat2Z.inj_add. f_equal.
    rewrite <- count_or_disjoint.
    + f_equal. apply filter_ext. intros u. cbn [existsb].
      rewrite (Z.eqb_sym (InviteCode.ID a)).
      destruct (InviteCodeUsage.InviteCodeID u =? InviteCode.ID a);
        destruct (InviteCodeUsage.DeletedAt u); simpl; reflexivity.
    + intros u _.
      destruct (InviteCodeUsage.InviteCodeID u =? InviteCode.ID a) eqn:E;
        [|reflexivity].
      destruct (InviteCodeUsage.DeletedAt u); [reflexivity|]. simpl.
      apply Z.eqb_eq in E.
      destruct (existsb _ l) eqn:Ex; [|reflexivity].
      exfalso. apply existsb_exists in Ex as (r & Hr & Hid).
      apply Z.eqb_eq in Hid. apply Hna. rewrite <- E, <- Hid. apply in_map. exact Hr.
Qed.

Lemma NoDup_map_filter {A : Type} (key : A -> Z) (p : A -> bool) (l : list A) :
  NoDup (map key l) -> NoDup (map key (filter p l)).
Proof.
  induction l as [|a l IH]; simpl; intros H; [constructor|].
  inversion H as [|? ? Hna Hn]; subst.
  destruct (p a); simpl; [|auto].
  constructor; [|auto].
  intros Hin. apply Hna. apply in_map_iff in Hin as (x & Hx & Hxin).
  apply filter_In in Hxin as [Hxin _]. rewrite <- Hx. apply in_map. exact Hxin.
Qed.

(** X21: in a consistent store (identifiers unique, every counter
    equal to its ledger total) the [total_usage] that
    [GetInviteCodeStats] reports is the number of live ledger entries
    of the codes that are not deleted. *)
Theorem stats_usage_equals_ledger :
  forall (w w' : World) (s : InviteCodeStats.t),
    store_inv (db w) ->
    GetInviteCodeStats w = (Ok s, w') ->
    InviteCodeStats.total_usage s
    = Z.of_nat (List.length (ledger_of_live_codes (db w))).
Proof.
  intros w w' s Hinv Hrun.
  pose proof (GetInviteCodeStats_cases w) as H. rewrite Hrun in H.
  destruct H as (_ & _ & H). cbv zeta in H. destruct H as (_ & _ & _ & _ & Hs).
  rewrite Hs. unfold ledger_of_live_codes.
  rewrite <- (ledger_sum (invite_code_usages (db w)) (live_invite_codes (db w))).
  - f_equal. apply map_ext_in. intros r Hr.
    unfold live_invite_codes in Hr. apply filter_In in Hr as [Hr _].
    rewrite <- (inv_ledger _ Hinv r Hr). reflexivity.
  - unfold live_invite_codes. apply NoDup_map_filter. exact (inv_ids _ Hinv).
Qed.

Lemma stats_usage_equals_ledger_witness :
  store_inv (db after_scenario_B) /\
  exists s w',
    GetInviteCodeStats after_scenario_B = (Ok s, w') /\
    InviteCodeStats.total_usage s = 2.
Proof.
  assert (Hinv : store_inv (db after_scenario_B)).
  { unfold after_scenario_B. apply run_ops_inv. exact store_inv_empty. }
  split; [exact Hinv|].
  destruct (GetInviteCodeStats after_scenario_B) as [[s|e] w'] eqn:E;
    [|vm_compute in E; discriminate].
  exists s, w'. split; [reflexivity|].
  rewrite (stats_usage_equals_ledger after_scenario_B w' s Hinv E). reflexivity.
Defined.

(** ** Codes and the random source *)

Lemma unhex_hexchar (v : Byte.byte) :
  Byte.of_N (16 * unhex (hexchar (N.shiftr (Byte.to_N v) 4))
             + unhex (hexchar (N.land (Byte.to_N v) 15))) = Some v.
Proof. destruct v; reflexivity. Qed.

Lemma read_back_EncodeToString (src : list Byte.byte) :
  read_back (EncodeToString src) = src.
Proof.
  induction src as [|v src IH]; [reflexivity|].
  cbn [EncodeToString read_back]. rewrite unhex_hexchar, IH. reflexivity.
Qed.

(** X22: [GenerateInviteCode] loses nothing of the random bytes: the
    code can be read back into the sixteen bytes it was made from, so
    two generations return the same code only when the random source
    gave both the same sixteen bytes. *)
Theorem equal_codes_come_from_equal_draws :
  forall (w1 w2 w1' w2' : World) (code : string),
    GenerateInviteCode w1 = (Ok code, w1') ->
    GenerateInviteCode w2 = (Ok code, w2') ->
    exists bytes,
      In bytes (entropy w1) /\ In bytes (entropy w2) /\
      List.length bytes = 16%nat /\
      code = EncodeToString bytes /\
      read_back code = bytes.
Proof.
  intros w1 w2 w1' w2' code H1 H2.
  unfold GenerateInviteCode in H1, H2.
  pose proof (GenerateInviteCode_fuel_spec (S (List.length (entropy w1))) w1) as S1.
  pose proof (GenerateInviteCode_fuel_spec (S (List.length (entropy w2))) w2) as S2.
  rewrite H1 in S1. rewrite H2 in S2.
  destruct S1 as (_ & _ & (b1 & Hin1 & Hlen1 & Hc1) & _).
  destruct S2 as (_ & _ & (b2 & Hin2 & _ & Hc2) & _).
  assert (Hb : b2 = b1).
  { rewrite <- (read_back_EncodeToString b1), <- (read_back_EncodeToString b2).
    congruence. }
  subst b2. exists b1. repeat (split; [assumption|]).
  rewrite Hc1. apply read_back_EncodeToString.
Qed.

Lemma equal_codes_come_from_equal_draws_witness :
  exists bytes,
    In bytes (entropy fresh_draw) /\ In bytes (entropy colliding_draw) /\
    List.length bytes = 16%nat /\
    fresh_code = EncodeToString bytes /\
    read_back fresh_code = bytes.
Proof.
  apply (equal_codes_come_from_equal_draws fresh_draw colliding_draw
           (mkWorld empty_db [] [] [] [] [])
           (mkWorld (sample_db (sample_row 3 0 "active")) [] [] [] [] []) fresh_code);
    reflexivity.
Defined.

(** ** The public validation endpoint *)

Lemma ValidateInviteCode_cases (code : string) (w : World) :
  fst (ValidateInviteCode code w)
  = if hd false (faults w) then Err (Wrapf "failed to get invite code" ErrStore)
    else match stored_code (db w) code with
         | None => Err (Errorf "invite code not found")
         | Some ic =>
             if negb (InviteCode.CanBeUsed ic) then
               if InviteCode.IsExhausted ic
               then Err (Errorf "invite code has reached maximum uses")
               else Err (Errorf "invite code is not active")
             else Ok ic
         end.
Proof.
  unfold ValidateInviteCode, GetInviteCodeByCode, First_InviteCode, stored_code.
  unfold_m. destruct w as [d fs en pr cl lg]; simpl.
  destruct fs as [|[|] fs]; simpl; try reflexivity;
    (destruct (min_by _ _) as [ic|]; simpl; [|reflexivity];
     destruct (negb (InviteCode.CanBeUsed ic)); [|reflexivity];
     destruct (InviteCode.IsExhausted ic); reflexivity).
Qed.

Lemma Forall2_filter {A : Type} (R : A -> A -> Prop) (p : A -> bool) (l1 l2 : list A) :
  (forall a b, R a b -> p a = p b) ->
  Forall2 R l1 l2 -> Forall2 R (filter p l1) (filter p l2).
Proof.
  intros Hp H. induction H as [|a b l1 l2 Hab H IH]; simpl; [constructor|].
  rewrite (Hp a b Hab). destruct (p b); [constructor|]; assumption.
Qed.

Lemma Forall2_min_by {A : Type} (R : A -> A -> Prop) (key : A -> Z) (l1 l2 : list A) :
  (forall a b, R a b -> key a = key b) ->
  Forall2 R l1 l2 ->
  match min_by key l1, min_by key l2 with
  | Some a, Some b => R a b
  | None, None => True
  | _, _ => False
  end.
Proof.
  intros Hk H. induction H as [|a b l1 l2 Hab H IH]; simpl; [exact I|].
  destruct (min_by key l1) as [x|], (min_by key l2) as [y|]; try contradiction;
    [|exact Hab].
  rewrite (Hk a b Hab), (Hk x y IH). destruct (key b <=? key y); assumption.
Qed.

(** X23: the public validation endpoint tells nothing about who
    created a code. Its answer is the same on two stores whose rows
    differ only in creator and metadata, whatever the code asked for and
    whatever the store does; it never writes; and a successful answer
    carries no identifier and no creator, only the code asked for, which
    is active and has uses left. *)
Theorem public_validation_hides_creator_and_key :
  forall (code : string) (w1 w2 : World),
    faults w1 = faults w2 ->
    Forall2 same_public (invite_codes (db w1)) (invite_codes (db w2)) ->
    fst (ValidateInviteCode_handler code w1) = fst (ValidateInviteCode_handler code w2) /\
    db (snd (ValidateInviteCode_handler code w1)) = db w1 /\
    forall data,
      fst (ValidateInviteCode_handler code w1) = PublicSuccess data ->
      InviteCodeResponse.ID data = 0 /\ InviteCodeResponse.CreatedByID data = 0 /\
      InviteCodeResponse.Code data = code /\
      InviteCodeResponse.Status data = InviteCodeStatusActive /\
      InviteCodeResponse.UsedCount data < InviteCodeResponse.MaxUses data.
Proof.
  intros code w1 w2 Hf Hrows.
  assert (Hh : forall w,
             fst (ValidateInviteCode_handler code w)
             = if (code =? "")%string
               then PublicRefused (BadRequest "Invite code is required")
               else match fst (ValidateInviteCode code w) with
                    | Err err => PublicRefused (NotFound (Error err))
                    | Ok ic => PublicSuccess (ToPublicResponse ic)
                    end).
  { intros w. unfold ValidateInviteCode_handler.
    destruct (code =? "")%string; [reflexivity|].
    unfold bind at 1. destruct (ValidateInviteCode code w) as [[ic|e] w'];
      reflexivity. }
  assert (Hst : match stored_code (db w1) code, stored_code (db w2) code with
                | Some a, Some b => same_public a b
                | None, None => True
                | _, _ => False
                end).
  { unfold stored_code, live_invite_codes.
    apply Forall2_min_by; [intros a b Hab; apply Hab|].
    apply Forall2_filter; [intros a b Hab; destruct Hab as (_ & -> & _); reflexivity|].
    apply Forall2_filter; [|exact Hrows].
    intros a b Hab. unfold InviteCode.IsDeleted.
    destruct Hab as (_ & _ & _ & _ & _ & _ & ->). reflexivity. }
  split; [|split].
  - rewrite !Hh. destruct (code =? "")%string; [reflexivity|].
    rewrite !ValidateInviteCode_cases, Hf.
    destruct (hd false (faults w2)); [reflexivity|].
    destruct (stored_code (db w1) code) as [a|], (stored_code (db w2) code) as [b|];
      try contradiction; [|reflexivity].
    destruct a as [i1 c1 k1 s1 m1 u1 d1 x1 t1], b as [i2 c2 k2 s2 m2 u2 d2 x2 t2].
    unfold same_public in Hst. simpl in Hst.
    destruct Hst as (Hid & Hcode & Hstat & Hmax & Hused & Hdesc & Hdel). subst.
    unfold InviteCode.CanBeUsed, InviteCode.IsActive, InviteCode.IsExhausted,
      InviteCode.IsDeleted, ToPublicResponse. simpl.
    destruct (negb _); [|reflexivity]. destruct (u2 >=? m2); reflexivity.
  - unfold ValidateInviteCode_handler.
    destruct (code =? "")%string; [reflexivity|].
    unfold bind at 1.
    pose proof (ValidateInviteCode_spec code w1) as Hs.
    destruct (ValidateInviteCode code w1) as [[ic|e] w']; destruct Hs as (Hdb & _);
      unfold_m; simpl; exact Hdb.
  - intros data Hdata. rewrite Hh in Hdata.
    destruct (code =? "")%string; [discriminate|].
    pose proof (ValidateInviteCode_spec code w1) as Hs.
    destruct (ValidateInviteCode code w1) as [[ic|e] w']; [|discriminate].
    destruct Hs as (_ & _ & _ & _ & _ & _ & Hsc & Hcan).
    simpl in Hdata. inversion Hdata; subst data. simpl.
    apply stored_code_Some in Hsc as (_ & Hc & _).
    apply CanBeUsed_true in Hcan as (Ha & Hlt & _). auto.
Qed.

Lemma public_validation_hides_creator_and_key_witness :
  Forall2 same_public (invite_codes (db three_uses))
          [InviteCode.mk 1 sample_code 8 "active" 3 0 "team invite" "private" None] /\
  fst (ValidateInviteCode_handler sample_code three_uses)
  = fst (ValidateInviteCode_handler sample_code
           (quiet (sample_db (InviteCode.mk 1 sample_code 8 "active" 3 0 "team invite"
                                            "private" None)))).
Proof.
  assert (H0 : Forall2 same_public (invite_codes (db three_uses))
                 [InviteCode.mk 1 sample_code 8 "active" 3 0 "team invite" "private" None]).
  { constructor; [|constructor]. unfold same_public. simpl. auto 10. }
  split; [exact H0|].
  exact (proj1 (public_validation_hides_creator_and_key sample_code three_uses
                  (quiet (sample_db (InviteCode.mk 1 sample_code 8 "active" 3 0
                                                   "team invite" "private" None)))
                  eq_refl H0)).
Defined.

(** ** Pagination of the list endpoints *)

Lemma ParseUint_loop_ge (s : string) (acc v : Z) :
  0 <= acc -> ParseUint_loop s acc = Value v -> 0 <= v.
Proof.
  revert acc. induction s as [|c s IH]; cbn [ParseUint_loop]; intros acc Ha H.
  - inversion H; subst; exact Ha.
  - destruct (digit_of c) as [d|] eqn:E; [|discriminate].
    assert (Hd : 0 <= d).
    { unfold digit_of in E.
      destruct (48 <=? Z.of_N (N_of_ascii c)) eqn:E1; simpl in E; [|discriminate].
      destruct (Z.of_N (N_of_ascii c) <=? 57); [|discriminate].
      inversion E. apply Z.leb_le in E1. lia. }
    destruct (acc >=? (2 ^ 64 - 1) / 10 + 1); [discriminate|].
    destruct (acc * 10 + d >? 2 ^ 64 - 1); [discriminate|].
    apply (IH (acc * 10 + d)); [lia|exact H].
Qed.

Lemma Atoi_range (s : string) : - 2 ^ 63 <= fst (Atoi s) <= 2 ^ 63 - 1.
Proof.
  unfold Atoi.
  match goal with |- context [let (neg, body) := ?x in _] => destruct x as [neg body] end.
  destruct body as [|c body]; [simpl; lia|].
  destruct (ParseUint_loop (String c body) 0) as [| |v] eqn:E.
  - simpl; lia.
  - destruct neg; cbn [fst]; lia.
  - apply ParseUint_loop_ge in E; [|lia].
    destruct neg.
    + destruct (v >? 2 ^ 63) eqn:Ev; cbn [fst]; [lia|].
      rewrite Z.gtb_ltb in Ev. apply Z.ltb_ge in Ev. lia.
    + destruct (v >=? 2 ^ 63) eqn:Ev; cbn [fst]; [lia|].
      rewrite Z.geb_leb in Ev. apply Z.leb_gt in Ev. lia.
Qed.

(** X24: the window the list handlers compute from the query. Whatever
    the [page] and [limit] parameters are (absent, not a number, out of
    range), the limit is within 1..100 and the page at least 1, absent
    parameters mean page 1 and limit 10, and for pages up to
    [2^63 / 100] the offset is [(page - 1) * limit], not negative.
    Beyond that the product wraps: some page gives a negative offset. *)
Theorem page_window_bounds :
  (forall (pageQuery limitQuery : option string),
      let '(page, limit, offset) := page_window pageQuery limitQuery in
      1 <= page < 2 ^ 63 /\
      1 <= limit <= 100 /\
      (pageQuery = None -> page = 1) /\
      (limitQuery = None -> limit = 10) /\
      (page <= 2 ^ 63 / 100 -> offset = (page - 1) * limit /\ 0 <= offset)) /\
  (exists pageQuery,
      let '(page, limit, offset) := page_window pageQuery None in offset < 0).
Proof.
  split.
  2:{ exists (Some "9223372036854775807"). vm_compute. reflexivity. }
  intros pageQuery limitQuery. unfold page_window.
  pose proof (Atoi_range (DefaultQuery pageQuery "1")) as Hp.
  pose proof (Atoi_range (DefaultQuery limitQuery "10")) as Hl.
  set (p := fst (Atoi (DefaultQuery pageQuery "1"))) in *.
  set (l := fst (Atoi (DefaultQuery limitQuery "10"))) in *.
  assert (Hpage : 1 <= (if p <? 1 then 1 else p) < 2 ^ 63).
  { destruct (p <? 1) eqn:E; [lia|]. apply Z.ltb_ge in E. lia. }
  assert (Hlimit : 1 <= (if (l <? 1) || (l >? 100) then 10 else l) <= 100).
  { destruct (l <? 1) eqn:E1; [simpl; lia|]. apply Z.ltb_ge in E1.
    destruct (l >? 100) eqn:E2; [simpl; lia|]. simpl.
    rewrite Z.gtb_ltb in E2. apply Z.ltb_ge in E2. lia. }
  split; [exact Hpage|]. split; [exact Hlimit|].
  split; [|split].
  - intros ->. subst p. reflexivity.
  - intros ->. subst l. reflexivity.
  - intros Hsmall.
    set (page := if p <? 1 then 1 else p) in *.
    set (limit := if (l <? 1) || (l >? 100) then 10 else l) in *.
    assert (Hq : 2 ^ 63 / 100 = 92233720368547758) by reflexivity.
    rewrite Hq in Hsmall.
    assert (H0 : 0 <= (page - 1) * limit) by nia.
    assert (H1 : (page - 1) * limit < 2 ^ 63).
    { assert ((page - 1) * limit <= 92233720368547757 * 100) by nia.
      assert (92233720368547757 * 100 < 2 ^ 63) by reflexivity. lia. }
    rewrite wrap_int_id; [split; [reflexivity|exact H0]|].
    unfold int_range. lia.
Qed.

Lemma page_window_bounds_witness :
  let '(page, limit, offset) := page_window (Some "3") (Some "500") in
  page <= 2 ^ 63 / 100 /\ offset = (page - 1) * limit /\ 0 <= offset.
Proof.
  pose proof (proj1 page_window_bounds (Some "3") (Some "500")) as H.
  destruct (page_window (Some "3") (Some "500")) as [[page limit] offset] eqn:E.
  destruct H as (_ & _ & _ & _ & Hoff).
  assert (Hs : page <= 2 ^ 63 / 100)
    by (vm_compute in E; inversion E; subst; vm_compute; discriminate).
  split; [exact Hs | exact (Hoff Hs)].
Defined.
